(** * founderArms task-tracking backend: access control, queries,
      status transitions and analytics

    A shallow embedding of the Express routes of [src/routes/tasks.js] and
    [src/routes/analytics.js], of the Joi schemas of
    [src/validation/schemas.js] and of the tables, defaults, foreign keys and
    triggers declared by the SQL of [src/migrations/migrate.js].

    Conventions of the model.
    - A UUID column is a 128-bit value, written [uuid := N]; the textual
      format check of [Joi.string().uuid()] and of the database is the
      parser into that type and is not modelled.
    - A [TIMESTAMP WITH TIME ZONE] is the number of milliseconds since the
      epoch, in UTC, as a [Z]; [NOW()] and [new Date()] are an explicit
      argument [now].  The server's local time zone is taken to be UTC, so
      [setDate(getDate() - n)] moves a date by exactly [n] days.  A [Date]
      holds at most 8.64e15 ms either side of the epoch; past that it is
      invalid and [toISOString] throws.
    - The arithmetic of the analytics routes is that of JavaScript numbers,
      IEEE 754 binary64 with rounding to nearest, ties to even
      ([Binary64]): the value of a number is a rational, and each operation
      rounds its exact result.  The exponent range is not modelled: every
      magnitude computed here stays far inside it.  Counts and the
      arithmetic of pages are integers below [2^53], which doubles hold
      exactly.
    - The table [tasks] is the list of its rows in insertion order.
    - The Supabase client is the query language of the routes: each call is
      the SQL statement it stands for, run against the tables with their
      constraints and triggers.  A statement fails on a constraint, on
      [.single()], on a range past the counted rows, or on a value the
      database cannot read; a lost connection or a time-out is not
      modelled. *)

From Stdlib Require Import ZArith NArith QArith Qround Qabs Qpower.
From Stdlib Require Import List String Bool Lia Lqa.
From Stdlib Require Import Sorting.Sorted Sorting.Permutation.
From Stdlib Require OrderedTypeEx.
Import ListNotations.
Open Scope Z_scope.

Set Implicit Arguments.

(** ** Data model *)

Definition uuid := N.
Definition timestamp := Z.

Inductive status := todo | in_progress | completed.
Inductive priority := low | medium | high.

Definition status_eqb (a b : status) : bool :=
  match a, b with
  | todo, todo | in_progress, in_progress | completed, completed => true
  | _, _ => false
  end.

Definition priority_eqb (a b : priority) : bool :=
  match a, b with
  | low, low | medium, medium | high, high => true
  | _, _ => false
  end.

Lemma status_eqb_eq a b : status_eqb a b = true <-> a = b.
Proof. destruct a, b; simpl; split; intro H; congruence. Qed.

Lemma priority_eqb_eq a b : priority_eqb a b = true <-> a = b.
Proof. destruct a, b; simpl; split; intro H; congruence. Qed.

(** The text stored in the [priority] column. *)
Definition priority_text (p : priority) : string :=
  match p with low => "low" | medium => "medium" | high => "high" end%string.

(** [Joi.string().valid('todo', 'in_progress', 'completed')] and the
    [includes] test of [PATCH /tasks/:id/status]. *)
Definition parse_status (s : string) : option status :=
  if String.eqb s "todo" then Some todo
  else if String.eqb s "in_progress" then Some in_progress
  else if String.eqb s "completed" then Some completed
  else None.

Definition parse_priority (s : string) : option priority :=
  if String.eqb s "low" then Some low
  else if String.eqb s "medium" then Some medium
  else if String.eqb s "high" then Some high
  else None.

(** A row of [tasks] (migration 003). *)
Record task := mkTask {
  id : uuid;
  title : string;
  description : option string;
  task_status : status;
  task_priority : priority;
  due_date : option timestamp;
  completed_at : option timestamp;
  category_id : option uuid;
  created_by : uuid;
  assigned_to : option uuid;
  created_at : timestamp;
  updated_at : timestamp
}.

(** A row of [categories] (migration 002), without its timestamps. *)
Record category := mkCategory {
  cat_id : uuid;
  cat_name : string;
  cat_color : string;
  cat_user_id : uuid
}.

(** The database: [auth.users] (ids only), [categories] and [tasks]. *)
Record db := mkDb {
  users : list uuid;
  categories : list category;
  tasks : list task
}.

Definition with_tasks (d : db) (ts : list task) : db :=
  mkDb (users d) (categories d) ts.

Definition opt_uuid_is (o : option uuid) (u : uuid) : bool :=
  match o with Some v => N.eqb v u | None => false end.

Definition user_exists (d : db) (u : uuid) : bool :=
  existsb (N.eqb u) (users d).

Definition category_exists (d : db) (c : uuid) : bool :=
  existsb (fun k => N.eqb (cat_id k) c) (categories d).

(** ** Query filters used by the routes *)

(** [.eq('id', id)] *)
Definition eq_id (i : uuid) (t : task) : bool := N.eqb (id t) i.

(** [.eq('created_by', caller)] *)
Definition eq_created_by (caller : uuid) (t : task) : bool :=
  N.eqb (created_by t) caller.

(** [.or(`created_by.eq.${caller},assigned_to.eq.${caller}`)] *)
Definition or_created_assigned (caller : uuid) (t : task) : bool :=
  N.eqb (created_by t) caller || opt_uuid_is (assigned_to t) caller.

Definition is_completed (t : task) : bool := status_eqb (task_status t) completed.

(** ** Database errors and [.single()] *)

Inductive pg_error :=
| PGRST116        (* the result is not exactly one row *)
| PG23503         (* foreign key violation *)
| PG23502         (* not-null violation *)
| PG23505         (* unique violation *)
| PG22P02.        (* a value that the column type cannot hold *)

Definition pg_error_eqb (a b : pg_error) : bool :=
  match a, b with
  | PGRST116, PGRST116 | PG23503, PG23503 | PG23502, PG23502
  | PG23505, PG23505 | PG22P02, PG22P02 => true
  | _, _ => false
  end.

Definition single (A : Type) (rows : list A) : pg_error + A :=
  match rows with
  | [x] => inr x
  | _ => inl PGRST116
  end.

(** ** Triggers of the [tasks] table (migration 003) *)

Module Migrations.

(** [update_updated_at_column()]: [NEW.updated_at = NOW()]. *)
Definition update_updated_at_column (now : timestamp) (NEW : task) : task :=
  mkTask (id NEW) (title NEW) (description NEW) (task_status NEW)
         (task_priority NEW) (due_date NEW) (completed_at NEW)
         (category_id NEW) (created_by NEW) (assigned_to NEW)
         (created_at NEW) now.

Definition with_completed_at (NEW : task) (c : option timestamp) : task :=
  mkTask (id NEW) (title NEW) (description NEW) (task_status NEW)
         (task_priority NEW) (due_date NEW) c
         (category_id NEW) (created_by NEW) (assigned_to NEW)
         (created_at NEW) (updated_at NEW).

(** [set_completed_at()]:
<<
  IF NEW.status = 'completed' AND OLD.status != 'completed' THEN
    NEW.completed_at = NOW();
  ELSIF NEW.status != 'completed' THEN
    NEW.completed_at = NULL;
  END IF;
>> *)
Definition set_completed_at (now : timestamp) (OLD NEW : task) : task :=
  if status_eqb (task_status NEW) completed
     && negb (status_eqb (task_status OLD) completed)
  then with_completed_at NEW (Some now)
  else if negb (status_eqb (task_status NEW) completed)
  then with_completed_at NEW None
  else NEW.

(** Both triggers are [BEFORE UPDATE ... FOR EACH ROW]; they run in the
    order of their names, [set_task_completed_at] first.  No trigger is
    declared for INSERT. *)
Definition before_update (now : timestamp) (OLD NEW : task) : task :=
  update_updated_at_column now (set_completed_at now OLD NEW).

End Migrations.

(** ** Writes to [tasks] *)

(** The columns an UPDATE sets; [None] leaves the column as it is.
    [p_assigned_to = Some None] writes NULL. *)
Record task_patch := mkPatch {
  p_title : option string;
  p_description : option string;
  p_status : option status;
  p_priority : option priority;
  p_due_date : option timestamp;
  p_category_id : option uuid;
  p_assigned_to : option (option uuid)
}.

Definition or_else (A : Type) (o : option A) (d : A) : A :=
  match o with Some v => v | None => d end.

Definition or_keep (A : Type) (o : option A) (old : option A) : option A :=
  match o with Some v => Some v | None => old end.

(** The row [NEW] that an UPDATE proposes for the row [OLD]. *)
Definition set_columns (p : task_patch) (OLD : task) : task :=
  mkTask (id OLD)
         (or_else (p_title p) (title OLD))
         (or_keep (p_description p) (description OLD))
         (or_else (p_status p) (task_status OLD))
         (or_else (p_priority p) (task_priority OLD))
         (or_keep (p_due_date p) (due_date OLD))
         (completed_at OLD)
         (or_keep (p_category_id p) (category_id OLD))
         (created_by OLD)
         (or_else (p_assigned_to p) (assigned_to OLD))
         (created_at OLD) (updated_at OLD).

Definition update_row (now : timestamp) (p : task_patch) (OLD : task) : task :=
  Migrations.before_update now OLD (set_columns p OLD).

(** The foreign keys of the columns an UPDATE writes:
    [category_id REFERENCES categories(id)] and
    [assigned_to REFERENCES auth.users(id)]. *)
Definition fk_patch_ok (d : db) (p : task_patch) : bool :=
  match p_category_id p with
  | Some c => category_exists d c
  | None => true
  end
  &&
  match p_assigned_to p with
  | Some (Some u) => user_exists d u
  | _ => true
  end.

(** [UPDATE tasks SET ... WHERE flt RETURNING *]: the new table and the
    rows written, or the error that aborts the statement.  A foreign key is
    only checked when a row is written. *)
Definition pg_update (now : timestamp) (p : task_patch) (flt : task -> bool)
  (d : db) : pg_error + (db * list task) :=
  if existsb flt (tasks d) && negb (fk_patch_ok d p) then inl PG23503
  else inr (with_tasks d (map (fun t => if flt t then update_row now p t else t)
                              (tasks d)),
            map (update_row now p) (filter flt (tasks d))).

(** [.update(...)...select().single()]: the statement is rolled back unless
    exactly one row was written. *)
Definition update_single (now : timestamp) (p : task_patch) (flt : task -> bool)
  (d : db) : db * (pg_error + task) :=
  match pg_update now p flt d with
  | inl e => (d, inl e)
  | inr (d', [t]) => (d', inr t)
  | inr (_, _) => (d, inl PGRST116)
  end.

(** [DELETE FROM tasks WHERE flt]. *)
Definition pg_delete (flt : task -> bool) (d : db) : db :=
  with_tasks d (filter (fun t => negb (flt t)) (tasks d)).

(** ** Responses *)

(** The JSON envelope: [res.status(code).json({success, data, message})] or
    [res.status(code).json({success: false, error})]. *)
Inductive response (A : Type) :=
| Success (code : Z) (data : A) (message : option string)
| Failure (code : Z) (error : string).

Arguments Failure {A} code error.

Definition succeeded (A : Type) (r : response A) : bool :=
  match r with Success _ _ _ => true | Failure _ _ => false end.

(** A task as it is returned: the row joined with
    [category:categories(name, color)]. *)
Record task_view := mkView {
  row : task;
  joined_category : option (string * string)
}.

Definition join_category (d : db) (t : task) : task_view :=
  mkView t
    match category_id t with
    | None => None
    | Some c =>
        match find (fun k => N.eqb (cat_id k) c) (categories d) with
        | Some k => Some (cat_name k, cat_color k)
        | None => None
        end
    end.

(** ** Validation schemas ([src/validation/schemas.js]) *)

(** A request body before validation.  [b_unknown] lists the keys the
    schema does not declare (such as [completed_at] or [created_by]); Joi
    rejects an object that has any. *)
Record task_body := mkBody {
  b_title : option string;
  b_description : option string;
  b_status : option string;
  b_priority : option string;
  b_due_date : option timestamp;
  b_category_id : option uuid;
  b_assigned_to : option uuid;
  b_unknown : list string
}.

(** The value a body validates to. *)
Record task_fields := mkFields {
  f_title : option string;
  f_description : option string;
  f_status : option status;
  f_priority : option priority;
  f_due_date : option timestamp;
  f_category_id : option uuid;
  f_assigned_to : option uuid
}.

Inductive sort_column :=
| by_created_at | by_updated_at | by_due_date | by_priority | by_title.

Inductive sort_direction := asc | desc.

(** The query string of [GET /tasks] before validation; numbers are already
    read as integers. *)
Record task_query_raw := mkQueryRaw {
  q_status : option string;
  q_priority : option string;
  q_category_id : option uuid;
  q_assigned_to : option uuid;
  q_due_before : option timestamp;
  q_due_after : option timestamp;
  q_page : option Z;
  q_limit : option Z;
  q_sort_by : option string;
  q_sort_order : option string
}.

Record task_query := mkQuery {
  v_status : option status;
  v_priority : option priority;
  v_category_id : option uuid;
  v_assigned_to : option uuid;
  v_due_before : option timestamp;
  v_due_after : option timestamp;
  page : Z;
  limit : Z;
  sort_by : sort_column;
  sort_order : sort_direction
}.

Module taskSchemas.

(** [Joi.string().min(lo).max(hi)]; a Joi string is never empty. *)
Definition string_between (lo hi : nat) (s : string) : bool :=
  Nat.leb 1 (String.length s) && Nat.leb lo (String.length s)
  && Nat.leb (String.length s) hi.

Definition optional (A : Type) (check : A -> bool) (o : option A) : bool :=
  match o with None => true | Some v => check v end.

(** An optional key restricted by [.valid(...)]: [None] when the text is not
    one of the allowed values. *)
Definition optional_valid (A : Type) (parse : string -> option A)
  (o : option string) : option (option A) :=
  match o with
  | None => Some None
  | Some s => match parse s with Some v => Some (Some v) | None => None end
  end.

Definition no_unknown_keys (b : task_body) : bool :=
  match b_unknown b with [] => true | _ => false end.

(** [taskSchemas.create]: [title] required, [status] defaults to ['todo'],
    [priority] to ['medium']. *)
Definition create (b : task_body) : option task_fields :=
  match b_title b, optional_valid parse_status (b_status b),
        optional_valid parse_priority (b_priority b) with
  | Some t, Some st, Some pr =>
      if string_between 1 200 t
         && optional (string_between 0 1000) (b_description b)
         && no_unknown_keys b
      then Some (mkFields (Some t) (b_description b)
                          (Some (or_else st todo)) (Some (or_else pr medium))
                          (b_due_date b) (b_category_id b) (b_assigned_to b))
      else None
  | _, _, _ => None
  end.

(** [taskSchemas.update]: every key optional, no default. *)
Definition update (b : task_body) : option task_fields :=
  match optional_valid parse_status (b_status b),
        optional_valid parse_priority (b_priority b) with
  | Some st, Some pr =>
      if optional (string_between 1 200) (b_title b)
         && optional (string_between 0 1000) (b_description b)
         && no_unknown_keys b
      then Some (mkFields (b_title b) (b_description b) st pr
                          (b_due_date b) (b_category_id b) (b_assigned_to b))
      else None
  | _, _ => None
  end.

Definition parse_sort_by (s : string) : option sort_column :=
  if String.eqb s "created_at" then Some by_created_at
  else if String.eqb s "updated_at" then Some by_updated_at
  else if String.eqb s "due_date" then Some by_due_date
  else if String.eqb s "priority" then Some by_priority
  else if String.eqb s "title" then Some by_title
  else None.

Definition parse_sort_order (s : string) : option sort_direction :=
  if String.eqb s "asc" then Some asc
  else if String.eqb s "desc" then Some desc
  else None.

(** [taskSchemas.query]:
<<
  page: Joi.number().integer().min(1).default(1),
  limit: Joi.number().integer().min(1).max(100).default(10),
  sort_by: ... .default('created_at'),
  sort_order: Joi.string().valid('asc', 'desc').default('desc')
>> *)
Definition query (r : task_query_raw) : option task_query :=
  match optional_valid parse_status (q_status r),
        optional_valid parse_priority (q_priority r),
        optional_valid parse_sort_by (q_sort_by r),
        optional_valid parse_sort_order (q_sort_order r) with
  | Some st, Some pr, Some sb, Some so =>
      let p := or_else (q_page r) 1 in
      let l := or_else (q_limit r) 10 in
      if (1 <=? p) && (1 <=? l) && (l <=? 100)
      then Some (mkQuery st pr (q_category_id r) (q_assigned_to r)
                         (q_due_before r) (q_due_after r)
                         p l (or_else sb by_created_at) (or_else so desc))
      else None
  | _, _, _, _ => None
  end.

End taskSchemas.

(** ** Inserting into [tasks] *)

(** [INSERT INTO tasks ... RETURNING *] for the object
    [{...req.body, created_by}]: [id], [created_at] and [updated_at] take
    their column defaults, [completed_at] is not among the keys a body may
    carry and stays NULL.  No trigger runs on INSERT. *)
Definition insert_row (now : timestamp) (new_id : uuid) (caller : uuid)
  (f : task_fields) (t : string) : task :=
  mkTask new_id t (f_description f)
         (or_else (f_status f) todo) (or_else (f_priority f) medium)
         (f_due_date f) None (f_category_id f) caller (f_assigned_to f)
         now now.

Definition fk_insert_ok (d : db) (caller : uuid) (f : task_fields) : bool :=
  user_exists d caller
  && taskSchemas.optional (category_exists d) (f_category_id f)
  && taskSchemas.optional (user_exists d) (f_assigned_to f).

Definition pg_insert (now : timestamp) (new_id : uuid) (caller : uuid)
  (f : task_fields) (d : db) : pg_error + (db * task) :=
  match f_title f with
  | None => inl PG23502
  | Some t =>
      if existsb (eq_id new_id) (tasks d) then inl PG23505
      else if negb (fk_insert_ok d caller f) then inl PG23503
      else let r := insert_row now new_id caller f t in
           inr (with_tasks d (tasks d ++ [r]), r)
  end.

(** ** The routes of [src/routes/tasks.js] *)

Module Tasks.

(** The category lookup shared by POST and PUT:
    [.from('categories').select('id').eq('id', c).eq('user_id', caller).single()]. *)
Definition own_category (d : db) (caller : uuid) (c : uuid) : bool :=
  match single (filter (fun k => N.eqb (cat_id k) c && N.eqb (cat_user_id k) caller)
                       (categories d)) with
  | inr _ => true
  | inl _ => false
  end.

(** [router.post('/')] *)
Definition post_task (now : timestamp) (new_id : uuid) (caller : uuid)
  (body : task_body) (d : db) : db * response task_view :=
  match taskSchemas.create body with
  | None => (d, Failure 400 "Validation error")
  | Some f =>
      if negb (taskSchemas.optional (own_category d caller) (f_category_id f))
      then (d, Failure 400 "Invalid category ID")
      else match pg_insert now new_id caller f d with
           | inl _ => (d, Failure 500 "Failed to create task")
           | inr (d', t) => (d', Success 201 (join_category d' t) None)
           end
  end.

(** [router.get('/:id')] *)
Definition get_task (caller : uuid) (i : uuid) (d : db) : response task_view :=
  match single (filter (fun t => eq_id i t && or_created_assigned caller t)
                       (tasks d)) with
  | inl _ => Failure 404 "Task not found"
  | inr t => Success 200 (join_category d t) None
  end.

Definition patch_of_fields (f : task_fields) : task_patch :=
  mkPatch (f_title f) (f_description f) (f_status f) (f_priority f)
          (f_due_date f) (f_category_id f) (option_map Some (f_assigned_to f)).

(** [router.put('/:id')]: the UPDATE is filtered by
    [.eq('id', id).or(created_by.eq.caller, assigned_to.eq.caller)]. *)
Definition put_task (now : timestamp) (caller : uuid) (i : uuid)
  (body : task_body) (d : db) : db * response task_view :=
  match taskSchemas.update body with
  | None => (d, Failure 400 "Validation error")
  | Some f =>
      if negb (taskSchemas.optional (own_category d caller) (f_category_id f))
      then (d, Failure 400 "Invalid category ID")
      else match update_single now (patch_of_fields f)
                   (fun t => eq_id i t && or_created_assigned caller t) d with
           | (d', inr t) => (d', Success 200 (join_category d' t) None)
           | (d', inl e) =>
               if pg_error_eqb e PGRST116
               then (d', Failure 404 "Task not found")
               else (d', Failure 500 "Failed to update task")
           end
  end.

(** [router.delete('/:id')]: both the lookup and the DELETE are filtered by
    [.eq('id', id).eq('created_by', caller)]. *)
Definition delete_task (caller : uuid) (i : uuid) (d : db) : db * response unit :=
  match single (filter (fun t => eq_id i t && eq_created_by caller t) (tasks d)) with
  | inl _ => (d, Failure 404 "Task not found or insufficient permissions")
  | inr _ =>
      (pg_delete (fun t => eq_id i t && eq_created_by caller t) d,
       Success 200 tt (Some "Task deleted successfully"%string))
  end.

(** The value of [req.body.assigned_to], which no schema validates. *)
Inductive assignee_value :=
| AssignNull                      (* [null] *)
| AssignUuid (u : uuid)           (* a well-formed UUID *)
| AssignOther (s : string).       (* anything the [uuid] column cannot hold *)

(** [router.patch('/:id/assign')]: [.update({ assigned_to })] filtered by
    [.eq('id', id).eq('created_by', caller)]; every error is answered 404. *)
Definition patch_assign (now : timestamp) (caller : uuid) (i : uuid)
  (a : assignee_value) (d : db) : db * response task_view :=
  let flt := fun t => eq_id i t && eq_created_by caller t in
  let run (v : option uuid) :=
    update_single now (mkPatch None None None None None None (Some v)) flt d in
  match match a with
        | AssignNull => run None
        | AssignUuid u => run (Some u)
        | AssignOther _ => (d, inl PG22P02)
        end with
  | (d', inr t) =>
      (d', Success 200 (join_category d' t) (Some "Task assigned successfully"%string))
  | (d', inl _) => (d', Failure 404 "Task not found or insufficient permissions")
  end.

(** [router.patch('/:id/status')]: the body's [status] (absent is [None]) is
    tested with [['todo', 'in_progress', 'completed'].includes(status)]; the
    UPDATE is [.update({ status })] under the read filter. *)
Definition patch_status (now : timestamp) (caller : uuid) (i : uuid)
  (st : option string) (d : db) : db * response task_view :=
  match match st with Some s => parse_status s | None => None end with
  | None => (d, Failure 400 "Invalid status value")
  | Some s =>
      match update_single now (mkPatch None None (Some s) None None None None)
              (fun t => eq_id i t && or_created_assigned caller t) d with
      | (d', inr t) =>
          (d', Success 200 (join_category d' t)
                       (Some "Task status updated successfully"%string))
      | (d', inl _) =>
          (d', Failure 404 "Task not found or insufficient permissions")
      end
  end.

End Tasks.

(** ** Sorting *)

(** A stable sort: the result of JavaScript's [Array.prototype.sort] for a
    consistent comparator, with [leb x y] standing for [cmp(x, y) <= 0]. *)
Section StableSort.
Variable A : Type.
Variable leb : A -> A -> bool.

Fixpoint sort_insert (x : A) (l : list A) : list A :=
  match l with
  | [] => [x]
  | y :: r => if leb x y then x :: y :: r else y :: sort_insert x r
  end.

Fixpoint stable_sort (l : list A) : list A :=
  match l with
  | [] => []
  | x :: r => sort_insert x (stable_sort r)
  end.
End StableSort.

(** ** [GET /tasks]: filters, order, range *)

(** Comparison of a nullable timestamp column: NULL sorts as larger than
    every value (NULLS LAST ascending, NULLS FIRST descending). *)
Definition time_leb (a b : option timestamp) : bool :=
  match a, b with
  | Some x, Some y => x <=? y
  | _, None => true
  | None, Some _ => false
  end.

(** [x] sorts no later than [y] on column [c], ascending.  [priority] and
    [title] are TEXT columns and compare as text, character by character. *)
Definition column_leb (c : sort_column) (x y : task) : bool :=
  match c with
  | by_created_at => created_at x <=? created_at y
  | by_updated_at => updated_at x <=? updated_at y
  | by_due_date => time_leb (due_date x) (due_date y)
  | by_priority =>
      String.leb (priority_text (task_priority x)) (priority_text (task_priority y))
  | by_title => String.leb (title x) (title y)
  end.

(** [{ ascending: sort_order === 'asc' }] *)
Definition in_order (c : sort_column) (o : sort_direction) (x y : task) : bool :=
  match o with
  | asc => column_leb c x y
  | desc => column_leb c y x
  end.

(** What [ORDER BY c] promises about the rows it returns: the same rows,
    every earlier row in order with every later one.  The relative order of
    rows whose keys are equal is left to the database. *)
Definition ordered_rows (leb : task -> task -> bool) (rows out : list task) : Prop :=
  Permutation rows out /\
  StronglySorted (fun x y => leb x y = true) out.

(** [.order(sort_by, { ascending: sort_order === 'asc' })] *)
Definition order_by (c : sort_column) (o : sort_direction)
  (rows out : list task) : Prop :=
  ordered_rows (in_order c o) rows out.

(** [.range(from, to)]: rows [from] to [to], both included; no row when
    [from] is past the last one. *)
Definition range (A : Type) (from to : Z) (l : list A) : list A :=
  firstn (Z.to_nat (to - from + 1)) (skipn (Z.to_nat from) l).

Record pagination := mkPagination {
  pg_page : Z;
  pg_limit : Z;
  pg_total : Z;
  pg_pages : Z
}.

Module TaskList.

Definition due_le (t : task) (bound : timestamp) : bool :=
  match due_date t with Some dd => dd <=? bound | None => false end.

Definition due_ge (t : task) (bound : timestamp) : bool :=
  match due_date t with Some dd => bound <=? dd | None => false end.

(** The WHERE clause built by [router.get('/')]. *)
Definition matches (caller : uuid) (q : task_query) (t : task) : bool :=
  or_created_assigned caller t
  && taskSchemas.optional (status_eqb (task_status t)) (v_status q)
  && taskSchemas.optional (priority_eqb (task_priority t)) (v_priority q)
  && taskSchemas.optional (opt_uuid_is (category_id t)) (v_category_id q)
  && taskSchemas.optional (opt_uuid_is (assigned_to t)) (v_assigned_to q)
  && taskSchemas.optional (due_le t) (v_due_before q)
  && taskSchemas.optional (due_ge t) (v_due_after q).

(** [Math.ceil(count / limit)] *)
Definition total_pages (count lim : Z) : Z :=
  Qceiling (inject_Z count / inject_Z lim).

(** What the database answers to [.range(from, to)] when the query asks for
    [{ count: 'exact' }].  An offset within the counted rows, and offset 0
    always, is served; an offset past them is refused (416, "Requested range
    not satisfiable").  For an offset equal to the count, other than 0, the
    repository does not fix which of the two it is, and both are admitted. *)
Definition range_served (from count : Z) : Prop := from <= count.

Definition range_refused (from count : Z) : Prop := 0 < from /\ count <= from.

(** The response built from the ordered rows when the query succeeds:
    [count] is the exact count of the rows that match, taken before the
    range is applied. *)
Definition respond (d : db) (q : task_query) (matching sorted : list task)
  : response (list task_view * pagination) :=
  let from := (page q - 1) * limit q in
  let to := from + limit q - 1 in
  let count := Z.of_nat (List.length matching) in
  Success 200
    (map (join_category d) (range from to sorted),
     mkPagination (page q) (limit q) count (total_pages count (limit q)))
    None.

(** [router.get('/')]: the responses the route can give.  A query that the
    database refuses is answered by the [if (error)] branch. *)
Definition get_tasks (caller : uuid) (raw : task_query_raw) (d : db)
  (r : response (list task_view * pagination)) : Prop :=
  match taskSchemas.query raw with
  | None => r = Failure 400 "Query validation error"
  | Some q =>
      let matching := filter (matches caller q) (tasks d) in
      let from := (page q - 1) * limit q in
      let count := Z.of_nat (List.length matching) in
      (range_served from count /\
       exists sorted,
         order_by (sort_by q) (sort_order q) matching sorted /\
         r = respond d q matching sorted)
      \/
      (range_refused from count /\ r = Failure 500 "Failed to fetch tasks")
  end.

(** Two ways a database may carry out [ORDER BY]: keeping rows with equal
    keys in table order, or in the opposite order. *)
Definition order_keeping_ties (c : sort_column) (o : sort_direction)
  (rows : list task) : list task :=
  stable_sort (in_order c o) rows.

Definition order_reversing_ties (c : sort_column) (o : sort_direction)
  (rows : list task) : list task :=
  stable_sort (in_order c o) (rev rows).

End TaskList.

(** ** JavaScript numbers *)

(** A double is written as the rational number it stands for.  [round x]
    is the double nearest to [x], the one with the even significand when two
    are equally near: with [2^e <= |x| < 2^(e+1)], the multiple of
    [2^(e-52)] nearest to [x].  Every arithmetic operation of JavaScript
    returns the rounding of its exact result. *)
Module Binary64.

Open Scope Q_scope.

Definition pow2 (k : Z) : Q := 2 ^ k.

(** The [e] with [2^e <= |x| < 2^(e+1)], for [x] other than 0. *)
Definition exponent (x : Q) : Z :=
  let e := (Z.log2 (Z.abs (Qnum x)) - Z.log2 (Zpos (Qden x)))%Z in
  if Qle_bool (pow2 e) (Qabs x) then e else (e - 1)%Z.

(** The integer nearest to [q], the even one of two equally near. *)
Definition nearest_even (q : Q) : Z :=
  let f := Qfloor q in
  match Qcompare (q - inject_Z f) (1 # 2) with
  | Lt => f
  | Gt => (f + 1)%Z
  | Eq => if Z.even f then f else (f + 1)%Z
  end.

Definition round (x : Q) : Q :=
  let e := exponent x in
  Qred (inject_Z (nearest_even (x * pow2 (52 - e))) * pow2 (e - 52)).

(** [a + b], [a - b], [a * b] and [a / b] of two doubles. *)
Definition add (a b : Q) : Q := round (a + b).
Definition sub (a b : Q) : Q := round (a - b).
Definition mul (a b : Q) : Q := round (a * b).
Definition div (a b : Q) : Q := round (a / b).

(** The largest relative error of one rounding, [2^-53]. *)
Definition unit_roundoff : Q := pow2 (-53).

End Binary64.

(** ** The routes of [src/routes/analytics.js] *)

Module Analytics.

Open Scope Q_scope.

(** [rows.length] of a filtered SELECT. *)
Definition count (f : task -> bool) (l : list task) : Z :=
  Z.of_nat (List.length (filter f l)).

Definition has_status (s : status) (t : task) : bool :=
  status_eqb (task_status t) s.

(** [.lt('due_date', now)]: a NULL [due_date] never matches. *)
Definition due_lt (now : timestamp) (t : task) : bool :=
  match due_date t with Some dd => (dd <? now)%Z | None => false end.

(** [Math.round]: the nearest integer, halves upwards. *)
Definition round (x : Q) : Z := Qfloor (x + (1 # 2)).

(** [Math.round(x * 100) / 100] *)
Definition round2 (x : Q) : Q :=
  Binary64.div (inject_Z (round (Binary64.mul x 100))) 100.

(** [(part / whole) * 100] *)
Definition percentage (part whole : Z) : Q :=
  Binary64.mul (Binary64.div (inject_Z part) (inject_Z whole)) 100.

Record overview_data := mkOverview {
  total_tasks : Z;
  completed_tasks : Z;
  in_progress_tasks : Z;
  todo_tasks : Z;
  overdue_tasks : Z;
  completion_rate : Q;
  status_distribution : Z * Z * Z     (* todo, in_progress, completed *)
}.

(** [router.get('/overview')] *)
Definition overview (now : timestamp) (caller : uuid) (d : db)
  : response overview_data :=
  let totalCount := count (or_created_assigned caller) (tasks d) in
  let completedCount :=
    count (fun t => has_status completed t && or_created_assigned caller t) (tasks d) in
  let inProgressCount :=
    count (fun t => has_status in_progress t && or_created_assigned caller t) (tasks d) in
  let todoCount :=
    count (fun t => has_status todo t && or_created_assigned caller t) (tasks d) in
  let overdueCount :=
    count (fun t => due_lt now t && negb (has_status completed t)
                    && or_created_assigned caller t) (tasks d) in
  let completionRate :=
    if (0 <? totalCount)%Z then percentage completedCount totalCount else 0 in
  Success 200
    (mkOverview totalCount completedCount inProgressCount todoCount overdueCount
                (round2 completionRate)
                (todoCount, inProgressCount, completedCount))
    None.

(** *** Dates *)

Definition day_ms : Z := 86400000.

(** [date.setDate(date.getDate() - n)] *)
Definition days_before (n : Z) (t : timestamp) : timestamp := (t - n * day_ms)%Z.

(** The time values a [Date] holds: 8.64e15 ms at most, either side of the
    epoch.  A date set outside of them is invalid, and [toISOString] throws
    a [RangeError] on it. *)
Definition max_time : Z := 8640000000000000.

Definition valid_date (t : timestamp) : bool :=
  (- max_time <=? t)%Z && (t <=? max_time)%Z.

(** The instants of the years 0001 to 9999, which [toISOString] writes with
    a year of four digits, as every timestamp of the application is
    written.  Outside of them it writes a sign and six digits; whether the
    database reads such a bound is not fixed by the repository. *)
Definition four_digit_year (t : timestamp) : bool :=
  (-62135596800000 <=? t)%Z && (t <=? 253402300799999)%Z.

(** The calendar date of an instant in UTC:
    [date.toISOString().split('T')[0]] and [completed_at.split('T')[0]].
    A date [YYYY-MM-DD] is written as the number of days from 1970-01-01 to
    it; [new Date(a.date) - new Date(b.date)] is then [day_ms] times the
    difference of the two numbers. *)
Definition date_key (t : timestamp) : Z := (t / day_ms)%Z.

(** *** A JavaScript object as the list of its entries in insertion order *)

Fixpoint obj_set (k : Z) (v : Z) (o : list (Z * Z)) : list (Z * Z) :=
  match o with
  | [] => [(k, v)]
  | (k', v') :: r =>
      if (k' =? k)%Z then (k, v) :: r else (k', v') :: obj_set k v r
  end.

Fixpoint obj_get (k : Z) (o : list (Z * Z)) : option Z :=
  match o with
  | [] => None
  | (k', v') :: r => if (k' =? k)%Z then Some v' else obj_get k r
  end.

Definition hasOwnProperty (o : list (Z * Z)) (k : Z) : bool :=
  match obj_get k o with Some _ => true | None => false end.

(** [obj[k]++] *)
Definition obj_incr (k : Z) (o : list (Z * Z)) : list (Z * Z) :=
  match obj_get k o with
  | Some v => obj_set k (v + 1)%Z o
  | None => o
  end.

(** The query parameter [period]: absent, or a text from which [parseInt]
    reads an integer or [NaN] ([None]). *)
Inductive period_param :=
| PeriodAbsent
| PeriodGiven (parsed : option Z).

Definition parse_period (default : Z) (p : period_param) : option Z :=
  match p with
  | PeriodAbsent => Some default
  | PeriodGiven r => r
  end.

(** *** [GET /analytics/completion-rates] *)

(** The WHERE clause: [.eq('status', 'completed')
    .gte('completed_at', startDate).or(created_by, assigned_to)]. *)
Definition completed_since (caller : uuid) (start : timestamp) (t : task) : bool :=
  has_status completed t
  && match completed_at t with Some c => (start <=? c)%Z | None => false end
  && or_created_assigned caller t.

(** [for (let i = 0; i < daysAgo; i++) dailyCompletions[dateKey] = 0] *)
Definition init_buckets (today : timestamp) (daysAgo : Z) : list (Z * Z) :=
  fold_left (fun o i => obj_set (date_key (days_before (Z.of_nat i) today)) 0%Z o)
            (seq 0 (Z.to_nat daysAgo)) [].

(** The body of [completedTasks.forEach]. *)
Definition tally (o : list (Z * Z)) (t : task) : list (Z * Z) :=
  match completed_at t with
  | Some c =>
      if hasOwnProperty o (date_key c) then obj_incr (date_key c) o else o
  | None => o
  end.

Definition dailyCompletions (today : timestamp) (daysAgo : Z)
  (completedTasks : list task) : list (Z * Z) :=
  fold_left tally completedTasks (init_buckets today daysAgo).

(** [Object.entries(dailyCompletions).map(...).sort((a, b) =>
    new Date(a.date) - new Date(b.date))]: pairs [(date, completed_tasks)]. *)
Definition chartData (o : list (Z * Z)) : list (Z * Z) :=
  stable_sort (fun a b => ((fst a - fst b) * day_ms <=? 0)%Z) o.

Record completion_data := mkCompletion {
  period_days : Z;
  total_completed : Z;
  daily_completions : list (Z * Z)
}.

Definition completion_of (today : timestamp) (daysAgo : Z)
  (completedTasks : list task) : completion_data :=
  mkCompletion daysAgo (Z.of_nat (List.length completedTasks))
               (chartData (dailyCompletions today daysAgo completedTasks)).

(** The dates of the loop that creates the buckets, [today] back to
    [daysAgo - 1] days before it, are all valid. *)
Definition buckets_in_range (today : timestamp) (daysAgo : Z) : bool :=
  (daysAgo <=? 0)%Z
  || (valid_date today && valid_date (days_before (daysAgo - 1) today)).

(** [router.get('/completion-rates')].  The clock is read twice: [now] for
    [startDate], before the query, and [today] for the buckets, after it.
    With [daysAgo] not a number, or so large that a date leaves the range of
    [Date], [toISOString] throws and the handler answers 500; it answers 500
    as well when the database rejects the bound of the query. *)
Definition completion_rates (now today : timestamp) (caller : uuid)
  (period : period_param) (d : db) (r : response completion_data) : Prop :=
  let failure := Failure 500 "Failed to fetch completion rates" in
  match parse_period 30 period with
  | None => r = failure
  | Some daysAgo =>
      let startDate := days_before daysAgo now in
      if valid_date now && valid_date startDate
      then
        (exists completedTasks,
           ordered_rows (fun x y => time_leb (completed_at x) (completed_at y))
                        (filter (completed_since caller startDate) (tasks d))
                        completedTasks /\
           r = if buckets_in_range today daysAgo
               then Success 200 (completion_of today daysAgo completedTasks) None
               else failure)
        \/ (four_digit_year startDate = false /\ r = failure)
      else r = failure
  end.

(** *** [GET /analytics/productivity] *)

(** [(completed - created) / (1000 * 60 * 60)] *)
Definition hours (created completed : timestamp) : Q :=
  Binary64.div (Binary64.sub (inject_Z completed) (inject_Z created))
               (inject_Z (1000 * 60 * 60)).

(** [.filter(task => task.completed_at && task.created_at)
    .reduce((acc, task) => acc + hours, 0)]; [created_at] is never NULL in a
    row the query returns, since [.gte('created_at', ...)] rejects NULL. *)
Definition total_hours (l : list task) : Q :=
  fold_left (fun acc t =>
               match completed_at t with
               | Some c => Binary64.add acc (hours (created_at t) c)
               | None => acc
               end) l 0.

Record productivity_data := mkProductivity {
  prod_period_days : Z;
  tasks_created : Z;
  tasks_completed : Z;
  prod_completion_rate : Q;
  average_completion_time_hours : Q;
  priority_performance : (Z * Z) * (Z * Z) * (Z * Z)   (* high, medium, low *)
}.

Definition priority_stat (p : priority) (l : list task) : Z * Z :=
  (count (fun t => priority_eqb (task_priority t) p) l,
   count (fun t => priority_eqb (task_priority t) p && has_status completed t) l).

Definition productivity_of (daysAgo : Z) (rows : list task) : productivity_data :=
  let createdTasks := Z.of_nat (List.length rows) in
  let completedTasks := count (has_status completed) rows in
  let averageCompletionTime :=
    Binary64.div (total_hours rows) (inject_Z (Z.max completedTasks 1)) in
  mkProductivity daysAgo createdTasks completedTasks
    (if (0 <? createdTasks)%Z then percentage completedTasks createdTasks else 0)
    (round2 averageCompletionTime)
    (priority_stat high rows, priority_stat medium rows, priority_stat low rows).

(** The WHERE clause: [.gte('created_at', startDate).or(...)]. *)
Definition created_since (caller : uuid) (start : timestamp) (t : task) : bool :=
  (start <=? created_at t)%Z && or_created_assigned caller t.

(** [router.get('/productivity')]: the query has no ORDER BY, the rows come
    in an order of the database's choosing.  An invalid [startDate], or a
    bound the database rejects, is answered 500. *)
Definition productivity (now : timestamp) (caller : uuid)
  (period : period_param) (d : db) (r : response productivity_data) : Prop :=
  let failure := Failure 500 "Failed to fetch productivity analytics" in
  match parse_period 7 period with
  | None => r = failure
  | Some daysAgo =>
      let startDate := days_before daysAgo now in
      if valid_date now && valid_date startDate
      then
        (exists rows,
           Permutation (filter (created_since caller startDate) (tasks d)) rows /\
           r = Success 200 (productivity_of daysAgo rows) None)
        \/ (four_digit_year startDate = false /\ r = failure)
      else r = failure
  end.

End Analytics.

(** * Properties *)

(** ** Facts about the store *)

Lemma filter_nil_existsb (A : Type) (f : A -> bool) (l : list A) :
  filter f l = [] <-> existsb f l = false.
Proof.
  induction l as [|x l IH]; simpl.
  - split; reflexivity.
  - destruct (f x); simpl.
    + split; discriminate.
    + exact IH.
Qed.

Lemma filter_nil_forall (A : Type) (f : A -> bool) (l : list A) :
  (forall x, In x l -> f x = false) -> filter f l = [].
Proof.
  induction l as [|x l IH]; intros H; simpl.
  - reflexivity.
  - rewrite (H x (or_introl eq_refl)). apply IH.
    intros y Hy. apply H. now right.
Qed.

Lemma filter_singleton_In (A : Type) (f : A -> bool) (l : list A) (x : A) :
  filter f l = [x] -> In x l /\ f x = true.
Proof.
  intros H. apply filter_In. rewrite H. now left.
Qed.

Lemma single_inr (A : Type) (l : list A) (x : A) :
  single l = inr x -> l = [x].
Proof.
  destruct l as [|y [|z l]]; simpl; intros H; try discriminate.
  now inversion H.
Qed.

Lemma map_singleton (A B : Type) (f : A -> B) (l : list A) (y : B) :
  map f l = [y] -> exists x, l = [x] /\ y = f x.
Proof.
  destruct l as [|x [|z l]]; simpl; intros H; try discriminate.
  inversion H. now exists x.
Qed.

Definition updated_tasks (now : timestamp) (p : task_patch) (flt : task -> bool)
  (d : db) : db :=
  with_tasks d (map (fun t => if flt t then update_row now p t else t) (tasks d)).

Lemma update_single_none now p flt d :
  filter flt (tasks d) = [] -> update_single now p flt d = (d, inl PGRST116).
Proof.
  intros H. unfold update_single, pg_update.
  rewrite (proj1 (filter_nil_existsb _ _) H), H. reflexivity.
Qed.

Lemma update_single_one now p flt d t :
  filter flt (tasks d) = [t] ->
  update_single now p flt d =
    if fk_patch_ok d p
    then (updated_tasks now p flt d, inr (update_row now p t))
    else (d, inl PG23503).
Proof.
  intros H. unfold update_single, pg_update.
  assert (E : existsb flt (tasks d) = true).
  { destruct (existsb flt (tasks d)) eqn:E; [reflexivity|].
    apply filter_nil_existsb in E. congruence. }
  rewrite E, H. destruct (fk_patch_ok d p); reflexivity.
Qed.

Lemma update_single_ok_inv now p flt d d' t' :
  update_single now p flt d = (d', inr t') ->
  exists t, filter flt (tasks d) = [t] /\ t' = update_row now p t /\
            d' = updated_tasks now p flt d /\ fk_patch_ok d p = true.
Proof.
  unfold update_single, pg_update. intros H.
  destruct (existsb flt (tasks d) && negb (fk_patch_ok d p)) eqn:E.
  - discriminate.
  - destruct (map (update_row now p) (filter flt (tasks d))) as [|x [|y l]] eqn:M;
      try discriminate.
    inversion H; subst. apply map_singleton in M. destruct M as [t [F ->]].
    exists t. repeat split; try assumption.
    apply andb_false_iff in E. destruct E as [E|E].
    + apply filter_nil_existsb in E. congruence.
    + now apply negb_false_iff in E.
Qed.

(** ** The [completed_at] trigger *)

Definition completed_at_invariant (t : task) : Prop :=
  completed_at t <> None <-> task_status t = completed.

(** What one UPDATE does to [completed_at]: set to the time of the update on
    a transition into [completed], cleared when the new status is not
    [completed], otherwise left alone. *)
Lemma update_row_completed_at now p OLD :
  let NEW := update_row now p OLD in
  (task_status NEW = completed -> task_status OLD <> completed ->
     completed_at NEW = Some now) /\
  (task_status NEW <> completed -> completed_at NEW = None) /\
  (task_status NEW = completed -> task_status OLD = completed ->
     completed_at NEW = completed_at OLD) /\
  task_status NEW = or_else (p_status p) (task_status OLD).
Proof.
  unfold update_row, Migrations.before_update, Migrations.set_completed_at.
  destruct p as [pt pd [s|] pp pdd pc pa]; destruct OLD as [i ti de st pr du co ca cb asg cr up];
    cbn; try destruct s; destruct st; cbn; repeat split; intros; congruence.
Qed.

Lemma update_row_keeps_invariant now p OLD :
  completed_at_invariant OLD -> completed_at_invariant (update_row now p OLD).
Proof.
  unfold completed_at_invariant. intros [H1 H2].
  destruct (update_row_completed_at now p OLD) as (A & B & C & _).
  split.
  - intros Hc. destruct (task_status (update_row now p OLD)) eqn:E;
      try reflexivity; exfalso; apply Hc, B; congruence.
  - intros Hs. destruct (status_eqb (task_status OLD) completed) eqn:E.
    + apply status_eqb_eq in E. rewrite (C Hs E). now apply H2.
    + rewrite A; [discriminate|assumption|].
      intros E'. apply status_eqb_eq in E'. congruence.
Qed.

(** ** Sample data *)

Module Sample.

Definition alice : uuid := 1%N.
Definition bob : uuid := 2%N.
Definition carol : uuid := 3%N.
Definition nobody : uuid := 99%N.

Definition work : category := mkCategory 50%N "Work" "#FF5733" alice.

(** A task created by alice and assigned to bob. *)
Definition report : task :=
  mkTask 10%N "Report" None todo medium None None (Some 50%N) alice (Some bob) 1000 1000.

(** A task created by alice, not assigned. *)
Definition notes : task :=
  mkTask 11%N "Notes" None todo medium None None None alice None 1000 1000.

Definition store : db := mkDb [alice; bob; carol] [work] [report; notes].

Definition retitle (s : string) : task_body :=
  mkBody (Some s) None None None None None None [].

Definition new_completed : task_body :=
  mkBody (Some "T"%string) None (Some "completed"%string) None None None None [].

End Sample.

(** ** Status transitions and [completed_at] *)

(** C1 (failing input).  A task created through [POST /tasks] with
    [status: 'completed'] is stored, and returned with 201, with status
    [completed] and a NULL [completed_at]: the trigger that maintains
    [completed_at] runs before UPDATE only, and the body cannot carry the
    column.  The biconditional [completed_at set <-> status = completed]
    fails for that row. *)
Theorem post_task_completed_without_completed_at
  now new_id caller body d d' v msg :
  b_status body = Some "completed"%string ->
  Tasks.post_task now new_id caller body d = (d', Success 201 v msg) ->
  In (row v) (tasks d') /\
  task_status (row v) = completed /\
  completed_at (row v) = None /\
  ~ completed_at_invariant (row v).
Proof.
  intros Hs H. unfold Tasks.post_task in H.
  destruct (taskSchemas.create body) as [f|] eqn:V; [|discriminate].
  destruct (negb _); [discriminate|].
  unfold pg_insert in H.
  destruct (f_title f) as [t|] eqn:T; [|discriminate].
  destruct (existsb _ _); [discriminate|].
  destruct (negb _); [discriminate|].
  inversion H; subst; clear H. cbn [row join_category].
  assert (F : f_status f = Some completed).
  { unfold taskSchemas.create in V. rewrite Hs in V. cbn in V.
    destruct (b_title body); [|discriminate].
    destruct (taskSchemas.optional_valid parse_priority (b_priority body));
      [|discriminate].
    destruct (_ && _); [|discriminate]. now inversion V. }
  assert (S1 : task_status (insert_row now new_id caller f t) = completed).
  { unfold insert_row. cbn. now rewrite F. }
  split; [|split; [|split]].
  - cbn. apply in_or_app. right. now left.
  - exact S1.
  - reflexivity.
  - intros [_ I]. now apply (I S1).
Qed.

Lemma post_task_completed_without_completed_at_witness :
  exists d' v,
    Tasks.post_task 1000 12%N Sample.alice Sample.new_completed Sample.store
      = (d', Success 201 v None) /\
    In (row v) (tasks d') /\
    task_status (row v) = completed /\
    completed_at (row v) = None /\
    ~ completed_at_invariant (row v).
Proof.
  eexists. eexists. split; [reflexivity|].
  apply (@post_task_completed_without_completed_at
           1000 12%N Sample.alice Sample.new_completed Sample.store _ _ None);
    reflexivity.
Defined.

(** Every UPDATE that goes through [PUT /tasks/:id] or
    [PATCH /tasks/:id/status] keeps the biconditional of a row that had it. *)
Lemma update_single_keeps_invariant now p flt d d' t' :
  Forall completed_at_invariant (tasks d) ->
  update_single now p flt d = (d', inr t') ->
  Forall completed_at_invariant (tasks d') /\ completed_at_invariant t'.
Proof.
  intros Hinv H. apply update_single_ok_inv in H.
  destruct H as (t & F & -> & -> & _). split.
  - unfold updated_tasks. cbn. rewrite Forall_forall in *.
    intros x Hx. apply in_map_iff in Hx. destruct Hx as (y & <- & Hy).
    destruct (flt y); [apply update_row_keeps_invariant|]; now apply Hinv.
  - apply update_row_keeps_invariant. rewrite Forall_forall in Hinv.
    apply Hinv. now apply (filter_singleton_In flt (tasks d)).
Qed.

(** ** Access control *)

Definition msg_not_found : string := "Task not found".
Definition msg_no_permission : string := "Task not found or insufficient permissions".

(** The claim as the specification states it: PUT, DELETE and assign succeed
    only for the creator. *)
Definition writes_are_creator_only : Prop :=
  forall now caller i d,
    (forall body, succeeded (snd (Tasks.put_task now caller i body d)) = true ->
       exists t, In t (tasks d) /\ id t = i /\ created_by t = caller) /\
    (succeeded (snd (Tasks.delete_task caller i d)) = true ->
       exists t, In t (tasks d) /\ id t = i /\ created_by t = caller) /\
    (forall a, succeeded (snd (Tasks.patch_assign now caller i a d)) = true ->
       exists t, In t (tasks d) /\ id t = i /\ created_by t = caller).

(** C2 (counterexample).  bob is the assignee, not the creator, of alice's
    task 10; his [PUT /tasks/10] with a new title answers 200 and the stored
    title changes. *)
Lemma assignee_put_succeeds :
  ~ writes_are_creator_only.
Proof.
  intros H.
  destruct (H 2000 Sample.bob 10%N Sample.store) as (P & _ & _).
  destruct (P (Sample.retitle "Edited") eq_refl) as (t & I & E & C).
  cbn in I. destruct I as [<-|[<-|[]]]; cbn in E, C; discriminate.
Qed.

Lemma eq_id_true i t : eq_id i t = true <-> id t = i.
Proof. unfold eq_id. apply N.eqb_eq. Qed.

Lemma eq_created_by_true c t : eq_created_by c t = true <-> created_by t = c.
Proof. unfold eq_created_by. apply N.eqb_eq. Qed.

Lemma or_created_assigned_true c t :
  or_created_assigned c t = true <-> created_by t = c \/ assigned_to t = Some c.
Proof.
  unfold or_created_assigned, opt_uuid_is. rewrite orb_true_iff, N.eqb_eq.
  destruct (assigned_to t) as [a|].
  - rewrite N.eqb_eq. split; intros [H|H]; auto; right; congruence.
  - split; intros [H|H]; auto; discriminate.
Qed.

(** The caller is neither the creator nor the assignee of any row with
    id [i]. *)
Definition stranger (caller i : uuid) (d : db) : Prop :=
  forall t, In t (tasks d) -> id t = i ->
            created_by t <> caller /\ assigned_to t <> Some caller.

(** The database in which no row has id [i]. *)
Definition without_task (i : uuid) (d : db) : db := pg_delete (eq_id i) d.

Lemma stranger_sees_nothing caller i d :
  stranger caller i d ->
  filter (fun t => eq_id i t && or_created_assigned caller t) (tasks d) = [] /\
  filter (fun t => eq_id i t && eq_created_by caller t) (tasks d) = [].
Proof.
  intros H. split; apply filter_nil_forall; intros t I;
    apply andb_false_iff;
    destruct (eq_id i t) eqn:E; auto; right;
    apply eq_id_true in E; destruct (H t I E) as [H1 H2].
  - destruct (or_created_assigned caller t) eqn:O; [|reflexivity].
    apply or_created_assigned_true in O. tauto.
  - destruct (eq_created_by caller t) eqn:O; [|reflexivity].
    apply eq_created_by_true in O. tauto.
Qed.

Lemma without_task_stranger caller i d : stranger caller i (without_task i d).
Proof.
  intros t I E. cbn in I. apply filter_In in I. destruct I as [_ I].
  apply eq_id_true in E. now rewrite E in I.
Qed.

(** The four answers when the filters of the routes select no row. *)
Lemma not_found_answers caller i d :
  stranger caller i d ->
  Tasks.get_task caller i d = Failure 404 msg_not_found /\
  (forall now body f,
     taskSchemas.update body = Some f ->
     taskSchemas.optional (Tasks.own_category d caller) (f_category_id f) = true ->
     Tasks.put_task now caller i body d = (d, Failure 404 msg_not_found)) /\
  Tasks.delete_task caller i d = (d, Failure 404 msg_no_permission) /\
  (forall now s st,
     parse_status s = Some st ->
     Tasks.patch_status now caller i (Some s) d
       = (d, Failure 404 msg_no_permission)).
Proof.
  intros H. destruct (stranger_sees_nothing H) as [V O]. repeat split.
  - unfold Tasks.get_task. now rewrite V.
  - intros now body f B C. unfold Tasks.put_task. rewrite B, C. cbn [negb].
    now rewrite (update_single_none _ _ _ _ V).
  - unfold Tasks.delete_task. now rewrite O.
  - intros now s st P. unfold Tasks.patch_status. rewrite P.
    now rewrite (update_single_none _ _ _ _ V).
Qed.

(** C3.  A caller who is neither creator nor assignee of the task with id
    [i] gets, from get, update, delete and status change, a 404 not-found
    answer, the store is left as it was, and the answer is the one given
    when no task has id [i] at all.  (Update and status change are taken on
    a request that passes validation; a malformed one is answered 400 before
    the store is consulted, whoever the caller is.) *)
Theorem stranger_gets_not_found caller i d :
  stranger caller i d ->
  (Tasks.get_task caller i d = Failure 404 msg_not_found /\
   Tasks.get_task caller i (without_task i d) = Tasks.get_task caller i d) /\
  (forall now body f,
     taskSchemas.update body = Some f ->
     taskSchemas.optional (Tasks.own_category d caller) (f_category_id f) = true ->
     Tasks.put_task now caller i body d = (d, Failure 404 msg_not_found) /\
     snd (Tasks.put_task now caller i body (without_task i d))
       = snd (Tasks.put_task now caller i body d)) /\
  (Tasks.delete_task caller i d = (d, Failure 404 msg_no_permission) /\
   snd (Tasks.delete_task caller i (without_task i d))
     = snd (Tasks.delete_task caller i d)) /\
  (forall now s st,
     parse_status s = Some st ->
     Tasks.patch_status now caller i (Some s) d
       = (d, Failure 404 msg_no_permission) /\
     snd (Tasks.patch_status now caller i (Some s) (without_task i d))
       = snd (Tasks.patch_status now caller i (Some s) d)).
Proof.
  intros H.
  destruct (not_found_answers H) as (G & P & D & S).
  destruct (not_found_answers (@without_task_stranger caller i d))
    as (G' & P' & D' & S').
  repeat split.
  - exact G.
  - now rewrite G, G'.
  - now apply P with f.
  - rewrite (P now body f), (P' now body f); auto.
  - exact D.
  - now rewrite D, D'.
  - now apply S with st.
  - now rewrite (S now s st), (S' now s st).
Qed.

Lemma stranger_gets_not_found_witness :
  Tasks.get_task Sample.carol 10%N Sample.store = Failure 404 msg_not_found /\
  Tasks.put_task 2000 Sample.carol 10%N (Sample.retitle "Mine") Sample.store
    = (Sample.store, Failure 404 msg_not_found) /\
  Tasks.delete_task Sample.carol 10%N Sample.store
    = (Sample.store, Failure 404 msg_no_permission) /\
  Tasks.patch_status 2000 Sample.carol 10%N (Some "completed"%string) Sample.store
    = (Sample.store, Failure 404 msg_no_permission).
Proof.
  assert (H : stranger Sample.carol 10%N Sample.store).
  { intros t I E. cbn in I. destruct I as [<-|[<-|[]]]; cbn in *;
      split; discriminate. }
  destruct (stranger_gets_not_found H) as ((G & _) & P & (D & _) & S).
  split; [|split; [|split]].
  - exact G.
  - exact (proj1 (P 2000 (Sample.retitle "Mine") _ eq_refl eq_refl)).
  - exact D.
  - exact (proj1 (S 2000 "completed"%string completed eq_refl)).
Defined.

(** ** Assignment *)

(** The claim as the specification states it: whatever the value of
    [assigned_to], an assign call by the creator succeeds. *)
Definition assign_accepts_any_user : Prop :=
  forall now caller i d t a,
    filter (fun x => eq_id i x && eq_created_by caller x) (tasks d) = [t] ->
    succeeded (snd (Tasks.patch_assign now caller i a d)) = true.

(** C9 (counterexample).  alice created task 10; assigning it to an id that
    is not in [auth.users] violates the foreign key of [tasks.assigned_to],
    and the route answers 404. *)
Lemma assign_unknown_user_fails :
  ~ assign_accepts_any_user.
Proof.
  intros H.
  specialize (H 2000 Sample.alice 10%N Sample.store Sample.report
                (Tasks.AssignUuid Sample.nobody) eq_refl).
  cbn in H. discriminate.
Qed.

Definition assign_patch (v : option uuid) : task_patch :=
  mkPatch None None None None None None (Some v).

Lemma update_row_assigned_to now p OLD :
  assigned_to (update_row now p OLD) = or_else (p_assigned_to p) (assigned_to OLD).
Proof.
  unfold update_row, Migrations.before_update, Migrations.set_completed_at.
  destruct (_ && _); [reflexivity|]. destruct (negb _); reflexivity.
Qed.

(** C9 (amended).  The route checks nothing about [assigned_to] itself; the
    only check is the foreign key to [auth.users].  Called by the creator of
    the one task with id [i]: a known user id, or [null], is written and
    answered 200, with no regard to any relation between that user and the
    caller; an id that is not a user's, or a value that is not a UUID, is
    answered 404 and nothing is written. *)
Theorem assign_checks_only_the_foreign_key now caller i d t :
  filter (fun x => eq_id i x && eq_created_by caller x) (tasks d) = [t] ->
  (forall u,
     Tasks.patch_assign now caller i (Tasks.AssignUuid u) d =
       if user_exists d u
       then let d' := updated_tasks now (assign_patch (Some u))
                        (fun x => eq_id i x && eq_created_by caller x) d in
            let t' := update_row now (assign_patch (Some u)) t in
            (d', Success 200 (join_category d' t')
                         (Some "Task assigned successfully"%string))
       else (d, Failure 404 msg_no_permission)) /\
  (forall u, assigned_to (update_row now (assign_patch (Some u)) t) = Some u) /\
  (exists d' v,
     Tasks.patch_assign now caller i Tasks.AssignNull d
       = (d', Success 200 v (Some "Task assigned successfully"%string))
     /\ assigned_to (row v) = None) /\
  (forall s,
     Tasks.patch_assign now caller i (Tasks.AssignOther s) d
       = (d, Failure 404 msg_no_permission)).
Proof.
  intros F. split; [|split; [|split]].
  - intros u. unfold Tasks.patch_assign. cbv beta zeta.
    rewrite (update_single_one now _ _ _ F).
    unfold fk_patch_ok. cbn [p_category_id p_assigned_to andb assign_patch].
    destruct (user_exists d u); reflexivity.
  - intros u. now rewrite update_row_assigned_to.
  - eexists. eexists. unfold Tasks.patch_assign. cbv beta zeta.
    rewrite (update_single_one now _ _ _ F).
    split; [reflexivity|]. cbn [row join_category].
    now rewrite update_row_assigned_to.
  - intros s. reflexivity.
Qed.

Lemma assign_checks_only_the_foreign_key_witness :
  succeeded (snd (Tasks.patch_assign 2000 Sample.alice 10%N
                    (Tasks.AssignUuid Sample.carol) Sample.store)) = true /\
  Tasks.patch_assign 2000 Sample.alice 10%N
    (Tasks.AssignUuid Sample.nobody) Sample.store
    = (Sample.store, Failure 404 msg_no_permission).
Proof.
  pose proof (@assign_checks_only_the_foreign_key
                2000 Sample.alice 10%N Sample.store Sample.report eq_refl)
    as (U & _).
  split.
  - rewrite (U Sample.carol). reflexivity.
  - rewrite (U Sample.nobody). reflexivity.
Defined.

(** ** Facts about sorting *)

Section StableSortFacts.
Variable A : Type.
Variable leb : A -> A -> bool.

Let R (x y : A) : Prop := leb x y = true.

Lemma sort_insert_perm x l : Permutation (x :: l) (sort_insert leb x l).
Proof.
  induction l as [|y r IH]; simpl.
  - apply Permutation_refl.
  - destruct (leb x y).
    + apply Permutation_refl.
    + eapply perm_trans; [apply perm_swap|]. now apply perm_skip.
Qed.

Lemma stable_sort_perm l : Permutation l (stable_sort leb l).
Proof.
  induction l as [|x r IH]; simpl.
  - constructor.
  - eapply perm_trans; [apply perm_skip, IH|]. apply sort_insert_perm.
Qed.

(** Inserting an element that sorts strictly after all the others puts it
    last. *)
Lemma sort_insert_last x l :
  Forall (fun y => leb x y = false) l -> sort_insert leb x l = l ++ [x].
Proof.
  induction 1 as [|y r Hy _ IH]; simpl.
  - reflexivity.
  - now rewrite Hy, IH.
Qed.

Hypothesis leb_total : forall x y, leb x y = true \/ leb y x = true.
Hypothesis leb_trans :
  forall x y z, leb x y = true -> leb y z = true -> leb x z = true.

Lemma sort_insert_sorted x l :
  StronglySorted R l -> StronglySorted R (sort_insert leb x l).
Proof.
  induction 1 as [|y r S IH F]; simpl.
  - repeat constructor.
  - destruct (leb x y) eqn:E.
    + constructor; [now constructor|]. constructor; [exact E|].
      eapply Forall_impl; [|exact F]. intros z. now apply leb_trans.
    + constructor; [exact IH|].
      apply (Permutation_Forall (sort_insert_perm x r)).
      constructor; [|exact F].
      destruct (leb_total x y) as [H|H]; [congruence|exact H].
Qed.

Lemma stable_sort_sorted l : StronglySorted R (stable_sort leb l).
Proof.
  induction l as [|x r IH]; simpl.
  - constructor.
  - now apply sort_insert_sorted.
Qed.
End StableSortFacts.

(** *** The order on rows is total and transitive *)

Lemma string_leb_spec a b : String.leb a b = true <-> a = b \/ OrderedTypeEx.String_as_OT.lt a b.
Proof.
  unfold String.leb.
  pose proof (OrderedTypeEx.String_as_OT.cmp_eq a b) as E.
  pose proof (OrderedTypeEx.String_as_OT.cmp_lt a b) as L.
  unfold OrderedTypeEx.String_as_OT.cmp in *.
  destruct (String.compare a b) eqn:C; split; intros H;
    try reflexivity; try discriminate.
  - left. now apply E.
  - right. now apply L.
  - destruct H as [H|H]; [apply E in H|apply L in H]; discriminate.
Qed.

Lemma string_leb_trans a b c :
  String.leb a b = true -> String.leb b c = true -> String.leb a c = true.
Proof.
  rewrite !string_leb_spec. intros [->|H1] [->|H2]; auto.
  right. eapply OrderedTypeEx.String_as_OT.lt_trans; eassumption.
Qed.

Lemma time_leb_total a b : time_leb a b = true \/ time_leb b a = true.
Proof.
  destruct a as [x|], b as [y|]; simpl; auto.
  destruct (Z.leb_spec x y); [now left|right]. apply Z.leb_le. lia.
Qed.

Lemma time_leb_trans a b c :
  time_leb a b = true -> time_leb b c = true -> time_leb a c = true.
Proof.
  destruct a as [x|], b as [y|], c as [z|]; simpl; try congruence.
  rewrite !Z.leb_le. lia.
Qed.

Lemma column_leb_total c x y : column_leb c x y = true \/ column_leb c y x = true.
Proof.
  destruct c; simpl; try apply time_leb_total; try apply String.leb_total;
    rewrite !Z.leb_le; lia.
Qed.

Lemma column_leb_trans c x y z :
  column_leb c x y = true -> column_leb c y z = true -> column_leb c x z = true.
Proof.
  destruct c; simpl; try apply time_leb_trans; try apply string_leb_trans;
    rewrite !Z.leb_le; lia.
Qed.

Lemma in_order_total c o x y : in_order c o x y = true \/ in_order c o y x = true.
Proof. destruct o; simpl; apply column_leb_total. Qed.

Lemma in_order_trans c o x y z :
  in_order c o x y = true -> in_order c o y z = true -> in_order c o x z = true.
Proof.
  destruct o; simpl; intros H1 H2.
  - eapply column_leb_trans; eassumption.
  - eapply column_leb_trans; eassumption.
Qed.

(** Both ways of carrying out ORDER BY meet its contract. *)
Lemma order_keeping_ties_ok c o rows :
  order_by c o rows (TaskList.order_keeping_ties c o rows).
Proof.
  split.
  - apply stable_sort_perm.
  - apply stable_sort_sorted; [apply in_order_total|apply in_order_trans].
Qed.

Lemma order_reversing_ties_ok c o rows :
  order_by c o rows (TaskList.order_reversing_ties c o rows).
Proof.
  split.
  - eapply perm_trans; [apply Permutation_rev|]. apply stable_sort_perm.
  - apply stable_sort_sorted; [apply in_order_total|apply in_order_trans].
Qed.


(** A 200 answer is built from the ordered matching rows. *)
Lemma get_tasks_ok caller raw d q items pg :
  taskSchemas.query raw = Some q ->
  TaskList.get_tasks caller raw d (Success 200 (items, pg) None) ->
  exists sorted,
    order_by (sort_by q) (sort_order q)
             (filter (TaskList.matches caller q) (tasks d)) sorted /\
    TaskList.respond d q (filter (TaskList.matches caller q) (tasks d)) sorted
      = Success 200 (items, pg) None.
Proof.
  intros V H. unfold TaskList.get_tasks in H. rewrite V in H. cbv zeta in H.
  destruct H as [(_ & sorted & O & E)|(_ & E)]; [|discriminate].
  exists sorted. split; [exact O|now symmetry].
Qed.

(** ** Listing: pagination *)

Lemma query_bounds raw q :
  taskSchemas.query raw = Some q ->
  page q = or_else (q_page raw) 1 /\
  limit q = or_else (q_limit raw) 10 /\
  1 <= page q /\ 1 <= limit q <= 100 /\
  (q_sort_by raw = None -> sort_by q = by_created_at) /\
  (q_sort_order raw = None -> sort_order q = desc).
Proof.
  unfold taskSchemas.query. intros H.
  destruct (taskSchemas.optional_valid parse_status _); [|discriminate].
  destruct (taskSchemas.optional_valid parse_priority _); [|discriminate].
  destruct (taskSchemas.optional_valid taskSchemas.parse_sort_by _) as [sb|] eqn:SB;
    [|discriminate].
  destruct (taskSchemas.optional_valid taskSchemas.parse_sort_order _) as [so|] eqn:SO;
    [|discriminate].
  destruct (_ && _) eqn:B; [|discriminate].
  apply andb_true_iff in B. destruct B as [B B3].
  apply andb_true_iff in B. destruct B as [B1 B2].
  apply Z.leb_le in B1, B2, B3.
  inversion H; subst; clear H. cbn.
  repeat split; try assumption.
  - intros E. rewrite E in SB. cbn in SB. now inversion SB.
  - intros E. rewrite E in SO. cbn in SO. now inversion SO.
Qed.

(** [Math.ceil(count / limit)] is the least number of pages of [lim] rows
    that hold [count] rows. *)
Lemma total_pages_spec count lim :
  1 <= lim ->
  (TaskList.total_pages count lim - 1) * lim < count
    <= TaskList.total_pages count lim * lim.
Proof.
  intros L. unfold TaskList.total_pages.
  assert (E : Qceiling (inject_Z count / inject_Z lim) = - ((- count) / lim)).
  { unfold Qceiling. f_equal. rewrite Zdiv_Qdiv. apply Qfloor_comp.
    rewrite inject_Z_opp. unfold Qdiv. ring. }
  rewrite E.
  pose proof (Z.div_mod (- count) lim ltac:(lia)) as DM.
  pose proof (Z.mod_pos_bound (- count) lim ltac:(lia)) as MB.
  nia.
Qed.

(** The rows of a page are rows [offset], [offset + 1], ... of the ordered
    rows, [limit] of them at most. *)
Lemma respond_window d q matching sorted items pg :
  1 <= page q -> 1 <= limit q ->
  TaskList.respond d q matching sorted = Success 200 (items, pg) None ->
  (forall k,
     nth_error items k =
       if (Z.of_nat k <? limit q)
       then option_map (join_category d)
              (nth_error sorted (Z.to_nat ((page q - 1) * limit q) + k))
       else None) /\
  pg = mkPagination (page q) (limit q) (Z.of_nat (List.length matching))
         (TaskList.total_pages (Z.of_nat (List.length matching)) (limit q)).
Proof.
  intros P L H. unfold TaskList.respond in H. inversion H; subst; clear H.
  split; [|reflexivity].
  intros k. unfold range.
  replace ((page q - 1) * limit q + limit q - 1 - (page q - 1) * limit q + 1)
    with (limit q) by lia.
  rewrite nth_error_map, nth_error_firstn, nth_error_skipn.
  destruct (Z.ltb_spec (Z.of_nat k) (limit q));
    destruct (Nat.ltb_spec k (Z.to_nat (limit q))); try reflexivity; lia.
Qed.



(** The visibility predicate: the caller created the task or is its
    assignee. *)
Definition visible_to (caller : uuid) (t : task) : Prop :=
  created_by t = caller \/ assigned_to t = Some caller.

(** The six optional filters of a list query, all of which must hold;
    [due_before] and [due_after] are inclusive bounds and need a due date. *)
Definition filters_hold (q : task_query) (t : task) : Prop :=
  (forall s, v_status q = Some s -> task_status t = s) /\
  (forall p, v_priority q = Some p -> task_priority t = p) /\
  (forall c, v_category_id q = Some c -> category_id t = Some c) /\
  (forall a, v_assigned_to q = Some a -> assigned_to t = Some a) /\
  (forall b, v_due_before q = Some b -> exists dd, due_date t = Some dd /\ dd <= b) /\
  (forall a, v_due_after q = Some a -> exists dd, due_date t = Some dd /\ a <= dd).

(** What a row must satisfy to be listed. *)
Lemma matches_spec caller q t :
  TaskList.matches caller q t = true <-> visible_to caller t /\ filters_hold q t.
Proof.
  unfold visible_to, filters_hold.
  unfold TaskList.matches, TaskList.due_le, TaskList.due_ge, opt_uuid_is.
  rewrite !andb_true_iff, or_created_assigned_true.
  destruct (v_status q) as [s|], (v_priority q) as [p|],
    (v_category_id q) as [c|], (v_assigned_to q) as [a|],
    (v_due_before q) as [b|], (v_due_after q) as [f|];
    destruct (category_id t) as [tc|], (assigned_to t) as [ta|],
      (due_date t) as [dd|]; cbn [taskSchemas.optional];
    rewrite ?status_eqb_eq, ?priority_eqb_eq, ?N.eqb_eq, ?Z.leb_le;
    (split;
     [ intros H; decompose [and] H; clear H;
       repeat split; auto; intros x Hx; inversion Hx; subst;
       try congruence; try discriminate; eauto
     | intros (V & S & P & C & As & B & F);
       repeat split; auto;
       try (specialize (S _ eq_refl)); try (specialize (P _ eq_refl));
       try (specialize (C _ eq_refl)); try (specialize (As _ eq_refl));
       try (destruct (B _ eq_refl) as (? & ? & ?));
       try (destruct (F _ eq_refl) as (? & ? & ?));
       try congruence; try discriminate ]).
Qed.


Definition list_everything : task_query_raw :=
  mkQueryRaw None None None None None None None None None None.



(** ** Listing: order *)

Lemma StronglySorted_nth (A : Type) (R : A -> A -> Prop) (l : list A) :
  StronglySorted R l ->
  forall i j x y, (i < j)%nat ->
    nth_error l i = Some x -> nth_error l j = Some y -> R x y.
Proof.
  induction 1 as [|a l S IH F]; intros i j x y L Hi Hj.
  - destruct i; discriminate.
  - destruct j as [|j]; [lia|]. destruct i as [|i]; simpl in Hi, Hj.
    + inversion Hi; subst. rewrite Forall_forall in F. apply F.
      eapply nth_error_In; eassumption.
    + apply (IH i j); [lia|assumption|assumption].
Qed.

(** [x] stands before [y] in [l]. *)
Definition before (A : Type) (l : list A) (x y : A) : Prop :=
  exists l1 l2 l3, l = l1 ++ x :: l2 ++ y :: l3.

Definition adjacent_in_order (c : sort_column) (o : sort_direction)
  (items : list task_view) : Prop :=
  forall k a b,
    nth_error items k = Some a -> nth_error items (S k) = Some b ->
    match o with
    | asc => column_leb c (row a) (row b) = true
    | desc => column_leb c (row b) (row a) = true
    end.

(** Items with equal sort keys come in the order of the table. *)
Definition ties_in_insertion_order (c : sort_column) (d : db)
  (items : list task_view) : Prop :=
  forall j k a b,
    (j < k)%nat -> nth_error items j = Some a -> nth_error items k = Some b ->
    column_leb c (row a) (row b) = true -> column_leb c (row b) (row a) = true ->
    before (tasks d) (row a) (row b).

(** The claim as the specification states it. *)
Definition list_sorted_and_stable : Prop :=
  forall caller raw d q items pg,
    taskSchemas.query raw = Some q ->
    TaskList.get_tasks caller raw d (Success 200 (items, pg) None) ->
    adjacent_in_order (sort_by q) (sort_order q) items /\
    ties_in_insertion_order (sort_by q) d items.

(** C5 (counterexample).  alice's two tasks were created at the same
    instant.  Listed with the default order, [created_at] descending, they
    may come back as [notes], [report], against the order of insertion:
    the query orders by the one key and nothing settles ties. *)
Lemma list_ties_not_stable :
  ~ list_sorted_and_stable.
Proof.
  intros H.
  pose (q := mkQuery None None None None None None 1 10 by_created_at desc).
  pose (items := map (join_category Sample.store) [Sample.notes; Sample.report]).
  assert (G : TaskList.get_tasks Sample.alice list_everything Sample.store
                (Success 200 (items, mkPagination 1 10 2 1) None)).
  { unfold TaskList.get_tasks. change (taskSchemas.query list_everything) with (Some q).
    left. split; [discriminate|].
    exists (TaskList.order_reversing_ties by_created_at desc
              (filter (TaskList.matches Sample.alice q) (tasks Sample.store))).
    split; [apply order_reversing_ties_ok|reflexivity]. }
  destruct (H Sample.alice list_everything Sample.store q _ _ eq_refl G) as [_ T].
  destruct (T 0%nat 1%nat _ _ ltac:(lia) eq_refl eq_refl eq_refl eq_refl)
    as (l1 & l2 & l3 & E).
  cbn in E.
  destruct l1 as [|x [|y l1]]; cbn in E.
  - inversion E.
  - inversion E; subst. destruct l2; cbn in *; discriminate.
  - inversion E; subst. destruct l1; cbn in *; discriminate.
Qed.

(** C5 (amended).  In every list answer any two adjacent items are in the
    order of the single sort key, [created_at] descending by default:
    non-decreasing under [asc], non-increasing under [desc].  (Nothing is
    promised about the relative order of items with equal keys.) *)
Theorem list_adjacent_in_order caller raw d q items pg :
  taskSchemas.query raw = Some q ->
  TaskList.get_tasks caller raw d (Success 200 (items, pg) None) ->
  adjacent_in_order (sort_by q) (sort_order q) items /\
  (q_sort_by raw = None -> sort_by q = by_created_at) /\
  (q_sort_order raw = None -> sort_order q = desc).
Proof.
  intros V H.
  destruct (query_bounds _ V) as (_ & _ & P & (L & _) & SB & SO).
  split; [|split; assumption].
  destruct (@get_tasks_ok caller raw d q items pg V H) as (sorted & [_ Srt] & E).
  destruct (@respond_window d q _ sorted items pg P L E) as [W _].
  intros k a b Ha Hb. rewrite W in Ha, Hb.
  destruct (Z.of_nat k <? limit q); [|discriminate].
  destruct (Z.of_nat (S k) <? limit q); [|discriminate].
  destruct (nth_error sorted (_ + k)) as [x|] eqn:X; [|discriminate].
  destruct (nth_error sorted (_ + S k)) as [y|] eqn:Y; [|discriminate].
  inversion Ha; inversion Hb; subst. cbn [row join_category].
  assert (R := fun L => StronglySorted_nth Srt L X Y).
  specialize (R ltac:(lia)).
  cbv beta in R. unfold in_order in R. destruct (sort_order q); exact R.
Qed.

Lemma list_adjacent_in_order_witness :
  exists items pg,
    TaskList.get_tasks Sample.alice list_everything Sample.store
      (Success 200 (items, pg) None) /\
    adjacent_in_order by_created_at desc items.
Proof.
  pose (q := mkQuery None None None None None None 1 10 by_created_at desc).
  pose (items := map (join_category Sample.store) [Sample.report; Sample.notes]).
  assert (G : TaskList.get_tasks Sample.alice list_everything Sample.store
                (Success 200 (items, mkPagination 1 10 2 1) None)).
  { unfold TaskList.get_tasks. change (taskSchemas.query list_everything) with (Some q).
    left. split; [discriminate|].
    exists (TaskList.order_keeping_ties by_created_at desc
              (filter (TaskList.matches Sample.alice q) (tasks Sample.store))).
    split; [apply order_keeping_ties_ok|reflexivity]. }
  exists items, (mkPagination 1 10 2 1). split; [exact G|].
  exact (proj1 (@list_adjacent_in_order Sample.alice list_everything Sample.store
                  q _ _ eq_refl G)).
Defined.

(** ** Facts about doubles *)

Section Binary64Facts.
Import Binary64.
Open Scope Q_scope.

Lemma two_nonzero : ~ 2 == 0.
Proof. discriminate. Qed.

Lemma pow2_pos k : 0 < pow2 k.
Proof. apply Qpower_0_lt. reflexivity. Qed.

Lemma pow2_add a b : pow2 (a + b) == pow2 a * pow2 b.
Proof. apply Qpower_plus, two_nonzero. Qed.

Lemma pow2_lt a b : (a < b)%Z -> pow2 a < pow2 b.
Proof. intros H. apply Qpower_lt_compat_l; [exact H|reflexivity]. Qed.

Lemma pow2_le a b : (a <= b)%Z -> pow2 a <= pow2 b.
Proof. intros H. apply Qpower_le_compat_l; [exact H|discriminate]. Qed.

Lemma pow2_lt_inv a b : pow2 a < pow2 b -> (a < b)%Z.
Proof. intros H. apply (Qpower_lt_compat_l_inv 2); [exact H|reflexivity]. Qed.

Lemma pow2_Z k : (0 <= k)%Z -> pow2 k == inject_Z (2 ^ k).
Proof. intros H. unfold pow2. now rewrite Zpower_Qpower. Qed.

Lemma pow2_cancel a b : pow2 (a - b) * pow2 b == pow2 a.
Proof. rewrite <- pow2_add. now replace (a - b + b)%Z with a by lia. Qed.

(** *** Nearest integer, ties to even *)

Lemma nearest_even_cases q :
  let f := Qfloor q in
  (nearest_even q = f /\ q - inject_Z f <= 1 # 2) \/
  (nearest_even q = (f + 1)%Z /\ 1 # 2 <= q - inject_Z f).
Proof.
  cbv zeta. unfold nearest_even.
  destruct (Qcompare_spec (q - inject_Z (Qfloor q)) (1 # 2)) as [C|C|C].
  - destruct (Z.even (Qfloor q)); [left|right];
      (split; [reflexivity|]); rewrite C; apply Qle_refl.
  - left. split; [reflexivity|now apply Qlt_le_weak].
  - right. split; [reflexivity|now apply Qlt_le_weak].
Qed.

Lemma nearest_even_bounds q :
  inject_Z (nearest_even q) - (1 # 2) <= q /\ q <= inject_Z (nearest_even q) + (1 # 2).
Proof.
  pose proof (Qfloor_le q) as Lo. pose proof (Qlt_floor q) as Hi.
  rewrite inject_Z_plus in Hi. change (inject_Z 1) with 1 in Hi.
  destruct (nearest_even_cases q) as [[-> H]|[-> H]].
  - split; lra.
  - rewrite inject_Z_plus. change (inject_Z 1) with 1. split; lra.
Qed.

Lemma nearest_even_comp q q' : q == q' -> nearest_even q = nearest_even q'.
Proof.
  intros E. unfold nearest_even. rewrite (Qfloor_comp _ _ E).
  assert (C : Qcompare (q - inject_Z (Qfloor q')) (1 # 2)
              = Qcompare (q' - inject_Z (Qfloor q')) (1 # 2)).
  { apply Qcompare_comp; [now rewrite E|reflexivity]. }
  now rewrite C.
Qed.

Lemma nearest_even_Z k : nearest_even (inject_Z k) = k.
Proof.
  unfold nearest_even. rewrite Qfloor_Z.
  assert (C : Qcompare (inject_Z k - inject_Z k) (1 # 2) = Lt).
  { apply Qlt_alt. setoid_replace (inject_Z k - inject_Z k) with 0 by ring.
    reflexivity. }
  now rewrite C.
Qed.

Lemma nearest_even_mono q q' : q <= q' -> (nearest_even q <= nearest_even q')%Z.
Proof.
  intros L. pose proof (Qfloor_resp_le _ _ L) as F.
  destruct (Z.eq_dec (Qfloor q) (Qfloor q')) as [E|N].
  - unfold nearest_even. rewrite E.
    destruct (Qcompare_spec (q - inject_Z (Qfloor q')) (1 # 2)) as [C|C|C];
      destruct (Qcompare_spec (q' - inject_Z (Qfloor q')) (1 # 2)) as [C'|C'|C'];
      try (destruct (Z.even (Qfloor q')); lia); try lia; exfalso; lra.
  - destruct (nearest_even_cases q) as [[-> _]|[-> _]];
      destruct (nearest_even_cases q') as [[-> _]|[-> _]]; lia.
Qed.

Lemma nearest_even_le q k : q <= inject_Z k -> (nearest_even q <= k)%Z.
Proof. intros H. rewrite <- (nearest_even_Z k). now apply nearest_even_mono. Qed.

Lemma nearest_even_ge q k : inject_Z k <= q -> (k <= nearest_even q)%Z.
Proof. intros H. rewrite <- (nearest_even_Z k). now apply nearest_even_mono. Qed.

(** *** The exponent *)

Lemma exponent_spec x :
  ~ x == 0 -> pow2 (exponent x) <= Qabs x /\ Qabs x < pow2 (exponent x + 1).
Proof.
  intros NZ. destruct x as [n d]. unfold exponent. cbn [Qnum Qden].
  set (a := Z.log2 (Z.abs n)). set (b := Z.log2 (Z.pos d)).
  assert (N0 : (0 < Z.abs n)%Z).
  { assert (n <> 0%Z); [|lia]. intros ->. apply NZ. reflexivity. }
  destruct (Z.log2_spec (Z.abs n) N0) as [A1 A2].
  destruct (Z.log2_spec (Z.pos d) ltac:(lia)) as [B1 B2].
  fold a in A1, A2. fold b in B1, B2.
  assert (A0 : (0 <= a)%Z) by apply Z.log2_nonneg.
  assert (B0 : (0 <= b)%Z) by apply Z.log2_nonneg.
  assert (X : Qabs (n # d) == inject_Z (Z.abs n) / inject_Z (Z.pos d)).
  { unfold Qabs. rewrite (Qmake_Qdiv (Z.abs n) d). reflexivity. }
  assert (Dp : 0 < inject_Z (Z.pos d)).
  { change 0 with (inject_Z 0). rewrite <- Zlt_Qlt. lia. }
  assert (Lo : pow2 (a - b - 1) <= Qabs (n # d)).
  { rewrite X. apply Qle_shift_div_l; [exact Dp|].
    apply Qle_trans with (pow2 (a - b - 1) * pow2 (b + 1)).
    - apply Qmult_le_l; [apply pow2_pos|]. rewrite pow2_Z by lia.
      rewrite <- Zle_Qle. lia.
    - rewrite <- pow2_add. replace (a - b - 1 + (b + 1))%Z with a by lia.
      rewrite pow2_Z by lia. rewrite <- Zle_Qle. exact A1. }
  assert (Hi : Qabs (n # d) < pow2 (a - b + 1)).
  { rewrite X. apply Qlt_shift_div_r; [exact Dp|].
    apply Qlt_le_trans with (pow2 (a - b + 1) * pow2 b).
    - rewrite <- pow2_add. replace (a - b + 1 + b)%Z with (Z.succ a) by lia.
      rewrite pow2_Z by lia. rewrite <- Zlt_Qlt. exact A2.
    - apply Qmult_le_l; [apply pow2_pos|]. rewrite pow2_Z by lia.
      rewrite <- Zle_Qle. exact B1. }
  destruct (Qle_bool (pow2 (a - b)) (Qabs (n # d))) eqn:T.
  - apply Qle_bool_iff in T. split; assumption.
  - split.
    + exact Lo.
    + replace (a - b - 1 + 1)%Z with (a - b)%Z by lia.
      apply Qnot_le_lt. intros H. apply Qle_bool_iff in H. congruence.
Qed.

Lemma exponent_unique x k :
  pow2 k <= Qabs x -> Qabs x < pow2 (k + 1) -> exponent x = k.
Proof.
  intros Lo Hi.
  assert (NZ : ~ x == 0).
  { intros E. rewrite E in Lo. pose proof (pow2_pos k). cbn in Lo. lra. }
  destruct (exponent_spec NZ) as [Lo' Hi'].
  assert (exponent x < k + 1)%Z.
  { apply pow2_lt_inv. eapply Qle_lt_trans; eassumption. }
  assert (k < exponent x + 1)%Z.
  { apply pow2_lt_inv. eapply Qle_lt_trans; eassumption. }
  lia.
Qed.


(** *** Rounding *)

Lemma round_eq x :
  round x == inject_Z (nearest_even (x * pow2 (52 - exponent x)))
             * pow2 (exponent x - 52).
Proof. unfold round. apply Qred_correct. Qed.

Lemma round_0 x : x == 0 -> round x = 0.
Proof.
  intros E. unfold round.
  assert (Q : x * pow2 (52 - exponent x) == inject_Z 0).
  { generalize (pow2 (52 - exponent x)). intros p. rewrite E.
    change (inject_Z 0) with 0. ring. }
  rewrite (nearest_even_comp Q), nearest_even_Z.
  transitivity (Qred 0); [|reflexivity].
  apply Qred_complete. change (inject_Z 0) with 0. ring.
Qed.


(** The scaled significand lies between [2^52] and [2^53]. *)
Lemma significand_range x :
  ~ x == 0 ->
  pow2 52 <= Qabs (x * pow2 (52 - exponent x)) /\
  Qabs (x * pow2 (52 - exponent x)) < pow2 53.
Proof.
  intros NZ. destruct (exponent_spec NZ) as [Lo Hi].
  rewrite Qabs_Qmult, (Qabs_pos (pow2 _)) by (apply Qlt_le_weak, pow2_pos).
  pose proof (pow2_pos (52 - exponent x)) as P.
  split.
  - rewrite <- (pow2_cancel 52 (52 - exponent x)).
    replace (52 - (52 - exponent x))%Z with (exponent x) by lia.
    apply Qmult_le_compat_r; [exact Lo|now apply Qlt_le_weak].
  - rewrite <- (pow2_cancel 53 (52 - exponent x)).
    replace (53 - (52 - exponent x))%Z with (exponent x + 1)%Z by lia.
    now apply Qmult_lt_compat_r.
Qed.

Lemma unscale x : x == x * pow2 (52 - exponent x) * pow2 (exponent x - 52).
Proof.
  rewrite <- Qmult_assoc, <- pow2_add.
  replace (52 - exponent x + (exponent x - 52))%Z with 0%Z by lia.
  change (pow2 0) with 1. ring.
Qed.

(** The relative error of one rounding is at most [2^-53]. *)

Lemma round_error x : Qabs (round x - x) <= Qabs x * unit_roundoff.
Proof.
  destruct (Qeq_dec x 0) as [Z|NZ].
  - rewrite (round_0 Z), Z. cbn. discriminate.
  - destruct (exponent_spec NZ) as [Lo _].
    set (e := exponent x) in *.
    set (q := x * pow2 (52 - e)).
    destruct (nearest_even_bounds q) as [B1 B2].
    assert (E : round x - x == (inject_Z (nearest_even q) - q) * pow2 (e - 52)).
    { rewrite round_eq. fold e. fold q.
      assert (U : x == q * pow2 (e - 52)) by apply unscale.
      revert U. generalize (inject_Z (nearest_even q)), (pow2 (e - 52)), q.
      intros m p q' U. rewrite U. ring. }
    rewrite E, Qabs_Qmult, (Qabs_pos (pow2 _)) by (apply Qlt_le_weak, pow2_pos).
    apply Qle_trans with ((1 # 2) * pow2 (e - 52)).
    + apply Qmult_le_compat_r; [|apply Qlt_le_weak, pow2_pos].
      apply Qabs_Qle_condition. split; lra.
    + unfold unit_roundoff.
      apply Qle_trans with (pow2 e * pow2 (-53)).
      * rewrite <- pow2_add. replace (e + -53)%Z with (-1 + (e - 52))%Z by lia.
        rewrite pow2_add. change (pow2 (-1)) with (1 # 2). apply Qle_refl.
      * apply Qmult_le_compat_r; [exact Lo|apply Qlt_le_weak, pow2_pos].
Qed.

Lemma round_nonneg x : 0 <= x -> 0 <= round x.
Proof.
  intros H. rewrite round_eq.
  apply Qmult_le_0_compat; [|apply Qlt_le_weak, pow2_pos].
  change 0 with (inject_Z 0). rewrite <- Zle_Qle.
  apply nearest_even_ge. change (inject_Z 0) with 0.
  apply Qmult_le_0_compat; [exact H|apply Qlt_le_weak, pow2_pos].
Qed.

Lemma round_nonpos x : x <= 0 -> round x <= 0.
Proof.
  intros H. rewrite round_eq.
  assert (N : (nearest_even (x * pow2 (52 - exponent x)) <= 0)%Z).
  { apply nearest_even_le. change (inject_Z 0) with 0.
    pose proof (pow2_pos (52 - exponent x)).
    setoid_replace 0 with (0 * pow2 (52 - exponent x)) by ring.
    apply Qmult_le_compat_r; [exact H|now apply Qlt_le_weak]. }
  rewrite Zle_Qle in N. change (inject_Z 0) with 0 in N.
  pose proof (pow2_pos (exponent x - 52)).
  setoid_replace 0 with (0 * pow2 (exponent x - 52)) by ring.
  apply Qmult_le_compat_r; [exact N|now apply Qlt_le_weak].
Qed.

(** A positive number and its rounding lie in the same binade. *)
Lemma round_binade_pos x :
  0 < x -> pow2 (exponent x) <= round x /\ round x <= pow2 (exponent x + 1).
Proof.
  intros P. assert (NZ : ~ x == 0) by lra.
  destruct (significand_range NZ) as [Lo Hi].
  set (e := exponent x) in *. set (q := x * pow2 (52 - e)) in *.
  assert (Q0 : 0 <= q).
  { apply Qmult_le_0_compat; [lra|apply Qlt_le_weak, pow2_pos]. }
  rewrite (Qabs_pos q Q0) in Lo, Hi.
  rewrite pow2_Z in Lo, Hi by lia.
  assert (M1 : (2 ^ 52 <= nearest_even q)%Z).
  { now apply nearest_even_ge. }
  assert (M2 : (nearest_even q <= 2 ^ 53)%Z).
  { apply nearest_even_le. lra. }
  rewrite round_eq. fold e. fold q.
  pose proof (pow2_pos (e - 52)) as Pp.
  split.
  - rewrite <- (pow2_cancel e (e - 52)). replace (e - (e - 52))%Z with 52%Z by lia.
    apply Qmult_le_compat_r; [|lra]. rewrite pow2_Z by lia. now rewrite <- Zle_Qle.
  - rewrite <- (pow2_cancel (e + 1) (e - 52)).
    replace (e + 1 - (e - 52))%Z with 53%Z by lia.
    apply Qmult_le_compat_r; [|lra]. rewrite pow2_Z by lia. now rewrite <- Zle_Qle.
Qed.

Lemma round_binade_neg x :
  x < 0 -> - pow2 (exponent x + 1) <= round x /\ round x <= - pow2 (exponent x).
Proof.
  intros P. assert (NZ : ~ x == 0) by lra.
  destruct (significand_range NZ) as [Lo Hi].
  set (e := exponent x) in *. set (q := x * pow2 (52 - e)) in *.
  assert (Q0 : q <= 0).
  { unfold q. pose proof (pow2_pos (52 - e)).
    setoid_replace 0 with (0 * pow2 (52 - e)) by ring.
    apply Qmult_le_compat_r; lra. }
  rewrite (Qabs_neg q Q0) in Lo, Hi.
  rewrite pow2_Z in Lo, Hi by lia.
  assert (M1 : (nearest_even q <= - 2 ^ 52)%Z).
  { apply nearest_even_le. rewrite inject_Z_opp. lra. }
  assert (M2 : (- 2 ^ 53 <= nearest_even q)%Z).
  { apply nearest_even_ge. rewrite inject_Z_opp. lra. }
  rewrite round_eq. fold e. fold q.
  pose proof (pow2_pos (e - 52)) as Pp.
  rewrite Zle_Qle, inject_Z_opp in M1, M2.
  split.
  - rewrite <- (pow2_cancel (e + 1) (e - 52)).
    replace (e + 1 - (e - 52))%Z with 53%Z by lia.
    rewrite (@pow2_Z 53) by lia.
    setoid_replace (- (inject_Z (2 ^ 53) * pow2 (e - 52)))
      with ((- inject_Z (2 ^ 53)) * pow2 (e - 52)) by ring.
    apply Qmult_le_compat_r; lra.
  - rewrite <- (pow2_cancel e (e - 52)). replace (e - (e - 52))%Z with 52%Z by lia.
    rewrite (@pow2_Z 52) by lia.
    setoid_replace (- (inject_Z (2 ^ 52) * pow2 (e - 52)))
      with ((- inject_Z (2 ^ 52)) * pow2 (e - 52)) by ring.
    apply Qmult_le_compat_r; lra.
Qed.

Lemma exponent_le x y : 0 < x -> x <= y -> (exponent x <= exponent y)%Z.
Proof.
  intros P L.
  destruct (@exponent_spec x ltac:(lra)) as [Lx _].
  destruct (@exponent_spec y ltac:(lra)) as [_ Hy].
  rewrite Qabs_pos in Lx, Hy by lra.
  assert (exponent x < exponent y + 1)%Z; [|lia].
  apply pow2_lt_inv. lra.
Qed.

Lemma exponent_opp x : ~ x == 0 -> exponent (- x) = exponent x.
Proof.
  intros NZ. destruct (exponent_spec NZ) as [Lo Hi].
  apply exponent_unique; now rewrite Qabs_opp.
Qed.

(** Rounding is monotone. *)
Lemma round_mono x y : x <= y -> round x <= round y.
Proof.
  intros L.
  destruct (Qlt_le_dec 0 x) as [Px|Nx].
  - (* 0 < x <= y *)
    pose proof (exponent_le Px L) as E.
    destruct (Z.eq_dec (exponent x) (exponent y)) as [Eq|Ne].
    + rewrite !round_eq, Eq.
      apply Qmult_le_compat_r; [|apply Qlt_le_weak, pow2_pos].
      rewrite <- Zle_Qle. apply nearest_even_mono.
      apply Qmult_le_compat_r; [exact L|apply Qlt_le_weak, pow2_pos].
    + destruct (round_binade_pos Px) as [_ Hx].
      destruct (@round_binade_pos y ltac:(lra)) as [Ly _].
      pose proof (@pow2_le (exponent x + 1) (exponent y) ltac:(lia)). lra.
  - destruct (Qlt_le_dec y 0) as [Ny|Py].
    + (* x <= y < 0 *)
      assert (Nx' : x < 0) by lra.
      assert (E : (exponent y <= exponent x)%Z).
      { rewrite <- (@exponent_opp x), <- (@exponent_opp y) by lra.
        apply exponent_le; lra. }
      destruct (Z.eq_dec (exponent x) (exponent y)) as [Eq|Ne].
      * rewrite !round_eq, Eq.
        apply Qmult_le_compat_r; [|apply Qlt_le_weak, pow2_pos].
        rewrite <- Zle_Qle. apply nearest_even_mono.
        apply Qmult_le_compat_r; [exact L|apply Qlt_le_weak, pow2_pos].
      * destruct (round_binade_neg Nx') as [_ Hx].
        destruct (round_binade_neg Ny) as [Ly _].
        pose proof (@pow2_le (exponent y + 1) (exponent x) ltac:(lia)). lra.
    + pose proof (round_nonpos Nx). pose proof (round_nonneg Py). lra.
Qed.

(** Integers up to [2^53] are doubles. *)
Lemma round_Z k : (Z.abs k <= 2 ^ 53)%Z -> round (inject_Z k) == inject_Z k.
Proof.
  intros B. destruct (Z.eq_dec k 0) as [->|NZ].
  - now rewrite round_0.
  - assert (NZ' : ~ inject_Z k == 0).
    { change 0 with (inject_Z 0). rewrite inject_Z_injective. exact NZ. }
    destruct (exponent_spec NZ') as [Lo Hi].
    set (e := exponent (inject_Z k)) in *.
    assert (E : (e <= 53)%Z).
    { assert (e < 54)%Z; [|lia]. apply pow2_lt_inv.
      eapply Qle_lt_trans; [exact Lo|].
      change (Qabs (inject_Z k)) with (inject_Z (Z.abs k)).
      rewrite (@pow2_Z 54) by lia. rewrite <- Zlt_Qlt. lia. }
    rewrite round_eq. fold e.
    destruct (Z_le_dec e 52) as [S|S].
    + rewrite (@nearest_even_comp _ (inject_Z (k * 2 ^ (52 - e)))).
      * rewrite nearest_even_Z, inject_Z_mult, <- pow2_Z by lia.
        rewrite <- Qmult_assoc, <- pow2_add.
        replace (52 - e + (e - 52))%Z with 0%Z by lia. change (pow2 0) with 1. ring.
      * rewrite inject_Z_mult, <- pow2_Z by lia. reflexivity.
    + assert (e = 53)%Z by lia. subst e.
      assert (K : Z.abs k = (2 ^ 53)%Z).
      { change (Qabs (inject_Z k)) with (inject_Z (Z.abs k)) in Lo.
        replace (exponent (inject_Z k)) with 53%Z in Lo.
        rewrite pow2_Z in Lo by lia. rewrite <- Zle_Qle in Lo. lia. }
      replace (exponent (inject_Z k)) with 53%Z.
      assert (k = 2 ^ 53 \/ k = - 2 ^ 53)%Z as [->| ->] by lia; vm_compute; reflexivity.
Qed.


(** *** One rounding, with bounds *)

Lemma round_close x B :
  Qabs x <= B ->
  x - B * unit_roundoff <= round x /\ round x <= x + B * unit_roundoff.
Proof.
  intros H. pose proof (round_error x) as E.
  assert (U : 0 <= unit_roundoff) by (apply Qlt_le_weak, pow2_pos).
  assert (M : Qabs x * unit_roundoff <= B * unit_roundoff).
  { now apply Qmult_le_compat_r. }
  apply Qabs_Qle_condition in E. destruct E as [E1 E2]. split; lra.
Qed.

Lemma unit_roundoff_value : unit_roundoff == 1 # 9007199254740992.
Proof. reflexivity. Qed.

Lemma unit_roundoff_pos : 0 < unit_roundoff.
Proof. reflexivity. Qed.

Lemma round_le_Z x k :
  (Z.abs k <= 2 ^ 53)%Z -> x <= inject_Z k -> round x <= inject_Z k.
Proof.
  intros B H. apply Qle_trans with (round (inject_Z k)).
  - now apply round_mono.
  - rewrite (@round_Z k B). apply Qle_refl.
Qed.

End Binary64Facts.

(** Linear arithmetic over doubles takes each of them as an unknown. *)
Ltac hide_term t :=
  let v := fresh "v" in generalize dependent t; intro v; intros.

Ltac hide_doubles :=
  repeat match goal with
  | |- context [Binary64.round ?x] => hide_term (Binary64.round x)
  | H : context [Binary64.round ?x] |- _ => hide_term (Binary64.round x)
  | |- context [Analytics.percentage ?a ?b] => hide_term (Analytics.percentage a b)
  | H : context [Analytics.percentage ?a ?b] |- _ =>
      hide_term (Analytics.percentage a b)
  | |- context [Analytics.hours ?a ?b] => hide_term (Analytics.hours a b)
  | H : context [Analytics.hours ?a ?b] |- _ => hide_term (Analytics.hours a b)
  | |- context [Analytics.round2 ?a] => hide_term (Analytics.round2 a)
  | H : context [Analytics.round2 ?a] |- _ => hide_term (Analytics.round2 a)
  end.

Ltac lra_doubles := hide_doubles; lra.

(** ** Analytics: overview *)

(** A task is overdue at [now]: it has a due date before [now] and is not
    completed. *)
Definition overdue (now : timestamp) (t : task) : Prop :=
  (exists dd, due_date t = Some dd /\ dd < now) /\ task_status t <> completed.

Lemma has_status_true s t : Analytics.has_status s t = true <-> task_status t = s.
Proof. unfold Analytics.has_status. apply status_eqb_eq. Qed.

Lemma has_status_false s t : Analytics.has_status s t = false <-> task_status t <> s.
Proof.
  rewrite <- has_status_true. destruct (Analytics.has_status s t); split; congruence.
Qed.

Lemma due_lt_true now t :
  Analytics.due_lt now t = true <-> exists dd, due_date t = Some dd /\ dd < now.
Proof.
  unfold Analytics.due_lt. destruct (due_date t) as [dd|].
  - rewrite Z.ltb_lt. split.
    + intros H. now exists dd.
    + intros (x & E & H). now inversion E; subst.
  - split; [discriminate|]. intros (x & E & _). discriminate.
Qed.

(** *** Percentages and [Math.round(x * 100) / 100] in doubles *)

Unset Implicit Arguments.

Lemma ratio_bounds part whole :
  0 <= part <= whole -> 0 < whole ->
  (0 <= inject_Z part / inject_Z whole <= 1)%Q.
Proof.
  intros [P0 P1] W.
  assert (Wq : (0 < inject_Z whole)%Q).
  { change 0%Q with (inject_Z 0). now rewrite <- Zlt_Qlt. }
  split.
  - apply Qle_shift_div_l; [exact Wq|]. rewrite Qmult_0_l.
    change 0%Q with (inject_Z 0). now rewrite <- Zle_Qle.
  - apply Qle_shift_div_r; [exact Wq|]. rewrite Qmult_1_l. now rewrite <- Zle_Qle.
Qed.

(** The percentage the routes compute lies between 0 and 100 and is within
    [201 * 2^-53] of the exact one. *)
Lemma scaled_ratio_bounds r :
  (0 <= r <= 1)%Q ->
  (0 <= Binary64.round (Binary64.round r * 100) <= 100)%Q.
Proof.
  intros [R0 R1].
  pose proof (round_nonneg R0) as A0.
  assert (A1 : (Binary64.round r <= 1)%Q).
  { apply (@round_le_Z r 1); [discriminate|exact R1]. }
  hide_term (Binary64.round r).
  split.
  - apply round_nonneg. lra.
  - apply (@round_le_Z _ 100); [discriminate|].
    change (inject_Z 100) with 100%Q. lra.
Qed.

Lemma scaled_ratio_accuracy r :
  (0 <= r <= 1)%Q ->
  (Qabs (Binary64.round (Binary64.round r * 100) - r * 100)
   <= 201 * Binary64.unit_roundoff)%Q.
Proof.
  intros [R0 R1].
  pose proof (round_nonneg R0) as A0.
  assert (A1 : (Binary64.round r <= 1)%Q).
  { apply (@round_le_Z r 1); [discriminate|exact R1]. }
  assert (Ra : (Qabs r <= 1)%Q) by (rewrite Qabs_pos; lra).
  destruct (@round_close r 1 Ra) as [a1 a2].
  assert (Rb : (Qabs (Binary64.round r * 100) <= 100)%Q).
  { hide_term (Binary64.round r). rewrite Qabs_pos; lra. }
  destruct (@round_close (Binary64.round r * 100) 100 Rb) as [b1 b2].
  pose proof unit_roundoff_pos as U.
  apply Qabs_Qle_condition. clear Rb.
  hide_term (Binary64.round (Binary64.round r * 100)).
  hide_term (Binary64.round r).
  split; lra.
Qed.

Lemma percentage_bounds part whole :
  0 <= part <= whole -> 0 < whole ->
  (0 <= Analytics.percentage part whole <= 100)%Q.
Proof.
  intros P W. apply scaled_ratio_bounds. now apply ratio_bounds.
Qed.

Lemma percentage_accuracy part whole :
  0 <= part <= whole -> 0 < whole ->
  (Qabs (Analytics.percentage part whole - inject_Z part / inject_Z whole * 100)
   <= 201 * Binary64.unit_roundoff)%Q.
Proof.
  intros P W. apply scaled_ratio_accuracy. now apply ratio_bounds.
Qed.

(** [Math.round(x * 100) / 100] of a percentage: the double nearest to
    [k / 100] for an integer [k] within [1/2 + 10100 * 2^-53] of
    [100 * x]. *)
Lemma round2_hundredths x :
  (0 <= x <= 100)%Q ->
  exists k : Z,
    0 <= k <= 10000 /\
    Analytics.round2 x = Binary64.round (inject_Z k / 100) /\
    (Qabs (inject_Z k - x * 100) <= (1 # 2) + 10100 * Binary64.unit_roundoff)%Q.
Proof.
  intros [X0 X1]. unfold Analytics.round2, Analytics.round, Binary64.mul, Binary64.div.
  assert (Ry : (Qabs (x * 100) <= 10100)%Q) by (rewrite Qabs_pos; lra).
  destruct (@round_close (x * 100) 10100 Ry) as [y1 y2].
  assert (Y0 : (0 <= Binary64.round (x * 100))%Q) by (apply round_nonneg; lra).
  assert (Y1 : (Binary64.round (x * 100) <= 10000)%Q).
  { apply (@round_le_Z _ 10000); [discriminate|].
    change (inject_Z 10000) with 10000%Q. lra_doubles. }
  pose proof (Qfloor_le (Binary64.round (x * 100) + (1 # 2))) as Lo.
  pose proof (Qlt_floor (Binary64.round (x * 100) + (1 # 2))) as Hi.
  rewrite inject_Z_plus in Hi. change (inject_Z 1) with 1%Q in Hi.
  pose proof unit_roundoff_pos as U.
  exists (Qfloor (Binary64.round (x * 100) + (1 # 2))).
  split; [|split; [reflexivity|]].
  - split.
    + change 0 with (Qfloor 0). apply Qfloor_resp_le. lra_doubles.
    + assert (Qfloor (Binary64.round (x * 100) + (1 # 2)) < 10001); [|lia].
      rewrite Zlt_Qlt. change (inject_Z 10001) with 10001%Q. lra_doubles.
  - apply Qabs_Qle_condition. hide_doubles. split; lra.
Qed.

Lemma round2_bounds x : (0 <= x <= 100)%Q -> (0 <= Analytics.round2 x <= 100)%Q.
Proof.
  intros X. destruct (round2_hundredths x X) as (k & [K0 K1] & -> & _).
  rewrite Zle_Qle in K0, K1.
  change (inject_Z 0) with 0%Q in K0. change (inject_Z 10000) with 10000%Q in K1.
  split.
  - apply round_nonneg. unfold Qdiv. change (/ 100)%Q with (1 # 100)%Q. lra.
  - apply (@round_le_Z _ 100); [discriminate|].
    change (inject_Z 100) with 100%Q.
    unfold Qdiv. change (/ 100)%Q with (1 # 100)%Q. lra.
Qed.

(** An integer within a little more than a half of a quotient by fewer than
    [2^32] is within a half of it. *)
Lemma within_half k p whole :
  0 < whole < 2 ^ 32 ->
  (Qabs (inject_Z k - inject_Z p / inject_Z whole)
   <= (1 # 2) + 30200 * Binary64.unit_roundoff)%Q ->
  (Qabs (inject_Z k - inject_Z p / inject_Z whole) <= 1 # 2)%Q.
Proof.
  intros [W0 W1] H.
  assert (Wq : (0 < inject_Z whole)%Q).
  { change 0%Q with (inject_Z 0). now rewrite <- Zlt_Qlt. }
  assert (Wb : (inject_Z whole < 4294967296)%Q).
  { change 4294967296%Q with (inject_Z (2 ^ 32)). now rewrite <- Zlt_Qlt. }
  assert (E : (inject_Z k - inject_Z p / inject_Z whole
               == inject_Z (k * whole - p) / inject_Z whole)%Q).
  { unfold Zminus. rewrite inject_Z_plus, inject_Z_mult, inject_Z_opp.
    field. lra. }
  rewrite E in *. clear E.
  set (D := k * whole - p) in *.
  rewrite Qabs_Qle_condition in *. destruct H as [H1 H2].
  rewrite unit_roundoff_value in H1, H2.
  assert (Dw : (inject_Z D / inject_Z whole * inject_Z whole == inject_Z D)%Q).
  { field. lra. }
  assert (L1 : ((- ((1 # 2) + 30200 * (1 # 9007199254740992))) * inject_Z whole
                <= inject_Z D)%Q).
  { rewrite <- Dw. apply Qmult_le_compat_r; [exact H1|lra]. }
  assert (L2 : (inject_Z D
                <= ((1 # 2) + 30200 * (1 # 9007199254740992)) * inject_Z whole)%Q).
  { rewrite <- Dw at 1. apply Qmult_le_compat_r; [exact H2|lra]. }
  clear H1 H2 Dw. clearbody D.
  assert (Z1 : - whole <= 2 * D).
  { assert (0 < 2 * D + whole + 1); [|lia].
    rewrite Zlt_Qlt, !inject_Z_plus, inject_Z_mult.
    change (inject_Z 0) with 0%Q. change (inject_Z 1) with 1%Q.
    change (inject_Z 2) with 2%Q. lra. }
  assert (Z2 : 2 * D <= whole).
  { assert (2 * D < whole + 1); [|lia].
    rewrite Zlt_Qlt, inject_Z_plus, inject_Z_mult.
    change (inject_Z 1) with 1%Q. change (inject_Z 2) with 2%Q. lra. }
  rewrite Zle_Qle in Z1, Z2. rewrite inject_Z_opp, inject_Z_mult in Z1.
  rewrite inject_Z_mult in Z2. change (inject_Z 2) with 2%Q in Z1, Z2.
  split.
  - apply Qle_shift_div_l; [exact Wq|]. lra.
  - apply Qle_shift_div_r; [exact Wq|]. lra.
Qed.

(** The rate of the routes, rounded: the double nearest to a hundredth
    [k / 100] that is nearest to the exact percentage. *)
Lemma rounded_rate part whole :
  0 <= part <= whole -> 0 < whole < 2 ^ 32 ->
  exists k : Z,
    Analytics.round2 (Analytics.percentage part whole)
      = Binary64.round (inject_Z k / 100) /\
    (Qabs (inject_Z k / 100 - inject_Z part / inject_Z whole * 100) <= 1 # 200)%Q.
Proof.
  intros P [W0 W1].
  pose proof (percentage_bounds part whole P W0) as B.
  pose proof (percentage_accuracy part whole P W0) as A.
  destruct (round2_hundredths _ B) as (k & _ & E & K).
  exists k. split; [exact E|].
  assert (Wq : (0 < inject_Z whole)%Q).
  { change 0%Q with (inject_Z 0). now rewrite <- Zlt_Qlt. }
  assert (H : (Qabs (inject_Z k - inject_Z (10000 * part) / inject_Z whole)
               <= (1 # 2) + 30200 * Binary64.unit_roundoff)%Q).
  { assert (T : (inject_Z (10000 * part) / inject_Z whole
                 == inject_Z part / inject_Z whole * 100 * 100)%Q).
    { rewrite inject_Z_mult. change (inject_Z 10000) with 10000%Q. field. lra. }
    rewrite T. rewrite Qabs_Qle_condition in *. hide_doubles. split; lra. }
  apply (@within_half k (10000 * part) whole (conj W0 W1)) in H.
  assert (T : (inject_Z k / 100 - inject_Z part / inject_Z whole * 100
               == (inject_Z k - inject_Z (10000 * part) / inject_Z whole) / 100)%Q).
  { rewrite inject_Z_mult. change (inject_Z 10000) with 10000%Q. field. lra. }
  rewrite T. rewrite Qabs_Qle_condition in *. split.
  - apply Qle_shift_div_l; [reflexivity|]. lra.
  - apply Qle_shift_div_r; [reflexivity|]. lra.
Qed.

Set Implicit Arguments.

(** [x] rounded to two decimal places, halves upwards, as a decimal
    number. *)
Definition two_decimals (x : Q) : Q :=
  (inject_Z (Qfloor (x * 100 + (1 # 2))) / 100)%Q.

(** The claim as the specification states it: the rate is the quotient
    rounded to two decimal places. *)
Definition rate_is_rounded_quotient : Prop :=
  forall now caller d data,
    Analytics.overview now caller d = Success 200 data None ->
    0 < Analytics.total_tasks data ->
    Analytics.completion_rate data
      = Binary64.round
          (two_decimals (inject_Z (Analytics.completed_tasks data)
                         / inject_Z (Analytics.total_tasks data) * 100)).

Module SampleMany.

(** 160 tasks of alice, of which the first 23 are completed. *)
Definition nth_task (k : nat) : task :=
  if (k <? 23)%nat
  then mkTask (N.of_nat k) "Done" None completed medium None (Some 50) None
              Sample.alice None 10 50
  else mkTask (N.of_nat k) "Open" None todo medium None None None
              Sample.alice None 10 10.

Definition store : db := mkDb [Sample.alice] [] (map nth_task (seq 0 160)).

End SampleMany.

(** C6 (counterexample).  With 23 of 160 tasks completed the quotient is
    14.375 percent, exactly between two hundredths, and its rounding to two
    decimal places is 14.38.  The route multiplies and divides in doubles:
    [23 / 160 * 100 * 100] is 1437.4999999999998, which [Math.round] takes
    to 1437, and the answer is 14.37. *)
Lemma rate_tie_rounds_down :
  ~ rate_is_rounded_quotient.
Proof.
  intros H.
  specialize (H 100 Sample.alice SampleMany.store _ eq_refl eq_refl).
  vm_compute in H. discriminate H.
Qed.

(** C6 (amended).  Over a table of fewer than [2^32] rows the overview
    answers 200 with: [overdue_tasks] the number of tasks visible to the
    caller that have [due_date < now] and are not completed; [total_tasks]
    and [completed_tasks] the numbers of visible and of visible completed
    tasks; [completion_rate] equal to 0 when the caller sees no task, and
    otherwise the double nearest to [k / 100], for an integer [k] such that
    [k / 100] is within half a hundredth of [completed / total * 100]: a
    nearest hundredth, either of the two when the percentage lies exactly
    between them. *)
Theorem overview_overdue_and_rate now caller d :
  Z.of_nat (List.length (tasks d)) < 2 ^ 32 ->
  exists data visible overdue_and_visible completed_and_visible,
    Analytics.overview now caller d = Success 200 data None /\
    (forall t, visible t = true <-> visible_to caller t) /\
    (forall t, overdue_and_visible t = true <-> overdue now t /\ visible_to caller t) /\
    (forall t, completed_and_visible t = true <->
               task_status t = completed /\ visible_to caller t) /\
    Analytics.overdue_tasks data
      = Z.of_nat (List.length (filter overdue_and_visible (tasks d))) /\
    Analytics.total_tasks data = Z.of_nat (List.length (filter visible (tasks d))) /\
    Analytics.completed_tasks data
      = Z.of_nat (List.length (filter completed_and_visible (tasks d))) /\
    (Analytics.total_tasks data = 0 -> (Analytics.completion_rate data == 0)%Q) /\
    (0 < Analytics.total_tasks data ->
     exists k : Z,
       Analytics.completion_rate data = Binary64.round (inject_Z k / 100) /\
       (Qabs (inject_Z k / 100
              - inject_Z (Analytics.completed_tasks data)
                / inject_Z (Analytics.total_tasks data) * 100) <= 1 # 200)%Q).
Proof.
  intros Small.
  eexists. eexists. eexists. eexists. split; [reflexivity|].
  cbn [Analytics.overdue_tasks Analytics.total_tasks Analytics.completed_tasks
       Analytics.completion_rate].
  split; [|split; [|split; [|split; [reflexivity|split; [reflexivity|
    split; [reflexivity|split]]]]]].
  - intros t. apply or_created_assigned_true.
  - intros t. cbv beta. rewrite !andb_true_iff, negb_true_iff.
    rewrite due_lt_true, has_status_false, or_created_assigned_true.
    unfold overdue, visible_to. tauto.
  - intros t. cbv beta. rewrite andb_true_iff, has_status_true,
      or_created_assigned_true. unfold visible_to. tauto.
  - intros E. rewrite E. reflexivity.
  - intros L. assert (L' := L). apply Z.ltb_lt in L'. rewrite L'.
    apply rounded_rate.
    + unfold Analytics.count. split; [lia|]. apply Nat2Z.inj_le.
      clear. induction (tasks d) as [|t l IH]; cbn [filter]; [lia|].
      destruct (Analytics.has_status completed t && or_created_assigned caller t) eqn:B.
      * apply andb_true_iff in B. destruct B as [_ ->]. cbn [List.length]. lia.
      * destruct (or_created_assigned caller t); cbn [List.length]; lia.
    + split; [exact L|]. unfold Analytics.count.
      pose proof (filter_length_le (or_created_assigned caller) (tasks d)). lia.
Qed.

Lemma overview_overdue_and_rate_witness :
  exists data,
    Analytics.overview 100 Sample.alice SampleMany.store = Success 200 data None /\
    Analytics.total_tasks data = 160 /\ Analytics.completed_tasks data = 23 /\
    Analytics.overdue_tasks data = 0 /\
    exists k : Z,
      Analytics.completion_rate data = Binary64.round (inject_Z k / 100) /\
      (Qabs (inject_Z k / 100 - 23 / 160 * 100) <= 1 # 200)%Q.
Proof.
  destruct (@overview_overdue_and_rate 100 Sample.alice SampleMany.store eq_refl)
    as (data & v & o & c & E & _ & _ & _ & _ & _ & _ & _ & R).
  exists data. split; [exact E|].
  injection E as <-.
  split; [reflexivity|]. split; [reflexivity|]. split; [reflexivity|].
  exact (R eq_refl).
Defined.

(** The scenario of the specification: three tasks, one completed, one
    overdue and to do, one due later. *)
Example overview_scenario :
  let t1 := mkTask 1%N "a" None completed medium None (Some 50) None 1%N None 10 50 in
  let t2 := mkTask 2%N "b" None todo medium (Some 60) None None 1%N None 10 10 in
  let t3 := mkTask 3%N "c" None todo medium (Some 900) None None 1%N None 10 10 in
  exists data,
    Analytics.overview 100 1%N (mkDb [1%N] [] [t1; t2; t3]) = Success 200 data None /\
    Analytics.completed_tasks data = 1 /\ Analytics.overdue_tasks data = 1 /\
    Analytics.completion_rate data = Binary64.round (3333 # 100).
Proof. eexists. split; [reflexivity|]. split; [reflexivity|]. split; reflexivity. Qed.

(** ** Analytics: completion rates *)

Lemma date_key_days_before i t :
  Analytics.date_key (Analytics.days_before i t) = Analytics.date_key t - i.
Proof.
  unfold Analytics.date_key, Analytics.days_before, Analytics.day_ms.
  replace (t - i * 86400000) with (t + (- i) * 86400000) by lia.
  rewrite Z.div_add by lia. lia.
Qed.

Lemma obj_get_None k o : Analytics.obj_get k o = None <-> ~ In k (map fst o).
Proof.
  induction o as [|[k' v'] r IH]; simpl.
  - tauto.
  - destruct (Z.eqb_spec k' k).
    + split; [discriminate|]. intros H. exfalso. apply H. now left.
    + rewrite IH. tauto.
Qed.

Lemma obj_set_new k v o :
  ~ In k (map fst o) -> Analytics.obj_set k v o = o ++ [(k, v)].
Proof.
  induction o as [|[k' v'] r IH]; simpl; intros H.
  - reflexivity.
  - destruct (Z.eqb_spec k' k); [tauto|]. rewrite IH; tauto.
Qed.

(** The buckets as created: today first, then one day back at a time, all
    at 0. *)
Definition bucket_day (today : timestamp) (i : nat) : Z :=
  Analytics.date_key today - Z.of_nat i.

Lemma init_buckets_eq today daysAgo :
  Analytics.init_buckets today daysAgo
    = map (fun i => (bucket_day today i, 0)) (seq 0 (Z.to_nat daysAgo)).
Proof.
  unfold Analytics.init_buckets.
  induction (Z.to_nat daysAgo) as [|m IH].
  - reflexivity.
  - rewrite seq_S, fold_left_app, map_app, IH. cbn [fold_left map Nat.add].
    rewrite date_key_days_before. apply obj_set_new.
    rewrite map_map. cbn [fst]. intros I. apply in_map_iff in I.
    destruct I as (i & E & I). apply in_seq in I. unfold bucket_day in E. lia.
Qed.

Lemma bucket_days_NoDup today m : NoDup (map (bucket_day today) (seq 0 m)).
Proof.
  induction m as [|m IH].
  - constructor.
  - rewrite seq_S, map_app. cbn [map Nat.add].
    apply NoDup_app; [exact IH|repeat constructor; intros []|].
    intros x I [<-|[]]. apply in_map_iff in I. destruct I as (i & E & I).
    apply in_seq in I. unfold bucket_day in E. lia.
Qed.

(** *** Tallying *)

(** The task was completed on day [k]. *)
Definition on_day (k : Z) (t : task) : bool :=
  match completed_at t with
  | Some c => Analytics.date_key c =? k
  | None => false
  end.

Definition count_on (k : Z) (l : list task) : Z :=
  Z.of_nat (List.length (filter (on_day k) l)).

Definition b2z (b : bool) : Z := if b then 1 else 0.

Lemma count_on_cons k t l : count_on k (t :: l) = b2z (on_day k t) + count_on k l.
Proof.
  unfold count_on. cbn [filter]. destruct (on_day k t); cbn [b2z List.length]; lia.
Qed.

Lemma map_keep (o : list (Z * Z)) (f : Z * Z -> Z * Z) :
  (forall kv, In kv o -> f kv = kv) -> map f o = o.
Proof.
  intros H. rewrite <- (map_id o) at 2. now apply map_ext_in.
Qed.

Lemma obj_incr_map k o :
  NoDup (map fst o) ->
  Analytics.obj_incr k o
    = map (fun kv => (fst kv, snd kv + b2z (fst kv =? k))) o.
Proof.
  unfold Analytics.obj_incr. induction o as [|[k' v'] r IH]; intros N.
  - reflexivity.
  - inversion N as [|? ? Nk Nr]; subst. cbn [Analytics.obj_get Analytics.obj_set map fst snd].
    destruct (Z.eqb_spec k' k) as [->|Ne].
    + cbn [Analytics.obj_set b2z]. f_equal.
      symmetry. apply map_keep. intros [k2 v2] I. cbn [fst snd].
      destruct (Z.eqb_spec k2 k) as [->|_].
      * exfalso. apply Nk. change k with (fst (k, v2)). now apply in_map.
      * cbn [b2z]. f_equal. lia.
    + specialize (IH Nr). cbn [b2z]. rewrite Z.add_0_r.
      destruct (Analytics.obj_get k r) as [v|] eqn:G.
      * cbn [Analytics.obj_set]. destruct (Z.eqb_spec k' k); [tauto|]. now rewrite IH.
      * now rewrite <- IH.
Qed.

Lemma tally_map o t :
  NoDup (map fst o) ->
  Analytics.tally o t = map (fun kv => (fst kv, snd kv + b2z (on_day (fst kv) t))) o.
Proof.
  intros N. unfold Analytics.tally, on_day.
  destruct (completed_at t) as [c|].
  - unfold Analytics.hasOwnProperty.
    destruct (Analytics.obj_get (Analytics.date_key c) o) as [v|] eqn:G.
    + rewrite (@obj_incr_map (Analytics.date_key c) o N). apply map_ext. intros [k v0]. cbn [fst snd].
      now rewrite (Z.eqb_sym k).
    + symmetry. apply map_keep. intros [k v] I. cbn [fst snd].
      destruct (Z.eqb_spec (Analytics.date_key c) k) as [E|_].
      * exfalso. apply obj_get_None in G. apply G. rewrite E.
        change k with (fst (k, v)). now apply in_map.
      * cbn [b2z]. f_equal. lia.
  - symmetry. apply map_keep. intros [k v] _. cbn [fst snd b2z]. f_equal. lia.
Qed.

Lemma dailyCompletions_map l : forall o,
  NoDup (map fst o) ->
  fold_left Analytics.tally l o
    = map (fun kv => (fst kv, snd kv + count_on (fst kv) l)) o.
Proof.
  induction l as [|t l IH]; intros o N; cbn [fold_left].
  - symmetry. apply map_keep. intros [k v] _. cbn. f_equal. lia.
  - rewrite (@tally_map o t N), IH.
    + rewrite map_map. apply map_ext. intros [k v]. cbn [fst snd].
      rewrite count_on_cons. f_equal. lia.
    + rewrite map_map. cbn [fst]. exact N.
Qed.

Lemma dailyCompletions_eq today daysAgo l :
  Analytics.dailyCompletions today daysAgo l
    = map (fun i => (bucket_day today i, count_on (bucket_day today i) l))
          (seq 0 (Z.to_nat daysAgo)).
Proof.
  unfold Analytics.dailyCompletions. rewrite init_buckets_eq, dailyCompletions_map.
  - rewrite map_map. reflexivity.
  - rewrite map_map. cbn [fst]. apply bucket_days_NoDup.
Qed.

(** *** The chart *)

Lemma stable_sort_descending (A : Type) (leb : A -> A -> bool) (l : list A) :
  StronglySorted (fun x y => leb x y = false) l -> stable_sort leb l = rev l.
Proof.
  induction 1 as [|x r _ IH F]; cbn [stable_sort rev].
  - reflexivity.
  - rewrite IH. apply sort_insert_last. now apply Forall_rev.
Qed.

Lemma StronglySorted_map_seq (A : Type) (R : A -> A -> Prop) (f : nat -> A) :
  (forall i j, (i < j)%nat -> R (f i) (f j)) ->
  forall n s, StronglySorted R (map f (seq s n)).
Proof.
  intros H n. induction n as [|n IH]; intros s; cbn [seq map].
  - constructor.
  - constructor; [apply IH|]. apply Forall_forall. intros x I.
    apply in_map_iff in I. destruct I as (j & <- & I). apply in_seq in I.
    apply H. lia.
Qed.

Lemma rev_map_seq (A : Type) (f : nat -> A) n :
  rev (map f (seq 0 n)) = map (fun i => f (n - 1 - i)%nat) (seq 0 n).
Proof.
  induction n as [|n IH].
  - reflexivity.
  - rewrite seq_S at 1. rewrite map_app, rev_app_distr. cbn [map rev app Nat.add].
    rewrite IH. cbn [seq map]. f_equal; [f_equal; lia|].
    rewrite <- seq_shift, map_map. apply map_ext. intros i. f_equal. lia.
Qed.

Lemma chartData_eq today daysAgo l :
  Analytics.chartData (Analytics.dailyCompletions today daysAgo l)
    = map (fun i =>
             let day := Analytics.date_key today - (daysAgo - 1) + Z.of_nat i in
             (day, count_on day l))
          (seq 0 (Z.to_nat daysAgo)).
Proof.
  unfold Analytics.chartData. rewrite dailyCompletions_eq.
  rewrite stable_sort_descending.
  - rewrite rev_map_seq. apply map_ext_in. intros i I. apply in_seq in I.
    cbv zeta. unfold bucket_day.
    replace (Analytics.date_key today - Z.of_nat (Z.to_nat daysAgo - 1 - i))
      with (Analytics.date_key today - (daysAgo - 1) + Z.of_nat i) by lia.
    reflexivity.
  - apply StronglySorted_map_seq. intros i j L. cbn [fst].
    apply Z.leb_gt. unfold bucket_day, Analytics.day_ms. lia.
Qed.


Lemma four_digit_year_valid t :
  Analytics.four_digit_year t = true -> Analytics.valid_date t = true.
Proof.
  unfold Analytics.four_digit_year, Analytics.valid_date, Analytics.max_time.
  rewrite !andb_true_iff, !Z.leb_le. lia.
Qed.

Definition msg_completion_failed : string := "Failed to fetch completion rates".

(** [GET /analytics/completion-rates] always has an answer. *)
Lemma completion_rates_answers now today caller period d :
  exists r, Analytics.completion_rates now today caller period d r.
Proof.
  unfold Analytics.completion_rates. cbv zeta.
  destruct (Analytics.parse_period 30 period) as [n|]; [|now eexists].
  destruct (Analytics.valid_date now && Analytics.valid_date _); [|now eexists].
  eexists. left. eexists. split; [|reflexivity]. split.
  - apply stable_sort_perm.
  - apply stable_sort_sorted; intros x y;
      [apply time_leb_total|intros z; apply time_leb_trans].
Qed.

(** A 200 answer is built from the rows the query retrieves. *)
Lemma completion_rates_ok now today caller period d n data :
  Analytics.parse_period 30 period = Some n ->
  Analytics.completion_rates now today caller period d (Success 200 data None) ->
  exists rows,
    Permutation (filter (Analytics.completed_since caller
                           (Analytics.days_before n now)) (tasks d)) rows /\
    data = Analytics.completion_of today n rows.
Proof.
  intros P H. unfold Analytics.completion_rates in H. cbv zeta in H. rewrite P in H.
  destruct (Analytics.valid_date now && Analytics.valid_date _); [|discriminate].
  destruct H as [(rows & [Perm _] & E)|(_ & E)]; [|discriminate].
  destruct (Analytics.buckets_in_range today n); [|discriminate].
  exists rows. split; [exact Perm|]. now inversion E.
Qed.

(** With every date in range the answer is 200; with a start date that no
    [Date] holds it is 500. *)
Lemma completion_rates_served now today caller period d n r :
  Analytics.parse_period 30 period = Some n ->
  Analytics.completion_rates now today caller period d r ->
  (Analytics.valid_date now = true ->
   Analytics.four_digit_year (Analytics.days_before n now) = true ->
   Analytics.buckets_in_range today n = true ->
   exists data, r = Success 200 data None) /\
  (Analytics.valid_date (Analytics.days_before n now) = false ->
   r = Failure 500 msg_completion_failed).
Proof.
  intros P H. unfold Analytics.completion_rates in H. cbv zeta in H. rewrite P in H.
  split.
  - intros V F B. rewrite V, (four_digit_year_valid _ F), F, B in H.
    cbn [andb] in H. destruct H as [(rows & _ & ->)|(E & _)]; [|discriminate].
    now eexists.
  - intros V. rewrite V, andb_false_r in H. exact H.
Qed.


Module SampleDone.

(** Day 10 of the epoch, 12:00 UTC. *)
Definition noon_day10 : timestamp := 10 * 86400000 + 43200000.

(** Completed on day 9 at 10:00. *)
Definition filed : task :=
  mkTask 20%N "Filed" None completed medium None (Some (9 * 86400000 + 36000000))
         None Sample.alice None 1000 (9 * 86400000 + 36000000).

(** Completed on day 7 at 18:00: less than three days before [noon_day10],
    on a date three days before. *)
Definition shipped : task :=
  mkTask 21%N "Shipped" None completed medium None (Some (7 * 86400000 + 64800000))
         None Sample.alice None 1000 (7 * 86400000 + 64800000).

Definition store : db := mkDb [Sample.alice] [] [filed; shipped].

Definition three_days : Analytics.period_param := Analytics.PeriodGiven (Some 3).

End SampleDone.


(** *** Buckets against the total *)

Definition sum_Z (l : list Z) : Z := fold_right Z.add 0 l.

(** The sum of the [completed_tasks] of the chart. *)
Definition sum_counts (chart : list (Z * Z)) : Z := sum_Z (map snd chart).

Lemma day_miss ks t :
  (forall c, completed_at t = Some c -> ~ In (Analytics.date_key c) ks) ->
  sum_Z (map (fun k => b2z (on_day k t)) ks) = 0.
Proof.
  intros H. induction ks as [|k ks IH]; cbn [map sum_Z fold_right].
  - reflexivity.
  - fold (sum_Z (map (fun k => b2z (on_day k t)) ks)). rewrite IH.
    + unfold on_day. destruct (completed_at t) as [c|] eqn:C; [|reflexivity].
      destruct (Z.eqb_spec (Analytics.date_key c) k) as [E|_]; [|reflexivity].
      exfalso. apply (H c eq_refl). now left.
    + intros c C I. apply (H c C). now right.
Qed.

Lemma day_hits ks t :
  NoDup ks -> 0 <= sum_Z (map (fun k => b2z (on_day k t)) ks) <= 1.
Proof.
  induction 1 as [|k ks Nk N IH]; cbn [map sum_Z fold_right].
  - lia.
  - fold (sum_Z (map (fun k => b2z (on_day k t)) ks)).
    destruct (on_day k t) eqn:O; cbn [b2z]; [|lia].
    rewrite day_miss; [lia|].
    intros c C I. unfold on_day in O. rewrite C in O.
    apply Z.eqb_eq in O. congruence.
Qed.

Lemma sum_count_on_cons ks t l :
  sum_Z (map (fun k => count_on k (t :: l)) ks)
    = sum_Z (map (fun k => b2z (on_day k t)) ks)
      + sum_Z (map (fun k => count_on k l) ks).
Proof.
  induction ks as [|k ks IH]; cbn [map sum_Z fold_right].
  - reflexivity.
  - fold (sum_Z (map (fun k => count_on k (t :: l)) ks)).
    fold (sum_Z (map (fun k => b2z (on_day k t)) ks)).
    fold (sum_Z (map (fun k => count_on k l) ks)).
    rewrite IH, count_on_cons. lia.
Qed.

Lemma buckets_le ks l :
  NoDup ks -> sum_Z (map (fun k => count_on k l) ks) <= Z.of_nat (List.length l).
Proof.
  intros N. induction l as [|t l IH].
  - induction ks as [|k ks IHk]; cbn [map sum_Z fold_right]; [lia|].
    inversion N; subst. fold (sum_Z (map (fun k => count_on k []) ks)).
    specialize (IHk ltac:(assumption)). cbn in *. lia.
  - rewrite sum_count_on_cons. pose proof (day_hits t N).
    cbn [List.length]. lia.
Qed.

Lemma buckets_lt ks l t c :
  NoDup ks -> In t l -> completed_at t = Some c ->
  ~ In (Analytics.date_key c) ks ->
  sum_Z (map (fun k => count_on k l) ks) < Z.of_nat (List.length l).
Proof.
  intros N I C M. induction l as [|a l IH]; [destruct I|].
  rewrite sum_count_on_cons. cbn [List.length]. destruct I as [->|I].
  - rewrite day_miss.
    + pose proof (buckets_le l N). lia.
    + intros c' C'. congruence.
  - pose proof (day_hits a N). specialize (IH I). lia.
Qed.

Lemma ascending_days_NoDup base m :
  NoDup (map (fun i => base + Z.of_nat i) (seq 0 m)).
Proof.
  induction m as [|m IH].
  - constructor.
  - rewrite seq_S, map_app. cbn [map Nat.add].
    apply NoDup_app; [exact IH|repeat constructor; intros []|].
    intros x I [<-|[]]. apply in_map_iff in I. destruct I as (i & E & I).
    apply in_seq in I. lia.
Qed.

(** C10.  With its dates in range the route answers 200.  In every 200
    answer [total_completed] is the number of tasks the query retrieves, and
    the bucket counts add up to at most [total_completed].  A task that the
    query retrieves, its [completed_at] being on or after the start instant,
    but whose UTC date is before the oldest bucket date, is in no bucket:
    the sum is then strictly below [total_completed]. *)
Theorem buckets_sum_at_most_total now today caller period d n :
  Analytics.parse_period 30 period = Some n ->
  let retrieved :=
    filter (Analytics.completed_since caller (Analytics.days_before n now)) (tasks d) in
  (Analytics.valid_date now = true ->
   Analytics.four_digit_year (Analytics.days_before n now) = true ->
   Analytics.buckets_in_range today n = true ->
   exists data,
     Analytics.completion_rates now today caller period d (Success 200 data None)) /\
  (forall data,
     Analytics.completion_rates now today caller period d (Success 200 data None) ->
     Analytics.total_completed data = Z.of_nat (List.length retrieved) /\
     sum_counts (Analytics.daily_completions data) <= Analytics.total_completed data /\
     (forall t c,
        In t retrieved ->
        completed_at t = Some c ->
        Analytics.date_key c < Analytics.date_key today - (n - 1) ->
        ~ In (Analytics.date_key c) (map fst (Analytics.daily_completions data)) /\
        sum_counts (Analytics.daily_completions data)
          < Analytics.total_completed data)).
Proof.
  intros P retrieved. split.
  - intros V F B.
    destruct (completion_rates_answers now today caller period d) as [r H].
    destruct (proj1 (@completion_rates_served now today caller period d n r P H) V F B)
      as [data E].
    exists data. now rewrite <- E.
  - intros data H.
    destruct (@completion_rates_ok now today caller period d n data P H)
      as (rows & Perm & ->). fold retrieved in Perm.
    cbn [Analytics.completion_of Analytics.daily_completions Analytics.total_completed].
    split; [now rewrite (Permutation_length Perm)|].
    rewrite chartData_eq. cbv zeta.
    set (base := Analytics.date_key today - (n - 1)).
    set (ks := map (fun i => base + Z.of_nat i) (seq 0 (Z.to_nat n))).
    assert (K : map (fun i => (base + Z.of_nat i, count_on (base + Z.of_nat i) rows))
                    (seq 0 (Z.to_nat n))
                = map (fun k => (k, count_on k rows)) ks).
    { unfold ks. now rewrite map_map. }
    rewrite K. unfold sum_counts. rewrite !map_map. cbn [fst snd].
    rewrite map_id.
    pose proof (ascending_days_NoDup base (Z.to_nat n)) as N. fold ks in N.
    split; [now apply buckets_le|].
    intros t c I C L.
    assert (M : ~ In (Analytics.date_key c) ks).
    { unfold ks. intros J. apply in_map_iff in J. destruct J as (i & E & _). lia. }
    split; [exact M|].
    apply (@buckets_lt ks rows t c); try assumption.
    apply (Permutation_in t Perm). exact I.
Qed.

Lemma buckets_sum_at_most_total_witness :
  exists data,
    Analytics.completion_rates SampleDone.noon_day10 SampleDone.noon_day10
      Sample.alice SampleDone.three_days SampleDone.store (Success 200 data None) /\
    Analytics.total_completed data = 2 /\
    sum_counts (Analytics.daily_completions data) < Analytics.total_completed data.
Proof.
  destruct (@buckets_sum_at_most_total SampleDone.noon_day10 SampleDone.noon_day10
              Sample.alice SampleDone.three_days SampleDone.store 3 eq_refl)
    as [A B].
  destruct (A eq_refl eq_refl eq_refl) as [data H].
  exists data. split; [exact H|].
  destruct (B data H) as (T & _ & S). split; [exact T|].
  apply (S SampleDone.shipped (7 * 86400000 + 64800000));
    [right; now left|reflexivity|reflexivity].
Defined.

(** ** Analytics: productivity *)









(** *** The accuracy of the computed mean *)

Unset Implicit Arguments.








Set Implicit Arguments.

(** *** The route *)



(** A 200 answer is built from the rows the query retrieves, in the order
    the database returns them. *)
Lemma productivity_ok now caller period d n data :
  Analytics.parse_period 7 period = Some n ->
  Analytics.productivity now caller period d (Success 200 data None) ->
  exists rows,
    Permutation (filter (Analytics.created_since caller
                           (Analytics.days_before n now)) (tasks d)) rows /\
    data = Analytics.productivity_of n rows.
Proof.
  intros P H. unfold Analytics.productivity in H. cbv zeta in H. rewrite P in H.
  destruct (Analytics.valid_date now && Analytics.valid_date _); [|discriminate].
  destruct H as [(rows & Perm & E)|(_ & E)]; [|discriminate].
  exists rows. split; [exact Perm|]. now inversion E.
Qed.



Module SampleQuick.

(** Created at instant 0 and completed twenty minutes later. *)
Definition quick : task :=
  mkTask 30%N "Quick" None completed medium None (Some 1200000) None
         Sample.alice None 0 1200000.

Definition store : db := mkDb [Sample.alice] [] [quick].

End SampleQuick.





(** * Further properties of the task routes *)

(** ** The store the migrations describe *)

(** Every column an UPDATE can reach, read off the row it writes. *)
Lemma update_row_fields now p OLD :
  let NEW := update_row now p OLD in
  id NEW = id OLD /\ created_by NEW = created_by OLD /\
  created_at NEW = created_at OLD /\ updated_at NEW = now /\
  title NEW = or_else (p_title p) (title OLD) /\
  category_id NEW = or_keep (p_category_id p) (category_id OLD) /\
  assigned_to NEW = or_else (p_assigned_to p) (assigned_to OLD).
Proof.
  unfold update_row, Migrations.before_update, Migrations.set_completed_at.
  destruct (_ && _); [cbn; tauto|]. destruct (negb _); cbn; tauto.
Qed.

(** [id] is the primary key of [tasks]. *)
Definition primary_key (d : db) : Prop := NoDup (map id (tasks d)).

(** The foreign keys of a row of [tasks] hold in [d]. *)
Definition references_ok (d : db) (t : task) : Prop :=
  user_exists d (created_by t) = true /\
  taskSchemas.optional (user_exists d) (assigned_to t) = true /\
  taskSchemas.optional (category_exists d) (category_id t) = true.

Definition store_ok (d : db) : Prop :=
  primary_key d /\ Forall (references_ok d) (tasks d).

Lemma filter_primary_key (f : task -> bool) l t :
  NoDup (map id l) -> In t l -> f t = true ->
  filter (fun x => eq_id (id t) x && f x) l = [t].
Proof.
  induction l as [|x l IH]; intros N I F; [destruct I|].
  cbn [map] in N. apply NoDup_cons_iff in N. destruct N as [Nx Nl].
  cbn [filter]. destruct I as [->|I].
  - unfold eq_id at 1. rewrite N.eqb_refl, F. cbn [andb]. f_equal.
    apply filter_nil_forall. intros y Iy. apply andb_false_iff. left.
    unfold eq_id. apply N.eqb_neq. intros E. apply Nx. rewrite <- E.
    now apply in_map.
  - replace (eq_id (id t) x) with false.
    + now apply IH.
    + symmetry. unfold eq_id. apply N.eqb_neq. intros E. apply Nx. rewrite E.
      now apply in_map.
Qed.

Lemma map_update_keeps (B : Type) (g : task -> B) now p (flt : task -> bool) l :
  (forall t, g (update_row now p t) = g t) ->
  map g (map (fun t => if flt t then update_row now p t else t) l) = map g l.
Proof.
  intros H. rewrite map_map. apply map_ext. intros t.
  destruct (flt t); [apply H|reflexivity].
Qed.

(** ** Create, then read *)

(** X1.  A task that [POST /tasks] answers with 201 is the last row of the
    table; it carries the fresh id, the caller as [created_by] and the time of
    the request as [created_at] and [updated_at]; and [GET /tasks/:id] by the
    creator answers 200 with that same task. *)
Theorem post_task_then_get_task now new_id caller body d d' v m :
  Tasks.post_task now new_id caller body d = (d', Success 201 v m) ->
  tasks d' = tasks d ++ [row v] /\
  id (row v) = new_id /\ created_by (row v) = caller /\
  created_at (row v) = now /\ updated_at (row v) = now /\
  Tasks.get_task caller new_id d' = Success 200 v None.
Proof.
  unfold Tasks.post_task. intros H.
  destruct (taskSchemas.create body) as [f|]; [|discriminate].
  destruct (negb _); [discriminate|].
  unfold pg_insert in H.
  destruct (f_title f) as [t|]; [|discriminate].
  destruct (existsb (eq_id new_id) (tasks d)) eqn:E; [discriminate|].
  destruct (negb _); [discriminate|].
  inversion H; subst; clear H. cbn [row join_category tasks with_tasks].
  repeat split.
  unfold Tasks.get_task. cbn [tasks with_tasks]. rewrite filter_app.
  replace (filter _ (tasks d)) with (@nil task).
  - cbn [filter app]. unfold eq_id at 1, or_created_assigned.
    cbn [id created_by insert_row]. rewrite !N.eqb_refl. reflexivity.
  - symmetry. apply filter_nil_forall. intros x I. apply andb_false_iff. left.
    apply filter_nil_existsb in E.
    destruct (eq_id new_id x) eqn:Q; [|reflexivity].
    assert (In x (filter (eq_id new_id) (tasks d))) as J
      by (apply filter_In; now split).
    rewrite E in J. destruct J.
Qed.

Lemma post_task_then_get_task_witness :
  exists d' v,
    Tasks.post_task 1000 12%N Sample.alice (Sample.retitle "Plan") Sample.store
      = (d', Success 201 v None) /\
    Tasks.get_task Sample.alice 12%N d' = Success 200 v None.
Proof.
  eexists. eexists. split; [reflexivity|].
  exact (proj2 (proj2 (proj2 (proj2 (proj2
    (@post_task_then_get_task 1000 12%N Sample.alice (Sample.retitle "Plan")
       Sample.store _ _ None eq_refl)))))).
Defined.

(** ** Requests that fail, and what every request keeps *)

Lemma update_single_error_keeps now p flt d d' e :
  update_single now p flt d = (d', inl e) -> d' = d.
Proof.
  unfold update_single. destruct (pg_update now p flt d) as [e'|[d'' [|x [|y l]]]];
    intros H; inversion H; reflexivity.
Qed.

(** X2.  A request to a mutating task route that is not answered with
    success leaves the database exactly as it was. *)
Theorem failed_task_request_changes_nothing now new_id caller i body a st d :
  (succeeded (snd (Tasks.post_task now new_id caller body d)) = false ->
   fst (Tasks.post_task now new_id caller body d) = d) /\
  (succeeded (snd (Tasks.put_task now caller i body d)) = false ->
   fst (Tasks.put_task now caller i body d) = d) /\
  (succeeded (snd (Tasks.delete_task caller i d)) = false ->
   fst (Tasks.delete_task caller i d) = d) /\
  (succeeded (snd (Tasks.patch_assign now caller i a d)) = false ->
   fst (Tasks.patch_assign now caller i a d) = d) /\
  (succeeded (snd (Tasks.patch_status now caller i st d)) = false ->
   fst (Tasks.patch_status now caller i st d) = d).
Proof.
  split; [|split; [|split; [|split]]].
  - unfold Tasks.post_task.
    destruct (taskSchemas.create body) as [f|]; [|reflexivity].
    destruct (negb _); [reflexivity|].
    destruct (pg_insert now new_id caller f d) as [e|[d' t]];
      [reflexivity|discriminate].
  - unfold Tasks.put_task.
    destruct (taskSchemas.update body) as [f|]; [|reflexivity].
    destruct (negb _); [reflexivity|].
    destruct (update_single _ _ _ _) as [d' [e|t]] eqn:U; [|discriminate].
    apply update_single_error_keeps in U. subst.
    destruct (pg_error_eqb e PGRST116); reflexivity.
  - unfold Tasks.delete_task. destruct (single _); [reflexivity|discriminate].
  - unfold Tasks.patch_assign. destruct a as [|u|s]; cbv beta zeta;
      [| |reflexivity];
      (destruct (update_single _ _ _ _) as [d' [e|t]] eqn:U; [|discriminate]);
      apply update_single_error_keeps in U; now subst.
  - unfold Tasks.patch_status.
    destruct (match st with Some s => parse_status s | None => None end);
      [|reflexivity].
    destruct (update_single _ _ _ _) as [d' [e|t]] eqn:U; [|discriminate].
    apply update_single_error_keeps in U. now subst.
Qed.

Lemma references_ok_with_tasks d ts t :
  references_ok (with_tasks d ts) t <-> references_ok d t.
Proof. reflexivity. Qed.

Lemma update_row_references now p d t :
  fk_patch_ok d p = true -> references_ok d t ->
  references_ok d (update_row now p t).
Proof.
  unfold references_ok, fk_patch_ok. intros F (C & A & K).
  destruct (update_row_fields now p t) as (_ & -> & _ & _ & _ & -> & ->).
  apply andb_true_iff in F. destruct F as [F1 F2].
  split; [exact C|]. split.
  - destruct (p_assigned_to p) as [[u|]|]; cbn; auto.
  - destruct (p_category_id p) as [c|]; cbn; auto.
Qed.

Lemma update_single_store_ok now p flt d :
  store_ok d -> store_ok (fst (update_single now p flt d)).
Proof.
  intros [PK FK]. destruct (update_single now p flt d) as [d' [e|t']] eqn:U.
  - apply update_single_error_keeps in U. subst. now split.
  - apply update_single_ok_inv in U. destruct U as (t & _ & _ & -> & F).
    cbn [fst]. split.
    + unfold primary_key, updated_tasks. cbn [tasks with_tasks].
      rewrite map_update_keeps; [exact PK|].
      intros x. apply (update_row_fields now p x).
    + unfold updated_tasks. cbn [tasks with_tasks].
      apply Forall_forall. intros x I. apply in_map_iff in I.
      destruct I as (y & <- & I). rewrite Forall_forall in FK.
      apply references_ok_with_tasks.
      destruct (flt y); [apply update_row_references|]; auto.
Qed.

(** X3.  The task routes keep the table within its constraints: if [id] is
    a key and every [created_by], [assigned_to] and [category_id] refers to
    an existing row, the same holds after any request, whatever its
    answer. *)
Theorem task_routes_keep_constraints now new_id caller i body a st d :
  store_ok d ->
  store_ok (fst (Tasks.post_task now new_id caller body d)) /\
  store_ok (fst (Tasks.put_task now caller i body d)) /\
  store_ok (fst (Tasks.delete_task caller i d)) /\
  store_ok (fst (Tasks.patch_assign now caller i a d)) /\
  store_ok (fst (Tasks.patch_status now caller i st d)).
Proof.
  intros OK. split; [|split; [|split; [|split]]].
  - unfold Tasks.post_task.
    destruct (taskSchemas.create body) as [f|]; [|exact OK].
    destruct (negb _); [exact OK|].
    unfold pg_insert. destruct (f_title f) as [t|]; [|exact OK].
    destruct (existsb (eq_id new_id) (tasks d)) eqn:E; [exact OK|].
    destruct (negb (fk_insert_ok d caller f)) eqn:F; [exact OK|].
    cbn [fst]. destruct OK as [PK FK]. split.
    + unfold primary_key. cbn [tasks with_tasks]. rewrite map_app.
      apply NoDup_app; [exact PK|repeat constructor; intros []|].
      intros x I [<-|[]]. apply in_map_iff in I. destruct I as (y & Ey & Iy).
      apply filter_nil_existsb in E.
      assert (In y (filter (eq_id new_id) (tasks d))) as J.
      { apply filter_In. split; [exact Iy|]. now apply eq_id_true. }
      rewrite E in J. destruct J.
    + cbn [tasks with_tasks]. apply Forall_app. split.
      * eapply Forall_impl; [|exact FK]. intros x. now apply references_ok_with_tasks.
      * constructor; [|constructor]. apply references_ok_with_tasks.
        apply negb_false_iff in F. unfold fk_insert_ok in F.
        apply andb_true_iff in F. destruct F as [F F3].
        apply andb_true_iff in F. destruct F as [F1 F2].
        now repeat split.
  - unfold Tasks.put_task.
    destruct (taskSchemas.update body) as [f|]; [|exact OK].
    destruct (negb _); [exact OK|].
    pose proof (@update_single_store_ok now (Tasks.patch_of_fields f)
                  (fun t => eq_id i t && or_created_assigned caller t) d OK) as U.
    destruct (update_single _ _ _ _) as [d' [e|t]]; cbn [fst] in *;
      [destruct (pg_error_eqb e PGRST116)|]; exact U.
  - unfold Tasks.delete_task. destruct (single _); [exact OK|]. cbn [fst].
    destruct OK as [PK FK]. split.
    + unfold primary_key, pg_delete. cbn [tasks with_tasks].
      unfold primary_key in PK. clear FK.
      induction (tasks d) as [|x l IH]; cbn [filter map]; [constructor|].
      cbn [map] in PK. apply NoDup_cons_iff in PK. destruct PK as [Nx Nl].
      destruct (negb _); [|now apply IH]. cbn [map]. constructor; [|now apply IH].
      intros I. apply Nx. apply in_map_iff in I. destruct I as (y & E & I).
      apply filter_In in I. rewrite <- E. apply in_map. tauto.
    + unfold pg_delete. cbn [tasks with_tasks]. apply Forall_forall.
      intros x I. apply filter_In in I. rewrite Forall_forall in FK.
      apply references_ok_with_tasks. now apply FK.
  - unfold Tasks.patch_assign. destruct a as [|u|s]; cbv beta zeta; [| |exact OK].
    + pose proof (@update_single_store_ok now
                    (mkPatch None None None None None None (Some None))
                    (fun t => eq_id i t && eq_created_by caller t) d OK) as U.
      destruct (update_single _ _ _ _) as [d' [e|t]]; exact U.
    + pose proof (@update_single_store_ok now
                    (mkPatch None None None None None None (Some (Some u)))
                    (fun t => eq_id i t && eq_created_by caller t) d OK) as U.
      destruct (update_single _ _ _ _) as [d' [e|t]]; exact U.
  - unfold Tasks.patch_status.
    destruct (match st with Some s => parse_status s | None => None end) as [s|];
      [|exact OK].
    pose proof (@update_single_store_ok now
                  (mkPatch None None (Some s) None None None None)
                  (fun t => eq_id i t && or_created_assigned caller t) d OK) as U.
    destruct (update_single _ _ _ _) as [d' [e|t]]; exact U.
Qed.

Lemma sample_store_ok : store_ok Sample.store.
Proof.
  split.
  - unfold primary_key. cbn. repeat constructor; cbn; intuition discriminate.
  - repeat constructor.
Qed.

Lemma task_routes_keep_constraints_witness :
  store_ok (fst (Tasks.post_task 1000 12%N Sample.alice (Sample.retitle "Plan")
                   Sample.store)) /\
  store_ok (fst (Tasks.patch_assign 2000 Sample.alice 10%N
                   (Tasks.AssignUuid Sample.carol) Sample.store)).
Proof.
  destruct (@task_routes_keep_constraints 1000 12%N Sample.alice 10%N
              (Sample.retitle "Plan") (Tasks.AssignUuid Sample.carol) None
              Sample.store sample_store_ok) as (P & _ & _ & _ & _).
  destruct (@task_routes_keep_constraints 2000 12%N Sample.alice 10%N
              (Sample.retitle "Plan") (Tasks.AssignUuid Sample.carol) None
              Sample.store sample_store_ok) as (_ & _ & _ & A & _).
  split; assumption.
Defined.

(** ** Categories of tasks *)

Lemma own_category_true d caller c :
  Tasks.own_category d caller c = true ->
  exists k, In k (categories d) /\ cat_id k = c /\ cat_user_id k = caller.
Proof.
  unfold Tasks.own_category. destruct (single _) as [e|k] eqn:S; [discriminate|].
  intros _. apply single_inr, filter_singleton_In in S. destruct S as [I F].
  apply andb_true_iff in F. destruct F as [F1 F2].
  exists k. repeat split; [exact I| |]; now apply N.eqb_eq.
Qed.

(** X4.  A category written to a task belongs to the caller of the request
    that writes it: the category of a created task is one of the creator's,
    and a category set through [PUT /tasks/:id] is one of the caller's, who
    may be the assignee rather than the creator. *)
Theorem task_category_belongs_to_caller now new_id caller i body d d' v m :
  (Tasks.post_task now new_id caller body d = (d', Success 201 v m) ->
   forall c, category_id (row v) = Some c ->
     exists k, In k (categories d) /\ cat_id k = c /\ cat_user_id k = caller) /\
  (Tasks.put_task now caller i body d = (d', Success 200 v m) ->
   forall c, b_category_id body = Some c ->
     category_id (row v) = Some c /\
     exists k, In k (categories d) /\ cat_id k = c /\ cat_user_id k = caller).
Proof.
  split.
  - unfold Tasks.post_task. intros H c C.
    destruct (taskSchemas.create body) as [f|]; [|discriminate].
    destruct (negb _) eqn:O; [discriminate|]. apply negb_false_iff in O.
    unfold pg_insert in H. destruct (f_title f) as [t|]; [|discriminate].
    destruct (existsb _ _); [discriminate|].
    destruct (negb _); [discriminate|].
    inversion H; subst; clear H. cbn [row join_category insert_row category_id] in C.
    rewrite C in O. now apply own_category_true.
  - unfold Tasks.put_task. intros H c C.
    destruct (taskSchemas.update body) as [f|] eqn:V; [|discriminate].
    assert (F : f_category_id f = Some c).
    { unfold taskSchemas.update in V.
      destruct (taskSchemas.optional_valid parse_status _); [|discriminate].
      destruct (taskSchemas.optional_valid parse_priority _); [|discriminate].
      destruct (_ && _); [|discriminate]. inversion V. exact C. }
    destruct (negb _) eqn:O; [discriminate|]. apply negb_false_iff in O.
    rewrite F in O. cbn [taskSchemas.optional] in O.
    destruct (update_single _ _ _ _) as [d2 [e|t']] eqn:U.
    + destruct (pg_error_eqb e PGRST116); discriminate.
    + inversion H; subst; clear H. cbn [row join_category].
      apply update_single_ok_inv in U. destruct U as (t & _ & -> & _).
      split; [|now apply own_category_true].
      destruct (update_row_fields now (Tasks.patch_of_fields f) t)
        as (_ & _ & _ & _ & _ & -> & _).
      cbn [Tasks.patch_of_fields p_category_id]. now rewrite F.
Qed.

Definition filed_under_work : task_body :=
  mkBody (Some "Budget"%string) None None None None (Some 50%N) None [].

Lemma task_category_belongs_to_caller_witness :
  exists k, In k (categories Sample.store) /\ cat_id k = 50%N /\
            cat_user_id k = Sample.alice.
Proof.
  refine (proj1 (@task_category_belongs_to_caller 1000 12%N Sample.alice 10%N
                   filed_under_work Sample.store _ _ None) eq_refl 50%N eq_refl).
Defined.

(** ** What an update cannot touch *)

(** X5.  Whatever its answer, a request to [PUT /tasks/:id],
    [PATCH /tasks/:id/assign] or [PATCH /tasks/:id/status] adds and removes
    no row, changes no [id], [created_by] or [created_at], leaves users and
    categories alone, and keeps every row with another id as it is. *)
Theorem task_updates_keep_identity now caller i body a st d :
  forall d',
    d' = fst (Tasks.put_task now caller i body d) \/
    d' = fst (Tasks.patch_assign now caller i a d) \/
    d' = fst (Tasks.patch_status now caller i st d) ->
    map id (tasks d') = map id (tasks d) /\
    map created_by (tasks d') = map created_by (tasks d) /\
    map created_at (tasks d') = map created_at (tasks d) /\
    users d' = users d /\ categories d' = categories d /\
    (forall t, In t (tasks d) -> id t <> i -> In t (tasks d')).
Proof.
  assert (G : forall p flt,
    (forall t, flt t = true -> id t = i) ->
    let d' := fst (update_single now p flt d) in
    map id (tasks d') = map id (tasks d) /\
    map created_by (tasks d') = map created_by (tasks d) /\
    map created_at (tasks d') = map created_at (tasks d) /\
    users d' = users d /\ categories d' = categories d /\
    (forall t, In t (tasks d) -> id t <> i -> In t (tasks d'))).
  { intros p flt Hf. destruct (update_single now p flt d) as [d' [e|t']] eqn:U.
    - apply update_single_error_keeps in U. subst. cbn. tauto.
    - apply update_single_ok_inv in U. destruct U as (t & _ & _ & -> & _).
      cbn [fst updated_tasks tasks with_tasks users categories].
      repeat split; try (apply map_update_keeps; intros x;
                         apply (update_row_fields now p x)).
      intros x I Ne. apply in_map_iff. exists x. split; [|exact I].
      destruct (flt x) eqn:Fx; [|reflexivity]. elim Ne. now apply Hf. }
  assert (K : map id (tasks d) = map id (tasks d) /\
    map created_by (tasks d) = map created_by (tasks d) /\
    map created_at (tasks d) = map created_at (tasks d) /\
    users d = users d /\ categories d = categories d /\
    (forall t, In t (tasks d) -> id t <> i -> In t (tasks d))) by tauto.
  assert (Fid : forall (g : task -> bool) t, eq_id i t && g t = true -> id t = i).
  { intros g t H. apply andb_true_iff in H. now apply eq_id_true. }
  intros d' [-> | [-> | ->]].
  - unfold Tasks.put_task.
    destruct (taskSchemas.update body) as [f|]; [|exact K].
    destruct (negb _); [exact K|].
    specialize (G (Tasks.patch_of_fields f)
                  (fun t => eq_id i t && or_created_assigned caller t)
                  (Fid (or_created_assigned caller))).
    destruct (update_single _ _ _ _) as [d' [e|t]]; cbn [fst] in *;
      [destruct (pg_error_eqb e PGRST116)|]; exact G.
  - unfold Tasks.patch_assign. destruct a as [|u|s]; cbv beta zeta; [| |exact K].
    + specialize (G (mkPatch None None None None None None (Some None))
                    (fun t => eq_id i t && eq_created_by caller t)
                    (Fid (eq_created_by caller))).
      destruct (update_single _ _ _ _) as [d' [e|t]]; exact G.
    + specialize (G (mkPatch None None None None None None (Some (Some u)))
                    (fun t => eq_id i t && eq_created_by caller t)
                    (Fid (eq_created_by caller))).
      destruct (update_single _ _ _ _) as [d' [e|t]]; exact G.
  - unfold Tasks.patch_status.
    destruct (match st with Some s => parse_status s | None => None end) as [s|];
      [|exact K].
    specialize (G (mkPatch None None (Some s) None None None None)
                  (fun t => eq_id i t && or_created_assigned caller t)
                  (Fid (or_created_assigned caller))).
    destruct (update_single _ _ _ _) as [d' [e|t]]; exact G.
Qed.

Lemma task_updates_keep_identity_witness :
  map created_by
      (tasks (fst (Tasks.put_task 2000 Sample.bob 10%N (Sample.retitle "Edited")
                     Sample.store)))
    = [Sample.alice; Sample.alice].
Proof.
  exact (proj1 (proj2 (@task_updates_keep_identity 2000 Sample.bob 10%N
                         (Sample.retitle "Edited") Tasks.AssignNull None
                         Sample.store _ (or_introl eq_refl)))).
Defined.

(** ** Delete, status, assign: how the routes compose *)

Lemma primary_key_unique d x y :
  primary_key d -> In x (tasks d) -> In y (tasks d) -> id x = id y -> x = y.
Proof.
  unfold primary_key. induction (tasks d) as [|a l IH]; intros PK Ix Iy E;
    [destruct Ix|].
  cbn [map] in PK. apply NoDup_cons_iff in PK. destruct PK as [Na Nl].
  destruct Ix as [->|Ix], Iy as [->|Iy]; auto.
  - elim Na. rewrite E. now apply in_map.
  - elim Na. rewrite <- E. now apply in_map.
Qed.

(** X6.  After a DELETE answered with success the table has lost the rows
    with that id and no other, and [GET /tasks/:id] answers 404 for that id
    to every caller, the former assignee included. *)
Theorem delete_task_then_get_task caller i d d' m :
  primary_key d ->
  Tasks.delete_task caller i d = (d', Success 200 tt m) ->
  tasks d' = filter (fun t => negb (eq_id i t)) (tasks d) /\
  users d' = users d /\ categories d' = categories d /\
  forall u, Tasks.get_task u i d' = Failure 404 msg_not_found.
Proof.
  intros PK H. unfold Tasks.delete_task in H.
  destruct (single _) as [e|t] eqn:S; [discriminate|].
  inversion H; subst; clear H.
  apply single_inr, filter_singleton_In in S. destruct S as [I F].
  apply andb_true_iff in F. destruct F as [F1 F2].
  assert (T : tasks (pg_delete (fun x => eq_id i x && eq_created_by caller x) d)
              = filter (fun x => negb (eq_id i x)) (tasks d)).
  { unfold pg_delete. cbn [tasks with_tasks]. apply filter_ext_in.
    intros x Ix. destruct (eq_id i x) eqn:Q; [|reflexivity].
    apply eq_id_true in Q, F1.
    rewrite (@primary_key_unique d x t PK Ix I) by congruence.
    now rewrite F2. }
  repeat split; try exact T.
  intros u. unfold Tasks.get_task. rewrite T.
  rewrite filter_nil_forall; [reflexivity|].
  intros x Ix. apply filter_In in Ix. destruct Ix as [_ Ix].
  apply negb_true_iff in Ix. now rewrite Ix.
Qed.

Lemma sample_primary_key : primary_key Sample.store.
Proof. exact (proj1 sample_store_ok). Qed.

Lemma delete_task_then_get_task_witness :
  exists d',
    Tasks.delete_task Sample.alice 10%N Sample.store
      = (d', Success 200 tt (Some "Task deleted successfully"%string)) /\
    tasks d' = [Sample.notes] /\
    Tasks.get_task Sample.bob 10%N d' = Failure 404 msg_not_found.
Proof.
  eexists. split; [reflexivity|].
  destruct (@delete_task_then_get_task Sample.alice 10%N Sample.store _ _
              sample_primary_key eq_refl) as (T & _ & _ & G).
  split; [exact T|exact (G Sample.bob)].
Defined.

Lemma visible_filter d caller t :
  primary_key d -> In t (tasks d) -> visible_to caller t ->
  filter (fun x => eq_id (id t) x && or_created_assigned caller x) (tasks d) = [t].
Proof.
  intros PK I V. apply filter_primary_key; [exact PK|exact I|].
  now apply or_created_assigned_true.
Qed.

Definition msg_status_updated : string := "Task status updated successfully".

(** X7.  A status change by the creator or the assignee of a task, with one
    of the three status values, is answered 200 with the new status and
    [updated_at] at the time of the request.  [completed_at] is then: the
    time of the request when the task becomes completed; NULL when the new
    status is not [completed]; and what it was when a completed task is set
    to [completed] again. *)
Theorem patch_status_stamps now caller d t s st :
  primary_key d -> In t (tasks d) -> visible_to caller t ->
  parse_status s = Some st ->
  exists d' v,
    Tasks.patch_status now caller (id t) (Some s) d
      = (d', Success 200 v (Some msg_status_updated)) /\
    In (row v) (tasks d') /\ id (row v) = id t /\
    task_status (row v) = st /\ updated_at (row v) = now /\
    (st <> completed -> completed_at (row v) = None) /\
    (st = completed -> task_status t <> completed ->
       completed_at (row v) = Some now) /\
    (st = completed -> task_status t = completed ->
       completed_at (row v) = completed_at t).
Proof.
  intros PK I V P. unfold Tasks.patch_status. rewrite P.
  set (p := mkPatch None None (Some st) None None None None).
  rewrite (@update_single_one now p _ d t (visible_filter PK I V)).
  change (fk_patch_ok d p) with true. cbv iota.
  eexists. eexists. split; [reflexivity|]. cbn [row join_category].
  destruct (update_row_completed_at now p t) as (A & B & C & S).
  destruct (update_row_fields now p t) as (Ei & _ & _ & Eu & _).
  cbv zeta in *. cbn [p p_status or_else] in S.
  split; [|split; [exact Ei|split; [exact S|split; [exact Eu|]]]].
  - unfold updated_tasks. cbn [tasks with_tasks]. apply in_map_iff.
    exists t. split; [|exact I].
    replace (eq_id (id t) t && or_created_assigned caller t) with true;
      [reflexivity|].
    symmetry. apply andb_true_iff. split; [now apply eq_id_true|].
    now apply or_created_assigned_true.
  - repeat split.
    + intros Ne. apply B. now rewrite S.
    + intros -> Ne. now apply A.
    + intros -> E. now apply C.
Qed.

Lemma patch_status_stamps_witness :
  exists d' v,
    Tasks.patch_status 2000 Sample.bob 10%N (Some "completed"%string) Sample.store
      = (d', Success 200 v (Some msg_status_updated)) /\
    completed_at (row v) = Some 2000.
Proof.
  destruct (@patch_status_stamps 2000 Sample.bob Sample.store Sample.report
              "completed" completed sample_primary_key (or_introl eq_refl)
              (or_intror eq_refl) eq_refl)
    as (d' & v & E & _ & _ & _ & _ & _ & A & _).
  exists d', v. split; [exact E|]. apply A; [reflexivity|discriminate].
Defined.

(** X8.  When the creator assigns a task to a user, that user can from then
    on read the task and change its status; unless the user is the creator,
    a DELETE by them is still answered 404 and deletes nothing. *)
Theorem assign_grants_read_and_status now caller i u d d' v m :
  primary_key d ->
  Tasks.patch_assign now caller i (Tasks.AssignUuid u) d = (d', Success 200 v m) ->
  assigned_to (row v) = Some u /\
  Tasks.get_task u i d' = Success 200 v None /\
  (forall later s st,
     parse_status s = Some st ->
     succeeded (snd (Tasks.patch_status later u i (Some s) d')) = true) /\
  (u <> caller ->
   Tasks.delete_task u i d' = (d', Failure 404 msg_no_permission)).
Proof.
  intros PK H. unfold Tasks.patch_assign in H. cbv beta zeta in H.
  destruct (update_single _ _ _ _) as [d2 [e|t']] eqn:U; [discriminate|].
  inversion H; subst; clear H. cbn [row join_category].
  apply update_single_ok_inv in U. destruct U as (t & F & -> & -> & _).
  apply filter_singleton_In in F. destruct F as [I F].
  apply andb_true_iff in F. destruct F as [F1 F2].
  apply eq_id_true in F1. apply eq_created_by_true in F2. subst i.
  set (p := mkPatch None None None None None None (Some (Some u))) in *.
  set (flt := fun x => eq_id (id t) x && eq_created_by caller x) in *.
  destruct (update_row_fields now p t) as (Ei & Ec & _ & _ & _ & _ & Ea).
  cbv zeta in *. cbn [p p_assigned_to or_else] in Ea.
  assert (PK' : primary_key (updated_tasks now p flt d)).
  { unfold primary_key, updated_tasks. cbn [tasks with_tasks].
    rewrite map_update_keeps; [exact PK|].
    intros x. apply (update_row_fields now p x). }
  assert (I' : In (update_row now p t) (tasks (updated_tasks now p flt d))).
  { unfold updated_tasks. cbn [tasks with_tasks]. apply in_map_iff.
    exists t. split; [|exact I]. unfold flt, eq_id, eq_created_by.
    now rewrite F2, !N.eqb_refl. }
  assert (V : filter (fun x => eq_id (id t) x && or_created_assigned u x)
                     (tasks (updated_tasks now p flt d)) = [update_row now p t]).
  { rewrite <- Ei. apply visible_filter; [exact PK'|exact I'|].
    right. exact Ea. }
  split; [exact Ea|]. split; [|split].
  - unfold Tasks.get_task. now rewrite V.
  - intros later s st P. unfold Tasks.patch_status. rewrite P.
    rewrite (@update_single_one later _ _ _ _ V). reflexivity.
  - intros Ne. unfold Tasks.delete_task.
    rewrite filter_nil_forall; [reflexivity|].
    intros x Ix. apply andb_false_iff.
    destruct (eq_id (id t) x) eqn:Q; [right|now left].
    apply eq_id_true in Q.
    rewrite (@primary_key_unique _ x (update_row now p t) PK' Ix I')
      by congruence.
    unfold eq_created_by. rewrite Ec. apply N.eqb_neq. congruence.
Qed.

Lemma assign_grants_read_and_status_witness :
  exists d' v,
    Tasks.patch_assign 2000 Sample.alice 11%N (Tasks.AssignUuid Sample.carol)
      Sample.store = (d', Success 200 v (Some "Task assigned successfully"%string)) /\
    Tasks.get_task Sample.carol 11%N Sample.store = Failure 404 msg_not_found /\
    Tasks.get_task Sample.carol 11%N d' = Success 200 v None.
Proof.
  eexists. eexists. split; [reflexivity|]. split; [reflexivity|].
  exact (proj1 (proj2 (@assign_grants_read_and_status 2000 Sample.alice 11%N
                         Sample.carol Sample.store _ _ _ sample_primary_key eq_refl))).
Defined.

(** * Further properties of the task list *)

Definition items_of (r : response (list task_view * pagination)) : list task_view :=
  match r with
  | Success _ (items, _) _ => items
  | Failure _ _ => []
  end.

(** X9.  Every item of a list answer is a row of the table, joined with its
    category, that the caller created or is assigned and that passes every
    filter of the request; and the answer never holds more items than
    [total]. *)
Theorem list_items_are_visible_matches caller raw d q items pg :
  taskSchemas.query raw = Some q ->
  TaskList.get_tasks caller raw d (Success 200 (items, pg) None) ->
  (forall v, In v items ->
     In (row v) (tasks d) /\ visible_to caller (row v) /\
     filters_hold q (row v) /\ v = join_category d (row v)) /\
  Z.of_nat (List.length items) <= pg_total pg.
Proof.
  intros V H. destruct (@query_bounds raw q V) as (_ & _ & P & (L & _) & _).
  destruct (@get_tasks_ok caller raw d q items pg V H) as (sorted & [Perm _] & E).
  destruct (@respond_window d q _ sorted items pg P L E) as [W ->].
  split.
  - intros v I. apply In_nth_error in I. destruct I as [k I].
    rewrite W in I. destruct (Z.of_nat k <? limit q); [|discriminate].
    destruct (nth_error sorted _) as [x|] eqn:X; [|discriminate].
    inversion I; subst. cbn [row join_category].
    apply nth_error_In in X. apply (Permutation_in x (Permutation_sym Perm)) in X.
    apply filter_In in X. destruct X as [Ix M]. apply matches_spec in M.
    tauto.
  - cbn [pg_total]. rewrite (Permutation_length Perm).
    unfold TaskList.respond in E. inversion E. rewrite length_map. unfold range.
    rewrite length_firstn, length_skipn. lia.
Qed.

Lemma list_items_are_visible_matches_witness :
  exists items pg,
    TaskList.get_tasks Sample.bob list_everything Sample.store
      (Success 200 (items, pg) None) /\
    forall v, In v items -> visible_to Sample.bob (row v).
Proof.
  pose (q := mkQuery None None None None None None 1 10 by_created_at desc).
  pose (items := map (join_category Sample.store) [Sample.report]).
  assert (G : TaskList.get_tasks Sample.bob list_everything Sample.store
                (Success 200 (items, mkPagination 1 10 1 1) None)).
  { unfold TaskList.get_tasks. change (taskSchemas.query list_everything) with (Some q).
    left. split; [discriminate|].
    exists (TaskList.order_keeping_ties by_created_at desc
              (filter (TaskList.matches Sample.bob q) (tasks Sample.store))).
    split; [apply order_keeping_ties_ok|reflexivity]. }
  exists items, (mkPagination 1 10 1 1). split; [exact G|].
  intros v I.
  exact (proj1 (proj2 (proj1 (@list_items_are_visible_matches Sample.bob
                                list_everything Sample.store q _ _ eq_refl G) v I))).
Defined.

(** The request [q] for page [p]. *)
Definition with_page (q : task_query) (p : Z) : task_query :=
  mkQuery (v_status q) (v_priority q) (v_category_id q) (v_assigned_to q)
          (v_due_before q) (v_due_after q) p (limit q) (sort_by q) (sort_order q).

Lemma chunks_cover (A : Type) (L : nat) : forall n (l : list A),
  (List.length l <= n * L)%nat ->
  List.concat (map (fun k => firstn L (skipn (k * L) l)) (seq 0 n)) = l.
Proof.
  induction n as [|n IH]; intros l H.
  - destruct l; [reflexivity|cbn in H; lia].
  - cbn [seq map List.concat]. change (skipn (0 * L) l) with l.
    transitivity (firstn L l ++ skipn L l); [|apply firstn_skipn].
    f_equal. rewrite <- seq_shift, map_map.
    assert (H' : (List.length (skipn L l) <= n * L)%nat)
      by (rewrite length_skipn; cbn [Nat.mul] in H; lia).
    etransitivity; [|apply (IH (skipn L l) H')].
    f_equal. apply map_ext. intros k. f_equal. rewrite skipn_skipn.
    f_equal. cbn [Nat.mul]. lia.
Qed.

(** X10.  When the database returns the matching rows in the same order for
    every page, the items of pages 1, 2, ..., [pages], one after the other,
    are those rows, each once and in that order: no row is skipped or
    repeated between pages. *)
Theorem pages_cover_the_rows d q matching sorted :
  1 <= limit q ->
  List.length sorted = List.length matching ->
  List.concat (map (fun k => items_of (TaskList.respond d (with_page q (Z.of_nat k + 1))
                                    matching sorted))
              (seq 0 (Z.to_nat (TaskList.total_pages
                                  (Z.of_nat (List.length matching)) (limit q)))))
    = map (join_category d) sorted.
Proof.
  intros L E.
  pose proof (total_pages_spec (Z.of_nat (List.length matching)) L) as [_ T].
  set (n := TaskList.total_pages _ _) in *.
  assert (C : (List.length sorted <= Z.to_nat n * Z.to_nat (limit q))%nat) by nia.
  etransitivity;
    [|apply (f_equal (map (join_category d))
               (@chunks_cover _ (Z.to_nat (limit q)) (Z.to_nat n) sorted C))].
  rewrite concat_map, map_map. f_equal. apply map_ext. intros k.
  unfold TaskList.respond, items_of, range. cbn [page limit with_page].
  do 2 f_equal.
  - f_equal. lia.
  - f_equal. nia.
Qed.

Lemma pages_cover_the_rows_witness :
  let q := mkQuery None None None None None None 1 1 by_created_at desc in
  let rows := [Sample.report; Sample.notes] in
  items_of (TaskList.respond Sample.store (with_page q 1) rows rows)
  ++ items_of (TaskList.respond Sample.store (with_page q 2) rows rows)
    = map (join_category Sample.store) rows.
Proof.
  intros q rows.
  pose proof (@pages_cover_the_rows Sample.store q rows rows
                ltac:(cbn; lia) eq_refl) as H.
  revert H. vm_compute. intros H. exact H.
Defined.

(** * Further properties of the analytics routes *)

(** ** Counting by status and by priority *)

Lemma count_cons f t l :
  Analytics.count f (t :: l) = b2z (f t) + Analytics.count f l.
Proof.
  unfold Analytics.count. cbn [filter]. destruct (f t); cbn [b2z List.length]; lia.
Qed.

Lemma count_nonneg f l : 0 <= Analytics.count f l.
Proof. unfold Analytics.count. lia. Qed.

Lemma count_by_status (g : task -> bool) l :
  Analytics.count g l
    = Analytics.count (fun t => Analytics.has_status todo t && g t) l
      + Analytics.count (fun t => Analytics.has_status in_progress t && g t) l
      + Analytics.count (fun t => Analytics.has_status completed t && g t) l.
Proof.
  induction l as [|t l IH].
  - reflexivity.
  - rewrite !count_cons, IH.
    assert (H : b2z (g t)
                = b2z (Analytics.has_status todo t && g t)
                  + b2z (Analytics.has_status in_progress t && g t)
                  + b2z (Analytics.has_status completed t && g t)).
    { unfold Analytics.has_status. destruct (task_status t), (g t); reflexivity. }
    lia.
Qed.

Lemma count_by_priority (g : task -> bool) l :
  Analytics.count g l
    = Analytics.count (fun t => priority_eqb (task_priority t) high && g t) l
      + Analytics.count (fun t => priority_eqb (task_priority t) medium && g t) l
      + Analytics.count (fun t => priority_eqb (task_priority t) low && g t) l.
Proof.
  induction l as [|t l IH].
  - reflexivity.
  - rewrite !count_cons, IH.
    assert (H : b2z (g t)
                = b2z (priority_eqb (task_priority t) high && g t)
                  + b2z (priority_eqb (task_priority t) medium && g t)
                  + b2z (priority_eqb (task_priority t) low && g t)).
    { destruct (task_priority t), (g t); reflexivity. }
    lia.
Qed.

Lemma count_le (f g : task -> bool) l :
  (forall t, f t = true -> g t = true) -> Analytics.count f l <= Analytics.count g l.
Proof.
  intros H. induction l as [|t l IH].
  - reflexivity.
  - rewrite !count_cons. specialize (H t).
    destruct (f t), (g t); cbn [b2z]; try lia; discriminate (H eq_refl).
Qed.

Lemma count_ext (f g : task -> bool) l :
  (forall t, f t = g t) -> Analytics.count f l = Analytics.count g l.
Proof. intros H. unfold Analytics.count. now rewrite (filter_ext f g H). Qed.

(** X11.  In an overview, the three status counts add up to [total_tasks],
    [status_distribution] repeats them, [overdue_tasks] is at most the number
    of tasks not completed, and [completion_rate] lies between 0 and 100. *)
Theorem overview_counts_are_consistent now caller d :
  exists data,
    Analytics.overview now caller d = Success 200 data None /\
    Analytics.total_tasks data
      = Analytics.todo_tasks data + Analytics.in_progress_tasks data
        + Analytics.completed_tasks data /\
    Analytics.status_distribution data
      = (Analytics.todo_tasks data, Analytics.in_progress_tasks data,
         Analytics.completed_tasks data) /\
    0 <= Analytics.overdue_tasks data
      <= Analytics.todo_tasks data + Analytics.in_progress_tasks data /\
    (0 <= Analytics.completion_rate data <= 100)%Q.
Proof.
  eexists. split; [reflexivity|].
  cbn [Analytics.total_tasks Analytics.todo_tasks Analytics.in_progress_tasks
       Analytics.completed_tasks Analytics.status_distribution
       Analytics.overdue_tasks Analytics.completion_rate].
  pose proof (count_by_status (or_created_assigned caller) (tasks d)) as S.
  split; [exact S|]. split; [reflexivity|]. split.
  - split; [apply count_nonneg|].
    rewrite (count_by_status
               (fun t => Analytics.due_lt now t
                         && negb (Analytics.has_status completed t)
                         && or_created_assigned caller t) (tasks d)).
    replace (Analytics.count
               (fun t => Analytics.has_status completed t
                         && (Analytics.due_lt now t
                             && negb (Analytics.has_status completed t)
                             && or_created_assigned caller t)) (tasks d)) with 0.
    + rewrite Z.add_0_r. apply Z.add_le_mono; apply count_le; intros t;
        rewrite !andb_true_iff; tauto.
    + symmetry. unfold Analytics.count. rewrite filter_nil_forall; [reflexivity|].
      intros t _. destruct (Analytics.has_status completed t);
        cbn; now rewrite ?andb_false_r.
  - destruct (0 <? Analytics.count (or_created_assigned caller) (tasks d)) eqn:T.
    + apply round2_bounds, percentage_bounds; [|now apply Z.ltb_lt].
      split; [apply count_nonneg|]. rewrite S.
      pose proof (count_nonneg (fun t => Analytics.has_status todo t
                                         && or_created_assigned caller t) (tasks d)).
      pose proof (count_nonneg (fun t => Analytics.has_status in_progress t
                                         && or_created_assigned caller t) (tasks d)).
      lia.
    + apply round2_bounds. lra.
Qed.

(** X13.  In a productivity answer, [tasks_completed] is at most
    [tasks_created]; the [created] counts of the three priorities add up to
    [tasks_created] and their [completed] counts to [tasks_completed];
    [completion_rate] lies between 0 and 100. *)
Theorem productivity_counts_are_consistent now caller period d data :
  Analytics.productivity now caller period d (Success 200 data None) ->
  0 <= Analytics.tasks_completed data <= Analytics.tasks_created data /\
  (let '(h, m, l) := Analytics.priority_performance data in
   fst h + fst m + fst l = Analytics.tasks_created data /\
   snd h + snd m + snd l = Analytics.tasks_completed data) /\
  (0 <= Analytics.prod_completion_rate data <= 100)%Q.
Proof.
  intros H.
  destruct (Analytics.parse_period 7 period) as [n|] eqn:P.
  2:{ unfold Analytics.productivity in H. rewrite P in H. discriminate. }
  destruct (@productivity_ok _ _ _ _ _ _ P H) as (rows & _ & ->).
  cbn [Analytics.productivity_of Analytics.tasks_completed Analytics.tasks_created
       Analytics.priority_performance Analytics.prod_completion_rate
       Analytics.priority_stat fst snd].
  assert (T : Z.of_nat (List.length rows) = Analytics.count (fun _ => true) rows).
  { unfold Analytics.count. f_equal. f_equal. symmetry.
    apply forallb_filter_id. now apply forallb_forall. }
  assert (C : 0 <= Analytics.count (Analytics.has_status completed) rows
              <= Z.of_nat (List.length rows)).
  { split; [apply count_nonneg|]. rewrite T. now apply count_le. }
  split; [exact C|]. split; [split|].
  - rewrite T, (count_by_priority (fun _ => true) rows).
    f_equal; [f_equal|]; apply count_ext; intros t; now rewrite andb_true_r.
  - rewrite (count_by_priority (Analytics.has_status completed) rows). reflexivity.
  - destruct (0 <? Z.of_nat (List.length rows)) eqn:L.
    + apply percentage_bounds; [exact C|now apply Z.ltb_lt].
    + lra.
Qed.

Lemma productivity_counts_are_consistent_witness :
  exists data,
    Analytics.productivity 86400000 Sample.alice Analytics.PeriodAbsent
      SampleQuick.store (Success 200 data None) /\
    0 <= Analytics.tasks_completed data <= Analytics.tasks_created data.
Proof.
  assert (P : Analytics.productivity 86400000 Sample.alice Analytics.PeriodAbsent
                SampleQuick.store
                (Success 200 (Analytics.productivity_of 7 [SampleQuick.quick]) None)).
  { unfold Analytics.productivity. cbn [Analytics.parse_period].
    left. exists [SampleQuick.quick]. split; [apply Permutation_refl|reflexivity]. }
  eexists. split; [exact P|].
  exact (proj1 (@productivity_counts_are_consistent _ _ _ _ _ P)).
Defined.

(** ** [GET /analytics/overdue-tasks] *)

Module OverdueTasks.

(** The columns the route selects: [id, title, due_date, priority, status,
    category:categories(name, color)]. *)
Record overdue_row := mkOverdueRow {
  o_id : uuid;
  o_title : string;
  o_due_date : option timestamp;
  o_priority : priority;
  o_status : status;
  o_category : option (string * string)
}.

Definition select_row (d : db) (t : task) : overdue_row :=
  mkOverdueRow (id t) (title t) (due_date t) (task_priority t) (task_status t)
               (joined_category (join_category d t)).

(** The WHERE clause: [.lt('due_date', now).neq('status', 'completed')
    .or(created_by, assigned_to)]. *)
Definition is_overdue (now : timestamp) (caller : uuid) (t : task) : bool :=
  Analytics.due_lt now t && negb (Analytics.has_status completed t)
  && or_created_assigned caller t.

(** [priorityBreakdown = { high: 0, medium: 0, low: 0 }] *)
Record breakdown := mkBreakdown {
  bd_high : Z;
  bd_medium : Z;
  bd_low : Z
}.

(** [priorityBreakdown[task.priority]++] *)
Definition bump (b : breakdown) (p : priority) : breakdown :=
  match p with
  | high => mkBreakdown (bd_high b + 1) (bd_medium b) (bd_low b)
  | medium => mkBreakdown (bd_high b) (bd_medium b + 1) (bd_low b)
  | low => mkBreakdown (bd_high b) (bd_medium b) (bd_low b + 1)
  end.

Definition priorityBreakdown (rows : list overdue_row) : breakdown :=
  fold_left (fun b r => bump b (o_priority r)) rows (mkBreakdown 0 0 0).

(** [Math.floor((new Date() - new Date(task.due_date)) / (1000*60*60*24))],
    the clock being read at [at_time]; [new Date(null)] is the epoch. *)
Definition days_overdue (at_time : timestamp) (r : overdue_row) : Z :=
  (at_time - or_else (o_due_date r) 0) / (1000 * 60 * 60 * 24).

(** [overdueTasks.map(task => ({...task, days_overdue}))]: the callback for
    the row at index [k] reads the clock as [clock k]. *)
Fixpoint annotate (clock : nat -> timestamp) (k : nat) (rows : list overdue_row)
  : list (overdue_row * Z) :=
  match rows with
  | [] => []
  | r :: rest => (r, days_overdue (clock k) r) :: annotate clock (S k) rest
  end.

Record overdue_data := mkOverdue {
  total_overdue : Z;
  priority_breakdown : breakdown;
  overdue_tasks : list (overdue_row * Z)
}.

Definition overdue_of (clock : nat -> timestamp) (rows : list overdue_row)
  : overdue_data :=
  mkOverdue (Z.of_nat (List.length rows)) (priorityBreakdown rows)
            (annotate clock 0 rows).

(** [router.get('/overdue-tasks')]: the rows come ordered by [due_date],
    ascending. *)
Definition get_overdue_tasks (now : timestamp) (clock : nat -> timestamp)
  (caller : uuid) (d : db) (r : response overdue_data) : Prop :=
  exists rows,
    ordered_rows (fun x y => time_leb (due_date x) (due_date y))
                 (filter (is_overdue now caller) (tasks d)) rows /\
    r = Success 200 (overdue_of clock (map (select_row d) rows)) None.

End OverdueTasks.

Lemma priorityBreakdown_counts rows : forall b,
  let b' := fold_left (fun b r => OverdueTasks.bump b (OverdueTasks.o_priority r))
                      rows b in
  OverdueTasks.bd_high b' + OverdueTasks.bd_medium b' + OverdueTasks.bd_low b'
    = OverdueTasks.bd_high b + OverdueTasks.bd_medium b + OverdueTasks.bd_low b
      + Z.of_nat (List.length rows) /\
  OverdueTasks.bd_high b <= OverdueTasks.bd_high b' /\
  OverdueTasks.bd_medium b <= OverdueTasks.bd_medium b' /\
  OverdueTasks.bd_low b <= OverdueTasks.bd_low b'.
Proof.
  induction rows as [|r rows IH]; intros b; cbn [fold_left List.length].
  - cbv zeta. lia.
  - specialize (IH (OverdueTasks.bump b (OverdueTasks.o_priority r))).
    cbv zeta in *. destruct (OverdueTasks.o_priority r);
      cbn [OverdueTasks.bump] in *;
      cbn [OverdueTasks.bd_high OverdueTasks.bd_medium OverdueTasks.bd_low] in IH;
      lia.
Qed.

Lemma annotate_In clock rows : forall k r n,
  In (r, n) (OverdueTasks.annotate clock k rows) ->
  In r rows /\ exists j, n = OverdueTasks.days_overdue (clock j) r.
Proof.
  induction rows as [|x rows IH]; intros k r n I; [destruct I|].
  cbn [OverdueTasks.annotate] in I. destruct I as [E|I].
  - inversion E; subst. split; [now left|now exists k].
  - destruct (IH _ _ _ I) as [J X]. split; [now right|exact X].
Qed.

(** X12.  In an overdue-tasks answer the three priority counts are
    non-negative and add up to [total_overdue], which is the [overdue_tasks]
    of the overview taken at the same instant; every listed task has a due
    date before that instant and is not completed; and, the clock never
    running behind the instant of the query, every [days_overdue] is at
    least 0. *)
Theorem overdue_tasks_are_consistent now clock caller d data :
  (forall k, now <= clock k) ->
  OverdueTasks.get_overdue_tasks now clock caller d (Success 200 data None) ->
  let b := OverdueTasks.priority_breakdown data in
  OverdueTasks.bd_high b + OverdueTasks.bd_medium b + OverdueTasks.bd_low b
    = OverdueTasks.total_overdue data /\
  0 <= OverdueTasks.bd_high b /\ 0 <= OverdueTasks.bd_medium b /\
  0 <= OverdueTasks.bd_low b /\
  (forall o, Analytics.overview now caller d = Success 200 o None ->
             Analytics.overdue_tasks o = OverdueTasks.total_overdue data) /\
  (forall r n, In (r, n) (OverdueTasks.overdue_tasks data) ->
     (exists dd, OverdueTasks.o_due_date r = Some dd /\ dd < now) /\
     OverdueTasks.o_status r <> completed /\ 0 <= n).
Proof.
  intros Clock (rows & [Perm _] & E). inversion E; subst; clear E. cbv zeta.
  cbn [OverdueTasks.overdue_of OverdueTasks.priority_breakdown
       OverdueTasks.total_overdue OverdueTasks.overdue_tasks].
  destruct (priorityBreakdown_counts (map (OverdueTasks.select_row d) rows)
              (OverdueTasks.mkBreakdown 0 0 0)) as (S & H & M & L).
  cbv zeta in *. cbn [OverdueTasks.bd_high OverdueTasks.bd_medium
                      OverdueTasks.bd_low] in S, H, M, L.
  fold (OverdueTasks.priorityBreakdown (map (OverdueTasks.select_row d) rows))
    in S, H, M, L.
  split; [lia|]. split; [exact H|]. split; [exact M|]. split; [exact L|]. split.
  - intros o O. unfold Analytics.overview in O. inversion O; subst; clear O.
    cbn [Analytics.overdue_tasks]. unfold Analytics.count.
    rewrite length_map, <- (Permutation_length Perm). reflexivity.
  - intros r n I. apply annotate_In in I. destruct I as [I (j & ->)].
    apply in_map_iff in I. destruct I as (t & <- & I).
    apply (Permutation_in t (Permutation_sym Perm)) in I.
    apply filter_In in I. destruct I as [_ I]. unfold OverdueTasks.is_overdue in I.
    apply andb_true_iff in I. destruct I as [I _].
    apply andb_true_iff in I. destruct I as [I1 I2].
    apply due_lt_true in I1. apply negb_true_iff, has_status_false in I2.
    destruct I1 as (dd & Ed & Ld).
    cbn [OverdueTasks.select_row OverdueTasks.o_due_date OverdueTasks.o_status].
    split; [now exists dd|]. split; [exact I2|].
    unfold OverdueTasks.days_overdue.
    cbn [OverdueTasks.select_row OverdueTasks.o_due_date]. rewrite Ed.
    cbn [or_else]. apply Z.div_pos; [|lia]. specialize (Clock j). lia.
Qed.

Module SampleLate.

(** Due at instant 60, still to do. *)
Definition late : task :=
  mkTask 40%N "Late" None todo high (Some 60) None None Sample.alice None 10 10.

Definition store : db := mkDb [Sample.alice] [] [late].

End SampleLate.

Lemma overdue_tasks_are_consistent_witness :
  exists data,
    OverdueTasks.get_overdue_tasks 100 (fun _ => 100) Sample.alice
      SampleLate.store (Success 200 data None) /\
    OverdueTasks.total_overdue data = 1 /\
    OverdueTasks.bd_high (OverdueTasks.priority_breakdown data)
    + OverdueTasks.bd_medium (OverdueTasks.priority_breakdown data)
    + OverdueTasks.bd_low (OverdueTasks.priority_breakdown data) = 1.
Proof.
  assert (G : OverdueTasks.get_overdue_tasks 100 (fun _ => 100) Sample.alice
                SampleLate.store
                (Success 200
                   (OverdueTasks.overdue_of (fun _ => 100)
                      (map (OverdueTasks.select_row SampleLate.store)
                           [SampleLate.late])) None)).
  { exists [SampleLate.late]. split; [|reflexivity]. split.
    - apply Permutation_refl.
    - repeat constructor. }
  eexists. split; [exact G|]. split; [reflexivity|].
  exact (proj1 (@overdue_tasks_are_consistent 100 (fun _ => 100) Sample.alice
                  SampleLate.store _ (fun _ => Z.le_refl 100) G)).
Defined.

(** ** [GET /analytics/categories] *)

Module CategoryAnalytics.

Open Scope Q_scope.

Record category_stat := mkStat {
  cs_id : option uuid;
  cs_name : string;
  cs_color : string;
  cs_total_tasks : Z;
  cs_completed_tasks : Z;
  cs_in_progress_tasks : Z;
  cs_todo_tasks : Z;
  cs_completion_rate : Q
}.

(** The embedded [tasks:tasks(id, status)] of a category: the rows of
    [tasks] whose [category_id] is the category's id. *)
Definition tasks_of (d : db) (k : category) : list task :=
  filter (fun t => opt_uuid_is (category_id t) (cat_id k)) (tasks d).

(** The callback of [categoryStats.map]. *)
Definition stat_of (d : db) (k : category) : category_stat :=
  let totalTasks := Z.of_nat (List.length (tasks_of d k)) in
  let completedTasks := Analytics.count (Analytics.has_status completed) (tasks_of d k) in
  let inProgressTasks :=
    Analytics.count (Analytics.has_status in_progress) (tasks_of d k) in
  let todoTasks := Analytics.count (Analytics.has_status todo) (tasks_of d k) in
  mkStat (Some (cat_id k)) (cat_name k) (cat_color k)
         totalTasks completedTasks inProgressTasks todoTasks
         (if (0 <? totalTasks)%Z
          then Analytics.percentage completedTasks totalTasks else 0).

(** [.is('category_id', null).or(created_by, assigned_to)] *)
Definition uncategorized (caller : uuid) (t : task) : bool :=
  match category_id t with None => true | Some _ => false end
  && or_created_assigned caller t.

(** [if (uncategorizedTotal > 0) categoryAnalytics.push({...})] *)
Definition push_uncategorized (caller : uuid) (d : db)
  (categoryAnalytics : list category_stat) : list category_stat :=
  let uncategorizedTasks := filter (uncategorized caller) (tasks d) in
  let uncategorizedTotal := Z.of_nat (List.length uncategorizedTasks) in
  let uncategorizedCompleted :=
    Analytics.count (Analytics.has_status completed) uncategorizedTasks in
  if (0 <? uncategorizedTotal)%Z
  then categoryAnalytics ++
       [mkStat None "Uncategorized" "#6b7280" uncategorizedTotal
               uncategorizedCompleted
               (Analytics.count (Analytics.has_status in_progress) uncategorizedTasks)
               (Analytics.count (Analytics.has_status todo) uncategorizedTasks)
               (Analytics.percentage uncategorizedCompleted uncategorizedTotal)]
  else categoryAnalytics.

(** [(a, b) => b.total_tasks - a.total_tasks] is at most 0. *)
Definition by_total_desc (a b : category_stat) : bool :=
  (cs_total_tasks b - cs_total_tasks a <=? 0)%Z.

(** [router.get('/categories')]: the caller's categories come in an order of
    the database's choosing. *)
Definition get_categories (caller : uuid) (d : db)
  (r : response (list category_stat)) : Prop :=
  exists categoryStats,
    Permutation (filter (fun k => N.eqb (cat_user_id k) caller) (categories d))
                categoryStats /\
    r = Success 200
          (stable_sort by_total_desc
             (push_uncategorized caller d (map (stat_of d) categoryStats)))
          None.

End CategoryAnalytics.

Lemma length_as_count l : Z.of_nat (List.length l) = Analytics.count (fun _ => true) l.
Proof.
  unfold Analytics.count. do 2 f_equal. symmetry.
  apply forallb_filter_id. now apply forallb_forall.
Qed.

Lemma status_counts_add_up l :
  Z.of_nat (List.length l)
    = Analytics.count (Analytics.has_status todo) l
      + Analytics.count (Analytics.has_status in_progress) l
      + Analytics.count (Analytics.has_status completed) l.
Proof.
  rewrite length_as_count, (count_by_status (fun _ => true) l).
  f_equal; [f_equal|]; apply count_ext; intros t; now rewrite andb_true_r.
Qed.

(** What holds of each entry of the category analytics. *)
Definition stat_consistent (s : CategoryAnalytics.category_stat) : Prop :=
  CategoryAnalytics.cs_total_tasks s
    = CategoryAnalytics.cs_todo_tasks s + CategoryAnalytics.cs_in_progress_tasks s
      + CategoryAnalytics.cs_completed_tasks s /\
  0 <= CategoryAnalytics.cs_completed_tasks s <= CategoryAnalytics.cs_total_tasks s /\
  (0 <= CategoryAnalytics.cs_completion_rate s <= 100)%Q.

Lemma stat_consistent_of l (rate : Q) i n c :
  rate = (if 0 <? Z.of_nat (List.length l)
          then Analytics.percentage
                 (Analytics.count (Analytics.has_status completed) l)
                 (Z.of_nat (List.length l)) else 0)%Q ->
  stat_consistent
    (CategoryAnalytics.mkStat i n c (Z.of_nat (List.length l))
       (Analytics.count (Analytics.has_status completed) l)
       (Analytics.count (Analytics.has_status in_progress) l)
       (Analytics.count (Analytics.has_status todo) l) rate).
Proof.
  intros ->. unfold stat_consistent.
  cbn [CategoryAnalytics.cs_total_tasks CategoryAnalytics.cs_todo_tasks
       CategoryAnalytics.cs_in_progress_tasks CategoryAnalytics.cs_completed_tasks
       CategoryAnalytics.cs_completion_rate].
  pose proof (status_counts_add_up l) as S.
  pose proof (count_nonneg (Analytics.has_status todo) l).
  pose proof (count_nonneg (Analytics.has_status in_progress) l).
  pose proof (count_nonneg (Analytics.has_status completed) l).
  split; [exact S|]. split; [lia|].
  destruct (0 <? Z.of_nat (List.length l)) eqn:L.
  - apply percentage_bounds; [lia|now apply Z.ltb_lt].
  - lra.
Qed.

(** The entry pushed for the tasks without category. *)
Definition uncategorized_entry (caller : uuid) (d : db)
  : CategoryAnalytics.category_stat :=
  let u := filter (CategoryAnalytics.uncategorized caller) (tasks d) in
  CategoryAnalytics.mkStat None "Uncategorized" "#6b7280"
    (Z.of_nat (List.length u))
    (Analytics.count (Analytics.has_status completed) u)
    (Analytics.count (Analytics.has_status in_progress) u)
    (Analytics.count (Analytics.has_status todo) u)
    (Analytics.percentage (Analytics.count (Analytics.has_status completed) u)
                          (Z.of_nat (List.length u))).

Lemma push_uncategorized_eq caller d stats :
  CategoryAnalytics.push_uncategorized caller d stats
    = stats ++
      (if 0 <? Z.of_nat (List.length
                           (filter (CategoryAnalytics.uncategorized caller) (tasks d)))
       then [uncategorized_entry caller d] else []).
Proof.
  unfold CategoryAnalytics.push_uncategorized, uncategorized_entry. cbv zeta.
  destruct (0 <? _); [reflexivity|now rewrite app_nil_r].
Qed.

Lemma StronglySorted_weaken (A : Type) (R R' : A -> A -> Prop) l :
  (forall x y, R x y -> R' x y) -> StronglySorted R l -> StronglySorted R' l.
Proof.
  intros H. induction 1 as [|x l _ IH F]; constructor; [exact IH|].
  eapply Forall_impl; [|exact F]. intros y. apply H.
Qed.

(** X14.  In a category analytics answer: each entry's three status counts
    add up to its [total_tasks] and its [completion_rate] lies between 0 and
    100; entries come in non-increasing order of [total_tasks]; the entries
    with an id are those of the categories the caller owns; and the entry
    without id, "Uncategorized", is there exactly when the caller created or
    is assigned a task with no category. *)
Theorem category_analytics_are_consistent caller d data :
  CategoryAnalytics.get_categories caller d (Success 200 data None) ->
  Forall stat_consistent data /\
  StronglySorted (fun a b => CategoryAnalytics.cs_total_tasks b
                             <= CategoryAnalytics.cs_total_tasks a) data /\
  (forall c, (exists s, In s data /\ CategoryAnalytics.cs_id s = Some c) <->
             (exists k, In k (categories d) /\ cat_id k = c /\
                        cat_user_id k = caller)) /\
  ((exists s, In s data /\ CategoryAnalytics.cs_id s = None) <->
   (exists t, In t (tasks d) /\ category_id t = None /\ visible_to caller t)).
Proof.
  intros (rows & Perm & E). inversion E; subst; clear E.
  rewrite push_uncategorized_eq.
  set (unc := filter (CategoryAnalytics.uncategorized caller) (tasks d)).
  set (extra := if 0 <? Z.of_nat (List.length unc)
                then [uncategorized_entry caller d] else []).
  set (pushed := map (CategoryAnalytics.stat_of d) rows ++ extra).
  pose proof (stable_sort_perm CategoryAnalytics.by_total_desc pushed) as SP.
  assert (Mem : forall s, In s (stable_sort CategoryAnalytics.by_total_desc pushed)
                          <-> In s (map (CategoryAnalytics.stat_of d) rows)
                              \/ In s extra).
  { intros s. rewrite <- in_app_iff. split; intros I.
    - exact (Permutation_in s (Permutation_sym SP) I).
    - exact (Permutation_in s SP I). }
  assert (Unc : unc <> [] <->
            exists t, In t (tasks d) /\ category_id t = None /\ visible_to caller t).
  { split.
    - intros N. destruct unc as [|t u] eqn:U; [congruence|].
      assert (I : In t (filter (CategoryAnalytics.uncategorized caller) (tasks d)))
        by (fold unc; rewrite U; now left).
      apply filter_In in I. destruct I as [I F].
      unfold CategoryAnalytics.uncategorized in F.
      apply andb_true_iff in F. destruct F as [F1 F2].
      exists t. split; [exact I|]. split.
      + destruct (category_id t); [discriminate|reflexivity].
      + now apply or_created_assigned_true.
    - intros (t & I & C & V) N.
      assert (J : In t unc).
      { apply filter_In. split; [exact I|]. unfold CategoryAnalytics.uncategorized.
        rewrite C. now apply or_created_assigned_true. }
      rewrite N in J. destruct J. }
  assert (Ex : forall s, In s extra <-> unc <> [] /\ s = uncategorized_entry caller d).
  { intros s. unfold extra. destruct unc as [|t u].
    - cbn. split; [intros []|intros [N _]; congruence].
    - cbn [List.length]. replace (0 <? Z.of_nat (S (List.length u))) with true
        by (symmetry; apply Z.ltb_lt; lia).
      cbn [In]. split.
      + intros [<-|[]]. split; [discriminate|reflexivity].
      + intros [_ ->]. now left. }
  split; [|split; [|split]].
  - apply Forall_forall. intros s I. apply Mem in I. destruct I as [I|I].
    + apply in_map_iff in I. destruct I as (k & <- & _).
      now apply stat_consistent_of.
    + apply Ex in I. destruct I as [N ->]. apply stat_consistent_of. fold unc.
      replace (0 <? Z.of_nat (List.length unc)) with true; [reflexivity|].
      symmetry. apply Z.ltb_lt. destruct unc; [congruence|cbn [List.length]; lia].
  - eapply StronglySorted_weaken;
      [|apply (@stable_sort_sorted _ CategoryAnalytics.by_total_desc)].
    + intros x y H. unfold CategoryAnalytics.by_total_desc in H.
      apply Z.leb_le in H. lia.
    + intros x y. unfold CategoryAnalytics.by_total_desc.
      rewrite !Z.leb_le. lia.
    + intros x y z. unfold CategoryAnalytics.by_total_desc.
      rewrite !Z.leb_le. lia.
  - intros c. split.
    + intros (s & I & C). apply Mem in I. destruct I as [I|I].
      * apply in_map_iff in I. destruct I as (k & <- & I).
        apply (Permutation_in k (Permutation_sym Perm)) in I.
        apply filter_In in I. destruct I as [I U]. apply N.eqb_eq in U.
        exists k. cbn in C. inversion C. now repeat split.
      * apply Ex in I. destruct I as [_ ->]. discriminate.
    + intros (k & I & <- & U). exists (CategoryAnalytics.stat_of d k). split.
      * apply Mem. left. apply in_map. apply (Permutation_in k Perm).
        apply filter_In. split; [exact I|]. now apply N.eqb_eq.
      * reflexivity.
  - rewrite <- Unc. split.
    + intros (s & I & C). apply Mem in I. destruct I as [I|I].
      * apply in_map_iff in I. destruct I as (k & <- & _). discriminate.
      * apply Ex in I. tauto.
    + intros N. exists (uncategorized_entry caller d). split; [|reflexivity].
      apply Mem. right. apply Ex. now split.
Qed.

Lemma category_analytics_are_consistent_witness :
  exists data,
    CategoryAnalytics.get_categories Sample.alice Sample.store
      (Success 200 data None) /\
    Forall stat_consistent data /\
    exists s, In s data /\ CategoryAnalytics.cs_id s = None.
Proof.
  assert (G : CategoryAnalytics.get_categories Sample.alice Sample.store
                (Success 200
                   (stable_sort CategoryAnalytics.by_total_desc
                      (CategoryAnalytics.push_uncategorized Sample.alice Sample.store
                         (map (CategoryAnalytics.stat_of Sample.store) [Sample.work])))
                   None)).
  { exists [Sample.work]. split; [apply Permutation_refl|reflexivity]. }
  eexists. split; [exact G|].
  destruct (@category_analytics_are_consistent Sample.alice Sample.store _ G)
    as (F & _ & _ & U).
  split; [exact F|]. apply U. exists Sample.notes.
  split; [right; now left|]. split; [reflexivity|now left].
Defined.

(** * The category routes ([src/routes/categories.js]) *)

From Stdlib Require Import Ascii.

(** The rows of [categories] are modelled with their id, name, color and
    owner; [description] and the two timestamps are stored and returned by
    the routes but decide nothing in them. *)

Record category_body := mkCategoryBody {
  cb_name : option string;
  cb_description : option string;
  cb_color : option string;
  cb_unknown : list string
}.

Record category_fields := mkCategoryFields {
  cf_name : option string;
  cf_description : option string;
  cf_color : option string
}.

Module categorySchemas.

Definition is_hex_digit (c : ascii) : bool :=
  let n := nat_of_ascii c in
  (Nat.leb 48 n && Nat.leb n 57)          (* 0-9 *)
  || (Nat.leb 65 n && Nat.leb n 70)       (* A-F *)
  || (Nat.leb 97 n && Nat.leb n 102).     (* a-f, the pattern being /i *)

(** [Joi.string().pattern(/^#[0-9A-F]{6}$/i)] *)
Definition hex_color (s : string) : bool :=
  match s with
  | String "#"%char rest =>
      Nat.eqb (String.length rest) 6
      && forallb is_hex_digit (list_ascii_of_string rest)
  | _ => false
  end.

Definition no_unknown_keys (b : category_body) : bool :=
  match cb_unknown b with [] => true | _ => false end.

(** [categorySchemas.create]: [name] required. *)
Definition create (b : category_body) : option category_fields :=
  match cb_name b with
  | Some n =>
      if taskSchemas.string_between 1 100 n
         && taskSchemas.optional (taskSchemas.string_between 0 500) (cb_description b)
         && taskSchemas.optional hex_color (cb_color b)
         && no_unknown_keys b
      then Some (mkCategoryFields (Some n) (cb_description b) (cb_color b))
      else None
  | None => None
  end.

(** [categorySchemas.update]: every key optional. *)
Definition update (b : category_body) : option category_fields :=
  if taskSchemas.optional (taskSchemas.string_between 1 100) (cb_name b)
     && taskSchemas.optional (taskSchemas.string_between 0 500) (cb_description b)
     && taskSchemas.optional hex_color (cb_color b)
     && no_unknown_keys b
  then Some (mkCategoryFields (cb_name b) (cb_description b) (cb_color b))
  else None.

End categorySchemas.

(** ** Writes to [categories] (migration 002) *)

Definition with_categories (d : db) (cs : list category) : db :=
  mkDb (users d) cs (tasks d).

(** [color TEXT DEFAULT '#6366f1'] *)
Definition default_color : string := "#6366f1".

(** [UNIQUE(name, user_id)]: two rows clash when they agree on both. *)
Definition same_name_owner (a b : category) : bool :=
  String.eqb (cat_name a) (cat_name b) && N.eqb (cat_user_id a) (cat_user_id b).

(** [INSERT INTO categories (name, description, color, user_id)]: a clash on
    the primary key or on [UNIQUE(name, user_id)] is error 23505, an owner
    that is no user error 23503. *)
Definition category_insert (new_id caller : uuid) (f : category_fields) (d : db)
  : pg_error + (db * category) :=
  match cf_name f with
  | None => inl PG23502
  | Some n =>
      let k := mkCategory new_id n (or_else (cf_color f) default_color) caller in
      if existsb (fun o => N.eqb (cat_id o) new_id || same_name_owner o k)
                 (categories d)
      then inl PG23505
      else if negb (user_exists d caller) then inl PG23503
      else inr (with_categories d (categories d ++ [k]), k)
  end.

Definition set_category_columns (f : category_fields) (k : category) : category :=
  mkCategory (cat_id k) (or_else (cf_name f) (cat_name k))
             (or_else (cf_color f) (cat_color k)) (cat_user_id k).

(** [.update(updateData)...select().single()] on [categories]: with no row
    or several selected the answer is PGRST116 and nothing is written; with
    one, the new row must not clash with another row on
    [UNIQUE(name, user_id)]. *)
Definition category_update_single (f : category_fields) (flt : category -> bool)
  (d : db) : db * (pg_error + category) :=
  match filter flt (categories d) with
  | [k] =>
      let k' := set_category_columns f k in
      if existsb (fun o => negb (N.eqb (cat_id o) (cat_id k)) && same_name_owner o k')
                 (categories d)
      then (d, inl PG23505)
      else (with_categories d
              (map (fun o => if flt o then set_category_columns f o else o)
                   (categories d)),
            inr k')
  | _ => (d, inl PGRST116)
  end.

(** [category_id UUID REFERENCES categories(id) ON DELETE SET NULL]: the
    UPDATE that clears the reference runs the BEFORE UPDATE triggers of
    [tasks]. *)
Definition clear_category (now : timestamp) (t : task) : task :=
  Migrations.before_update now t
    (mkTask (id t) (title t) (description t) (task_status t) (task_priority t)
            (due_date t) (completed_at t) None (created_by t) (assigned_to t)
            (created_at t) (updated_at t)).

Definition refers_to (gone : list category) (t : task) : bool :=
  match category_id t with
  | Some c => existsb (fun k => N.eqb (cat_id k) c) gone
  | None => false
  end.

(** [DELETE FROM categories WHERE flt], with its effect on [tasks]. *)
Definition category_delete (now : timestamp) (flt : category -> bool) (d : db) : db :=
  let gone := filter flt (categories d) in
  mkDb (users d)
       (filter (fun k => negb (flt k)) (categories d))
       (map (fun t => if refers_to gone t then clear_category now t else t)
            (tasks d)).

Module Categories.

(** [.eq('id', id).eq('user_id', caller)] *)
Definition own (caller i : uuid) (k : category) : bool :=
  N.eqb (cat_id k) i && N.eqb (cat_user_id k) caller.

Definition msg_not_found : string := "Category not found".
Definition msg_name_exists : string := "Category name already exists".

(** [router.get('/:id')] *)
Definition get_category (caller i : uuid) (d : db) : response category :=
  match single (filter (own caller i) (categories d)) with
  | inl _ => Failure 404 msg_not_found
  | inr k => Success 200 k None
  end.

(** [router.post('/')] *)
Definition post_category (new_id caller : uuid) (body : category_body) (d : db)
  : db * response category :=
  match categorySchemas.create body with
  | None => (d, Failure 400 "Validation error")
  | Some f =>
      match category_insert new_id caller f d with
      | inl e =>
          if pg_error_eqb e PG23505
          then (d, Failure 400 msg_name_exists)
          else (d, Failure 500 "Failed to create category")
      | inr (d', k) => (d', Success 201 k None)
      end
  end.

(** [router.put('/:id')] *)
Definition put_category (caller i : uuid) (body : category_body) (d : db)
  : db * response category :=
  match categorySchemas.update body with
  | None => (d, Failure 400 "Validation error")
  | Some f =>
      match category_update_single f (own caller i) d with
      | (d', inr k) => (d', Success 200 k None)
      | (d', inl e) =>
          if pg_error_eqb e PGRST116 then (d', Failure 404 msg_not_found)
          else if pg_error_eqb e PG23505 then (d', Failure 400 msg_name_exists)
          else (d', Failure 500 "Failed to update category")
      end
  end.

(** [router.delete('/:id')]: the DELETE is not followed by [.single()], so
    selecting no row is no error. *)
Definition delete_category (now : timestamp) (caller i : uuid) (d : db)
  : db * response unit :=
  (category_delete now (own caller i) d,
   Success 200 tt (Some "Category deleted successfully"%string)).

(** [router.get('/:id/tasks')]: the SELECT is
    [*, category:categories(name, color)], every column of the task and the
    joined category, ordered by [created_at] descending. *)
Definition get_category_tasks (caller i : uuid) (d : db)
  (r : response (list task_view)) : Prop :=
  match single (filter (own caller i) (categories d)) with
  | inl _ => r = Failure 404 msg_not_found
  | inr _ =>
      exists rows,
        ordered_rows (fun x y => created_at y <=? created_at x)
          (filter (fun t => opt_uuid_is (category_id t) i
                            && or_created_assigned caller t) (tasks d))
          rows /\
        r = Success 200 (map (join_category d) rows) None
  end.

End Categories.

(** ** Names are unique per owner *)

Definition name_owner (k : category) : string * uuid := (cat_name k, cat_user_id k).

(** The two keys of [categories]: [id], and [(name, user_id)]. *)
Definition categories_ok (d : db) : Prop :=
  NoDup (map cat_id (categories d)) /\ NoDup (map name_owner (categories d)).

Lemma same_name_owner_true a b :
  same_name_owner a b = true <-> name_owner a = name_owner b.
Proof.
  unfold same_name_owner, name_owner. rewrite andb_true_iff, String.eqb_eq, N.eqb_eq.
  split; [intros [-> ->]; reflexivity|intros H; now inversion H].
Qed.

Lemma own_true caller i k :
  Categories.own caller i k = true <-> cat_id k = i /\ cat_user_id k = caller.
Proof. unfold Categories.own. now rewrite andb_true_iff, !N.eqb_eq. Qed.

Lemma NoDup_map_filter (A B : Type) (g : A -> B) (f : A -> bool) l :
  NoDup (map g l) -> NoDup (map g (filter f l)).
Proof.
  induction l as [|x l IH]; cbn [map filter]; intros H; [constructor|].
  apply NoDup_cons_iff in H. destruct H as [Nx Nl].
  destruct (f x); [|now apply IH]. cbn [map]. constructor; [|now apply IH].
  intros I. apply Nx. apply in_map_iff in I. destruct I as (y & E & I).
  apply filter_In in I. rewrite <- E. apply in_map. tauto.
Qed.

Lemma filter_singleton_split (A : Type) (f : A -> bool) l x :
  filter f l = [x] ->
  exists l1 l2, l = l1 ++ x :: l2 /\
                (forall y, In y l1 -> f y = false) /\
                (forall y, In y l2 -> f y = false).
Proof.
  induction l as [|a l IH]; cbn [filter]; intros H; [discriminate|].
  destruct (f a) eqn:Fa.
  - inversion H; subst. exists [], l. split; [reflexivity|]. split.
    + intros y [].
    + intros y Iy. destruct (f y) eqn:Fy; [|reflexivity].
      assert (In y (filter f l)) as J by (apply filter_In; now split).
      rewrite H2 in J. destruct J.
  - destruct (IH H) as (l1 & l2 & -> & H1 & H2).
    exists (a :: l1), l2. split; [reflexivity|]. split; [|exact H2].
    intros y [<-|Iy]; auto.
Qed.

Lemma map_replace_one (A : Type) (f : A -> bool) (upd : A -> A) l1 x l2 :
  f x = true ->
  (forall y, In y l1 -> f y = false) -> (forall y, In y l2 -> f y = false) ->
  map (fun o => if f o then upd o else o) (l1 ++ x :: l2) = l1 ++ upd x :: l2.
Proof.
  intros Fx H1 H2. rewrite map_app. cbn [map]. rewrite Fx. f_equal; [|f_equal].
  - rewrite <- (map_id l1) at 2. apply map_ext_in. intros y I. now rewrite H1.
  - rewrite <- (map_id l2) at 2. apply map_ext_in. intros y I. now rewrite H2.
Qed.

Lemma category_update_ok f flt d d' k' :
  category_update_single f flt d = (d', inr k') ->
  exists l1 k l2,
    categories d = l1 ++ k :: l2 /\ categories d' = l1 ++ k' :: l2 /\
    k' = set_category_columns f k /\ flt k = true /\
    users d' = users d /\ tasks d' = tasks d /\
    (forall o, In o (categories d) -> cat_id o <> cat_id k ->
               name_owner o <> name_owner k').
Proof.
  unfold category_update_single. intros H.
  destruct (filter flt (categories d)) as [|k [|k2 l]] eqn:F; try discriminate.
  destruct (existsb _ _) eqn:E; [discriminate|]. inversion H; subst; clear H.
  destruct (filter_singleton_In _ _ F) as [_ Fk].
  destruct (filter_singleton_split _ _ F) as (l1 & l2 & L & H1 & H2).
  exists l1, k, l2. cbn [categories users tasks with_categories].
  split; [exact L|]. split; [|split; [reflexivity|split; [exact Fk|]]].
  - rewrite L. now apply map_replace_one.
  - split; [reflexivity|]. split; [reflexivity|].
    intros o I Ne Eq.
    assert (X : existsb (fun o => negb (N.eqb (cat_id o) (cat_id k))
                                  && same_name_owner o (set_category_columns f k))
                        (categories d) = true).
    { apply existsb_exists. exists o. split; [exact I|].
      apply andb_true_iff. split.
      - apply negb_true_iff. now apply N.eqb_neq.
      - now apply same_name_owner_true. }
    congruence.
Qed.

Lemma category_update_error f flt d d' e :
  category_update_single f flt d = (d', inl e) -> d' = d.
Proof.
  unfold category_update_single.
  destruct (filter flt (categories d)) as [|k [|k2 l]];
    try (intros H; now inversion H).
  destruct (existsb _ _); intros H; now inversion H.
Qed.

(** X15.  The category routes keep both keys of the table: after a POST, a
    PUT or a DELETE of a category, whatever the answer, no two categories
    share an id and no two categories of one user share a name. *)
Theorem category_routes_keep_keys now new_id caller i body d :
  categories_ok d ->
  categories_ok (fst (Categories.post_category new_id caller body d)) /\
  categories_ok (fst (Categories.put_category caller i body d)) /\
  categories_ok (fst (Categories.delete_category now caller i d)).
Proof.
  intros [PK UN]. split; [|split].
  - unfold Categories.post_category.
    destruct (categorySchemas.create body) as [f|]; [|now split].
    unfold category_insert. destruct (cf_name f) as [n|]; [|now split].
    destruct (existsb _ _) eqn:E; [now split|].
    destruct (negb _); [now split|]. cbn [fst].
    set (k := mkCategory new_id n (or_else (cf_color f) default_color) caller) in *.
    assert (X : forall o, In o (categories d) ->
                  cat_id o <> new_id /\ name_owner o <> name_owner k).
    { intros o I. destruct (N.eqb (cat_id o) new_id || same_name_owner o k) eqn:Q.
      - assert (existsb (fun o => N.eqb (cat_id o) new_id || same_name_owner o k)
                        (categories d) = true) as Y
          by (apply existsb_exists; now exists o).
        congruence.
      - apply orb_false_iff in Q. destruct Q as [Q1 Q2]. split.
        + now apply N.eqb_neq.
        + intros Eq. apply same_name_owner_true in Eq. congruence. }
    unfold categories_ok. cbn [categories with_categories]. rewrite !map_app.
    split; (apply NoDup_app; [assumption|repeat constructor; intros []|]);
      intros x I [<-|[]]; apply in_map_iff in I; destruct I as (o & Eo & Io);
      destruct (X o Io) as [X1 X2]; [now apply X1|now apply X2].
  - unfold Categories.put_category.
    destruct (categorySchemas.update body) as [f|]; [|now split].
    destruct (category_update_single f (Categories.own caller i) d)
      as [d' [e|k']] eqn:U.
    + apply category_update_error in U. subst.
      destruct (pg_error_eqb e PGRST116); [now split|].
      destruct (pg_error_eqb e PG23505); now split.
    + cbn [fst]. apply category_update_ok in U.
      destruct U as (l1 & k & l2 & L & L' & -> & _ & _ & _ & X).
      unfold categories_ok. rewrite L'. rewrite L in PK, UN, X.
      rewrite !map_app in *. cbn [map] in *. split; [exact PK|].
      apply NoDup_remove in UN. destruct UN as [UN _].
      apply (Permutation_NoDup (Permutation_middle _ _ _)).
      constructor; [|exact UN]. rewrite <- map_app. intros I.
      apply in_map_iff in I. destruct I as (o & Eo & Io).
      assert (Io' : In o (l1 ++ k :: l2)).
      { apply in_app_iff. apply in_app_iff in Io. cbn [In]. tauto. }
      apply (X o Io'); [|exact Eo].
      apply NoDup_remove in PK. destruct PK as [_ PK].
      intros Ei. apply PK. rewrite <- Ei, <- map_app. now apply in_map.
  - cbn [fst Categories.delete_category]. unfold categories_ok, category_delete.
    cbn [categories]. split; now apply NoDup_map_filter.
Qed.

Lemma sample_categories_ok : categories_ok Sample.store.
Proof. split; repeat constructor; intros []. Qed.

Definition named (n : string) : category_body :=
  mkCategoryBody (Some n) None None [].

Lemma category_routes_keep_keys_witness :
  categories_ok (fst (Categories.post_category 51%N Sample.alice (named "Home")
                        Sample.store)) /\
  categories (fst (Categories.post_category 51%N Sample.alice (named "Home")
                     Sample.store))
    = [Sample.work; mkCategory 51%N "Home" default_color Sample.alice].
Proof.
  split; [|reflexivity].
  exact (proj1 (@category_routes_keep_keys 0 51%N Sample.alice 50%N (named "Home")
                  Sample.store sample_categories_ok)).
Defined.

(** X16.  Creating a category under a name: when the caller already has a
    category of that name the answer is 400 "Category name already exists"
    and nothing is stored; when the id is fresh and the caller has none of
    that name, whatever names other users hold, the answer is 201 with the
    new category, in the given color or in "#6366f1", and the creator can
    read it back. *)
Theorem post_category_by_name new_id caller body f n d :
  categorySchemas.create body = Some f ->
  cf_name f = Some n ->
  ((exists k, In k (categories d) /\ cat_name k = n /\ cat_user_id k = caller) ->
   Categories.post_category new_id caller body d
     = (d, Failure 400 Categories.msg_name_exists)) /\
  ((forall k, In k (categories d) ->
      cat_id k <> new_id /\ ~ (cat_name k = n /\ cat_user_id k = caller)) ->
   user_exists d caller = true ->
   let k := mkCategory new_id n (or_else (cf_color f) default_color) caller in
   let d' := with_categories d (categories d ++ [k]) in
   Categories.post_category new_id caller body d = (d', Success 201 k None) /\
   Categories.get_category caller new_id d' = Success 200 k None).
Proof.
  intros V N. split.
  - intros (k & I & En & Eu). unfold Categories.post_category, category_insert.
    rewrite V, N.
    replace (existsb _ (categories d)) with true; [reflexivity|].
    symmetry. apply existsb_exists. exists k. split; [exact I|].
    apply orb_true_iff. right. apply same_name_owner_true.
    unfold name_owner. cbn. congruence.
  - intros Fresh U k d'. unfold Categories.post_category, category_insert.
    rewrite V, N.
    assert (E : existsb (fun o => N.eqb (cat_id o) new_id || same_name_owner o k)
                        (categories d) = false).
    { apply filter_nil_existsb. apply filter_nil_forall. intros o I.
      destruct (Fresh o I) as [F1 F2]. apply orb_false_iff. split.
      - now apply N.eqb_neq.
      - destruct (same_name_owner o k) eqn:Q; [|reflexivity].
        apply same_name_owner_true in Q. inversion Q. tauto. }
    fold k. rewrite E, U. cbn [negb]. split; [reflexivity|].
    unfold Categories.get_category, d'. cbn [categories with_categories].
    rewrite filter_app. rewrite (filter_nil_forall (Categories.own caller new_id)).
    + unfold k. cbn [filter app]. unfold Categories.own.
      cbn [cat_id cat_user_id]. now rewrite !N.eqb_refl.
    + intros o I. destruct (Fresh o I) as [F1 _]. unfold Categories.own.
      apply andb_false_iff. left. now apply N.eqb_neq.
Qed.

Lemma post_category_by_name_witness :
  Categories.post_category 51%N Sample.alice (named "Work") Sample.store
    = (Sample.store, Failure 400 Categories.msg_name_exists) /\
  succeeded (snd (Categories.post_category 51%N Sample.bob (named "Work")
                    Sample.store)) = true.
Proof.
  split.
  - apply (proj1 (@post_category_by_name 51%N Sample.alice (named "Work") _ "Work"
                    Sample.store eq_refl eq_refl)).
    exists Sample.work. split; [now left|split; reflexivity].
  - rewrite (proj1 (proj2 (@post_category_by_name 51%N Sample.bob (named "Work") _
                             "Work" Sample.store eq_refl eq_refl)
                      ltac:(intros k [<-|[]]; split; [discriminate|intros [_ H];
                                                       discriminate H])
                      eq_refl)).
    reflexivity.
Defined.

(** ** Deleting a category *)

Lemma clear_category_fields now t :
  let t' := clear_category now t in
  id t' = id t /\ category_id t' = None /\ created_by t' = created_by t /\
  assigned_to t' = assigned_to t /\ title t' = title t /\
  task_status t' = task_status t /\ updated_at t' = now.
Proof.
  unfold clear_category, Migrations.before_update, Migrations.set_completed_at.
  cbn [task_status]. destruct (_ && _); [cbn; tauto|].
  destruct (negb _); cbn; tauto.
Qed.

(** X17.  [DELETE /categories/:id] is always answered 200.  It removes the
    caller's category of that id and no other category; it deletes no task:
    the tasks that referred to the removed category are kept with
    [category_id] NULL, their title, status, creator and assignee unchanged,
    and every other task is kept as it is.  When the caller owns no category
    of that id, nothing changes at all. *)
Theorem delete_category_clears_references now caller i d :
  let d' := fst (Categories.delete_category now caller i d) in
  succeeded (snd (Categories.delete_category now caller i d)) = true /\
  (forall k, In k (categories d') <->
             In k (categories d) /\ ~ (cat_id k = i /\ cat_user_id k = caller)) /\
  users d' = users d /\
  map id (tasks d') = map id (tasks d) /\
  (forall t, In t (tasks d) ->
     exists t', In t' (tasks d') /\ id t' = id t /\ title t' = title t /\
                task_status t' = task_status t /\ created_by t' = created_by t /\
                assigned_to t' = assigned_to t /\
                (t' = t \/ (category_id t = Some i /\ category_id t' = None))) /\
  ((forall k, In k (categories d) -> ~ (cat_id k = i /\ cat_user_id k = caller)) ->
   d' = d).
Proof.
  cbv zeta. cbn [fst snd Categories.delete_category succeeded].
  unfold category_delete. cbn [categories users tasks].
  set (gone := filter (Categories.own caller i) (categories d)).
  assert (R : forall t, refers_to gone t = true -> category_id t = Some i).
  { intros t H. unfold refers_to in H. destruct (category_id t) as [c|]; [|discriminate].
    apply existsb_exists in H. destruct H as (k & I & E).
    apply filter_In in I. destruct I as [_ O]. apply own_true in O.
    apply N.eqb_eq in E. destruct O as [O _]. congruence. }
  split; [reflexivity|]. split; [|split; [reflexivity|split; [|split]]].
  - intros k. rewrite filter_In, negb_true_iff.
    split; intros [I H]; (split; [exact I|]).
    + intros O. apply own_true in O. congruence.
    + destruct (Categories.own caller i k) eqn:O; [|reflexivity].
      apply own_true in O. tauto.
  - rewrite map_map. apply map_ext. intros t.
    destruct (refers_to gone t); [|reflexivity].
    apply (clear_category_fields now t).
  - intros t I. exists (if refers_to gone t then clear_category now t else t).
    split; [apply in_map_iff; now exists t|].
    destruct (refers_to gone t) eqn:Q.
    + destruct (clear_category_fields now t) as (A & B & C & D & E & F & _).
      repeat split; try assumption. right. split; [now apply R|exact B].
    + repeat split. now left.
  - intros None. assert (G : gone = []).
    { unfold gone. apply filter_nil_forall. intros k I.
      destruct (Categories.own caller i k) eqn:O; [|reflexivity].
      apply own_true in O. elim (None k I O). }
    rewrite G. destruct d as [us cs ts]. cbn [users categories tasks]. f_equal.
    + rewrite <- (filter_ext_in (fun _ => true)).
      * apply forallb_filter_id. now apply forallb_forall.
      * intros k I. symmetry. apply negb_true_iff.
        destruct (Categories.own caller i k) eqn:O; [|reflexivity].
        apply own_true in O. elim (None k I O).
    + rewrite <- (map_id ts) at 2. apply map_ext. intros t.
      unfold refers_to. destruct (category_id t); reflexivity.
Qed.

(** X18.  Deleting a category leaves no task pointing at a category that is
    gone: a table within its constraints stays within them. *)
Theorem delete_category_keeps_constraints now caller i d :
  store_ok d -> store_ok (fst (Categories.delete_category now caller i d)).
Proof.
  intros [PK FK]. cbn [fst Categories.delete_category]. unfold category_delete.
  set (gone := filter (Categories.own caller i) (categories d)).
  split.
  - unfold primary_key. cbn [tasks]. rewrite map_map.
    erewrite map_ext; [exact PK|]. intros t. cbv beta.
    destruct (refers_to gone t); [|reflexivity].
    apply (clear_category_fields now t).
  - cbn [tasks]. apply Forall_forall. intros t' I. apply in_map_iff in I.
    destruct I as (t & <- & I). rewrite Forall_forall in FK.
    destruct (FK t I) as (C & A & K). unfold references_ok, user_exists.
    cbn [users]. fold (user_exists d).
    destruct (refers_to gone t) eqn:Q.
    + destruct (clear_category_fields now t) as (_ & -> & -> & -> & _).
      repeat split; assumption.
    + repeat split; try assumption.
      destruct (category_id t) as [c|] eqn:Ec; [|reflexivity].
      cbn [taskSchemas.optional] in *. unfold category_exists in *.
      cbn [categories]. apply existsb_exists in K. destruct K as (k & Ik & Ek).
      apply existsb_exists. exists k. split; [|exact Ek].
      apply filter_In. split; [exact Ik|]. apply negb_true_iff.
      destruct (Categories.own caller i k) eqn:O; [|reflexivity].
      unfold refers_to in Q. rewrite Ec in Q.
      assert (existsb (fun k => N.eqb (cat_id k) c) gone = true) as X.
      { apply existsb_exists. exists k. split; [|exact Ek].
        apply filter_In. now split. }
      congruence.
Qed.

Lemma delete_category_keeps_constraints_witness :
  store_ok (fst (Categories.delete_category 3000 Sample.alice 50%N Sample.store)) /\
  map category_id
      (tasks (fst (Categories.delete_category 3000 Sample.alice 50%N Sample.store)))
    = [None; None].
Proof.
  split; [|reflexivity].
  exact (@delete_category_keeps_constraints 3000 Sample.alice 50%N Sample.store
           sample_store_ok).
Defined.

(** ** Categories are not shared *)

(** X19.  A caller who owns no category of id [i] is answered 404 "Category
    not found" by [GET /categories/:id], by [PUT /categories/:id] with a
    valid body, which writes nothing, and by [GET /categories/:id/tasks],
    also when the caller is assigned tasks of that category. *)
Theorem category_stranger_gets_not_found caller i d :
  (forall k, In k (categories d) -> ~ (cat_id k = i /\ cat_user_id k = caller)) ->
  Categories.get_category caller i d = Failure 404 Categories.msg_not_found /\
  (forall body f,
     categorySchemas.update body = Some f ->
     Categories.put_category caller i body d
       = (d, Failure 404 Categories.msg_not_found)) /\
  (forall r, Categories.get_category_tasks caller i d r ->
             r = Failure 404 Categories.msg_not_found).
Proof.
  intros H.
  assert (F : filter (Categories.own caller i) (categories d) = []).
  { apply filter_nil_forall. intros k I.
    destruct (Categories.own caller i k) eqn:O; [|reflexivity].
    apply own_true in O. elim (H k I O). }
  split; [|split].
  - unfold Categories.get_category. now rewrite F.
  - intros body f V. unfold Categories.put_category, category_update_single.
    now rewrite V, F.
  - intros r. unfold Categories.get_category_tasks. now rewrite F.
Qed.

Lemma category_stranger_gets_not_found_witness :
  Categories.get_category Sample.bob 50%N Sample.store
    = Failure 404 Categories.msg_not_found /\
  Categories.put_category Sample.bob 50%N (named "Mine") Sample.store
    = (Sample.store, Failure 404 Categories.msg_not_found).
Proof.
  assert (H : forall k, In k (categories Sample.store) ->
                ~ (cat_id k = 50%N /\ cat_user_id k = Sample.bob)).
  { intros k [<-|[]] [_ E]. discriminate E. }
  destruct (@category_stranger_gets_not_found Sample.bob 50%N Sample.store H)
    as (G & P & _).
  split; [exact G|exact (P (named "Mine") _ eq_refl)].
Defined.

Lemma find_by_id cs k :
  NoDup (map cat_id cs) -> In k cs ->
  find (fun o => N.eqb (cat_id o) (cat_id k)) cs = Some k.
Proof.
  induction cs as [|a cs IH]; intros ND I; [destruct I|].
  cbn [map] in ND. apply NoDup_cons_iff in ND. destruct ND as [Na Nc].
  cbn [find]. destruct I as [->|I].
  - now rewrite N.eqb_refl.
  - destruct (N.eqb_spec (cat_id a) (cat_id k)) as [E|_]; [|now apply IH].
    elim Na. rewrite E. now apply in_map.
Qed.

Lemma filter_own_unique cs k caller :
  NoDup (map cat_id cs) -> In k cs -> cat_user_id k = caller ->
  filter (Categories.own caller (cat_id k)) cs = [k].
Proof.
  intros ND I U. induction cs as [|a cs IH]; [destruct I|].
  cbn [map] in ND. apply NoDup_cons_iff in ND. destruct ND as [Na Nc].
  cbn [filter]. destruct I as [->|I].
  - replace (Categories.own caller (cat_id k) k) with true
      by (symmetry; now apply own_true).
    f_equal. apply filter_nil_forall. intros o Io.
    destruct (Categories.own caller (cat_id k) o) eqn:O; [|reflexivity].
    apply own_true in O. destruct O as [O _]. elim Na. rewrite <- O.
    now apply in_map.
  - replace (Categories.own caller (cat_id k) a) with false; [now apply IH|].
    symmetry. destruct (Categories.own caller (cat_id k) a) eqn:O; [|reflexivity].
    apply own_true in O. destruct O as [O _]. elim Na. rewrite O.
    now apply in_map.
Qed.

(** X20.  For the owner of a category, [GET /categories/:id/tasks] answers,
    and every answer is 200 with one entry for each task of that category
    that the caller created or is assigned, and for no other task, the most
    recently created first; each entry carries every column of its task
    and, under [category], the name and color of the category. *)
Theorem category_tasks_are_joined_rows caller d k :
  NoDup (map cat_id (categories d)) ->
  In k (categories d) -> cat_user_id k = caller ->
  (exists r, Categories.get_category_tasks caller (cat_id k) d r) /\
  (forall r,
     Categories.get_category_tasks caller (cat_id k) d r ->
     exists rows,
       r = Success 200
             (map (fun t => mkView t (Some (cat_name k, cat_color k))) rows) None /\
       Permutation
         (filter (fun t => opt_uuid_is (category_id t) (cat_id k)
                           && or_created_assigned caller t) (tasks d)) rows /\
       StronglySorted (fun x y => created_at y <= created_at x) rows /\
       (forall t,
          In t rows <->
          In t (tasks d) /\ category_id t = Some (cat_id k) /\
          (created_by t = caller \/ assigned_to t = Some caller))).
Proof.
  intros ND I U.
  pose proof (@filter_own_unique (categories d) k caller ND I U) as F.
  split.
  - eexists. unfold Categories.get_category_tasks. rewrite F. cbn [single].
    eexists. split; [|reflexivity]. split; [apply stable_sort_perm|].
    apply stable_sort_sorted.
    + intros x y. rewrite !Z.leb_le. lia.
    + intros x y z. rewrite !Z.leb_le. lia.
  - intros r H. unfold Categories.get_category_tasks in H.
    rewrite F in H. cbn [single] in H. destruct H as (rows & [Perm Sorted] & ->).
    assert (M : forall t,
      In t rows <->
      In t (tasks d) /\ category_id t = Some (cat_id k) /\
      (created_by t = caller \/ assigned_to t = Some caller)).
    { intros t. rewrite <- or_created_assigned_true.
      assert (C : opt_uuid_is (category_id t) (cat_id k) = true
                  <-> category_id t = Some (cat_id k)).
      { unfold opt_uuid_is. destruct (category_id t) as [c|].
        - rewrite N.eqb_eq. split; congruence.
        - split; discriminate. }
      rewrite <- C. split.
      - intros It. apply (Permutation_in t (Permutation_sym Perm)) in It.
        apply filter_In in It. destruct It as [It B].
        apply andb_true_iff in B. tauto.
      - intros (It & B1 & B2). apply (Permutation_in t Perm).
        apply filter_In. split; [exact It|]. now rewrite B1, B2. }
    exists rows. split; [|split; [exact Perm|split; [|exact M]]].
    + f_equal. apply map_ext_in. intros t It. apply M in It.
      destruct It as (_ & C & _). unfold join_category. rewrite C.
      now rewrite (@find_by_id (categories d) k ND I).
    + eapply StronglySorted_weaken; [|exact Sorted].
      intros x y. cbv beta. now rewrite Z.leb_le.
Qed.

Lemma category_tasks_are_joined_rows_witness :
  exists r,
    Categories.get_category_tasks Sample.alice 50%N Sample.store r /\
    r = Success 200
          [mkView Sample.report (Some ("Work"%string, "#FF5733"%string))] None.
Proof.
  destruct (@category_tasks_are_joined_rows Sample.alice Sample.store Sample.work
              (proj1 sample_categories_ok) (or_introl eq_refl) eq_refl)
    as [[r G] A].
  exists r. split; [exact G|].
  destruct (A r G) as (rows & -> & Perm & _).
  apply Permutation_length_1_inv in Perm. subst rows. reflexivity.
Defined.

(** * The error-handling middleware ([errorHandler]) *)

Module ErrorHandler.

(** What the handler reads of the error it is given.  [err_details] is the
    list of the [message]s of [Object.values(err.details)], [None] when the
    error has no [details]; [err_statusCode] and [err_message] are [None]
    when the property is missing. *)
Record js_error := mkError {
  err_name : string;
  err_code : option string;
  err_message : option string;
  err_statusCode : option Z;
  err_details : option (list string)
}.

(** The local [error]: its [statusCode] and [message]. *)
Definition shaped := (option Z * option string)%type.

Definition code_is (err : js_error) (c : string) : bool :=
  match err_code err with Some x => String.eqb x c | None => false end.

(** [message.join(', ')] *)
Definition join_messages (l : list string) : string := String.concat ", " l.

(** [x || fallback] for a number: 0 is falsy. *)
Definition number_or (x : option Z) (fallback : Z) : Z :=
  match x with
  | Some v => if v =? 0 then fallback else v
  | None => fallback
  end.

(** [x || fallback] for a string: the empty string is falsy. *)
Definition string_or (x : option string) (fallback : string) : string :=
  match x with
  | Some EmptyString | None => fallback
  | Some s => s
  end.

(** [errorHandler(err, req, res, next)]: the status and the [error] text of
    the answer; [None] when the handler itself throws, which it does on a
    ['ValidationError'] without [details]. *)
Definition errorHandler (err : js_error) : option (Z * string) :=
  let error : shaped := (err_statusCode err, err_message err) in
  match (if String.eqb (err_name err) "ValidationError"
         then match err_details err with
              | Some ms => Some (Some 400, Some (join_messages ms))
              | None => None
              end
         else Some error) with
  | None => None
  | Some error =>
      let error : shaped :=
        if code_is err "23505"
        then (Some 400, Some "Duplicate field value entered"%string) else error in
      let error : shaped :=
        if code_is err "23503"
        then (Some 400, Some "Foreign key constraint violation"%string) else error in
      let error : shaped :=
        if String.eqb (err_name err) "JsonWebTokenError"
        then (Some 401, Some "Invalid token"%string) else error in
      let error : shaped :=
        if String.eqb (err_name err) "TokenExpiredError"
        then (Some 401, Some "Token expired"%string) else error in
      Some (number_or (fst error) 500, string_or (snd error) "Server Error")
  end.

End ErrorHandler.

(** X21.  The answer of the error handler, rule by rule.  A token error is
    answered 401 whatever its code; otherwise a foreign-key or unique
    violation is answered 400 with its fixed text, whatever status and
    message the error carries; otherwise the error's own status and message
    are used, 500 and "Server Error" standing in for a missing or zero
    status and a missing or empty message. *)
Theorem errorHandler_rules err :
  ErrorHandler.err_name err <> "ValidationError"%string ->
  let name := ErrorHandler.err_name err in
  let answer := ErrorHandler.errorHandler err in
  (name = "TokenExpiredError"%string -> answer = Some (401, "Token expired"%string)) /\
  (name = "JsonWebTokenError"%string -> answer = Some (401, "Invalid token"%string)) /\
  (name <> "TokenExpiredError"%string -> name <> "JsonWebTokenError"%string ->
   (ErrorHandler.err_code err = Some "23503"%string ->
    answer = Some (400, "Foreign key constraint violation"%string)) /\
   (ErrorHandler.err_code err = Some "23505"%string ->
    answer = Some (400, "Duplicate field value entered"%string)) /\
   (ErrorHandler.err_code err <> Some "23503"%string ->
    ErrorHandler.err_code err <> Some "23505"%string ->
    answer = Some (ErrorHandler.number_or (ErrorHandler.err_statusCode err) 500,
                   ErrorHandler.string_or (ErrorHandler.err_message err)
                     "Server Error"))).
Proof.
  intros NV name answer. unfold answer, ErrorHandler.errorHandler. fold name.
  apply String.eqb_neq in NV. fold name in NV. rewrite NV.
  assert (C : forall c, ErrorHandler.code_is err c = true
                        <-> ErrorHandler.err_code err = Some c).
  { intros c. unfold ErrorHandler.code_is.
    destruct (ErrorHandler.err_code err) as [x|].
    - rewrite String.eqb_eq. split; congruence.
    - split; discriminate. }
  split; [|split].
  - intros E. rewrite E. reflexivity.
  - intros E. rewrite E. reflexivity.
  - intros N1 N2. apply String.eqb_neq in N1, N2. rewrite N1, N2.
    split; [|split].
    + intros E. rewrite (proj2 (C _) E). reflexivity.
    + intros E. rewrite (proj2 (C _) E).
      replace (ErrorHandler.code_is err "23503") with false; [reflexivity|].
      symmetry. unfold ErrorHandler.code_is. now rewrite E.
    + intros E1 E2.
      replace (ErrorHandler.code_is err "23505") with false.
      * replace (ErrorHandler.code_is err "23503") with false; [reflexivity|].
        symmetry. destruct (ErrorHandler.code_is err "23503") eqn:Q; [|reflexivity].
        apply C in Q. contradiction.
      * symmetry. destruct (ErrorHandler.code_is err "23505") eqn:Q; [|reflexivity].
        apply C in Q. contradiction.
Qed.

Lemma errorHandler_rules_witness :
  ErrorHandler.errorHandler
    (ErrorHandler.mkError "error" (Some "23505"%string) (Some "duplicate key"%string)
                          (Some 500) None)
  = Some (400, "Duplicate field value entered"%string).
Proof.
  refine (proj1 (proj2 (proj2 (proj2 (@errorHandler_rules
    (ErrorHandler.mkError "error" (Some "23505"%string) (Some "duplicate key"%string)
                          (Some 500) None) _)) _ _)) eq_refl);
    discriminate.
Defined.

(** * The scheduled jobs ([src/jobs/scheduledJobs.js]) *)

(** The jobs read the whole table, for all users, and write their findings
    to the log; what is modelled is what they log. *)

Module ScheduledJobs.

(** The text stored in the [status] column. *)
Definition status_text (s : status) : string :=
  match s with
  | todo => "todo" | in_progress => "in_progress" | completed => "completed"
  end.

(** A JavaScript object with string keys, as the list of its entries in
    insertion order. *)
Fixpoint get (k : string) (o : list (string * Z)) : option Z :=
  match o with
  | [] => None
  | (k', v) :: r => if String.eqb k' k then Some v else get k r
  end.

Fixpoint set (k : string) (v : Z) (o : list (string * Z)) : list (string * Z) :=
  match o with
  | [] => [(k, v)]
  | (k', v') :: r => if String.eqb k' k then (k, v) :: r else (k', v') :: set k v r
  end.

(** [acc[key] = (acc[key] || 0) + 1; return acc] *)
Definition count_key (acc : list (string * Z)) (key : string) : list (string * Z) :=
  set key (or_else (get key acc) 0 + 1) acc.

(** [rows.reduce((acc, task) => ..., {})] *)
Definition breakdown_by (key : task -> string) (rows : list task)
  : list (string * Z) :=
  fold_left (fun acc t => count_key acc (key t)) rows [].

(** [.lt('due_date', now).neq('status', 'completed')], over every user's
    tasks. *)
Definition overdue_anywhere (now : timestamp) (t : task) : bool :=
  Analytics.due_lt now t && negb (Analytics.has_status completed t).

Record statistics := mkStatistics {
  st_total_tasks : Z;
  st_status_breakdown : list (string * Z);
  st_priority_breakdown : list (string * Z)
}.

(** [updateTaskStatistics]: the rows are those with
    [.neq('status', 'deleted')]. *)
Definition updateTaskStatistics (d : db) : statistics :=
  let stats :=
    filter (fun t => negb (String.eqb (status_text (task_status t)) "deleted"))
           (tasks d) in
  mkStatistics (Z.of_nat (List.length stats))
               (breakdown_by (fun t => status_text (task_status t)) stats)
               (breakdown_by (fun t => priority_text (task_priority t)) stats).

(** The three counts [generateDailyDigest] logs for one user.  [today] is
    [new Date()], [yesterday] one day before; the bounds of [due_today] are
    the dates [today.toISOString().split('T')[0]] and that of 24 hours
    later, which the database reads as midnight UTC of those dates. *)
Definition midnight (t : timestamp) : timestamp :=
  Analytics.date_key t * Analytics.day_ms.

Definition completed_between (user : uuid) (from to : timestamp) (t : task) : bool :=
  Analytics.has_status completed t
  && match completed_at t with
     | Some c => (from <=? c) && (c <? to)
     | None => false
     end
  && or_created_assigned user t.

Definition due_between (user : uuid) (from to : timestamp) (t : task) : bool :=
  match due_date t with
  | Some dd => (from <=? dd) && (dd <? to)
  | None => false
  end
  && negb (Analytics.has_status completed t)
  && or_created_assigned user t.

Record digest := mkDigest {
  completed_yesterday : Z;
  dg_overdue_tasks : Z;
  due_today : Z
}.

Definition digest_for (today : timestamp) (user : uuid) (d : db) : digest :=
  let yesterday := Analytics.days_before 1 today in
  mkDigest
    (Analytics.count (completed_between user yesterday today) (tasks d))
    (Analytics.count (fun t => overdue_anywhere today t && or_created_assigned user t)
                     (tasks d))
    (Analytics.count
       (due_between user (midnight today)
                    (midnight (today + 24 * 60 * 60 * 1000))) (tasks d)).

(** [generateDailyDigest]: one digest for each profile. *)
Definition generateDailyDigest (today : timestamp) (profiles : list uuid) (d : db)
  : list (uuid * digest) :=
  map (fun u => (u, digest_for today u d)) profiles.

End ScheduledJobs.

(** ** Breakdowns *)

Lemma get_set_same k v o : ScheduledJobs.get k (ScheduledJobs.set k v o) = Some v.
Proof.
  induction o as [|[k' v'] r IH]; cbn [ScheduledJobs.set ScheduledJobs.get].
  - now rewrite String.eqb_refl.
  - destruct (String.eqb k' k) eqn:E; cbn [ScheduledJobs.get].
    + now rewrite String.eqb_refl.
    + now rewrite E.
Qed.

Lemma get_set_other k k' v o :
  k <> k' -> ScheduledJobs.get k (ScheduledJobs.set k' v o) = ScheduledJobs.get k o.
Proof.
  intros Ne. induction o as [|[k2 v2] r IH]; cbn [ScheduledJobs.set ScheduledJobs.get].
  - replace (String.eqb k' k) with false; [reflexivity|].
    symmetry. apply String.eqb_neq. congruence.
  - destruct (String.eqb k2 k') eqn:E; cbn [ScheduledJobs.get].
    + apply String.eqb_eq in E. subst k2.
      replace (String.eqb k' k) with false; [reflexivity|].
      symmetry. apply String.eqb_neq. congruence.
    + now rewrite IH.
Qed.

(** After the reduce, a key holds the number of rows that gave it, and is
    missing when no row did. *)
Lemma breakdown_by_get (key : task -> string) rows k :
  let n := Z.of_nat (List.length (filter (fun t => String.eqb (key t) k) rows)) in
  ScheduledJobs.get k (ScheduledJobs.breakdown_by key rows)
    = if 0 <? n then Some n else None.
Proof.
  unfold ScheduledJobs.breakdown_by.
  assert (G : forall o,
    let n := Z.of_nat (List.length (filter (fun t => String.eqb (key t) k) rows)) in
    ScheduledJobs.get k
      (fold_left (fun acc t => ScheduledJobs.count_key acc (key t)) rows o)
      = if 0 <? n then Some (or_else (ScheduledJobs.get k o) 0 + n)
        else ScheduledJobs.get k o).
  { induction rows as [|t rows IH]; intros o; cbn [fold_left filter].
    - reflexivity.
    - cbv zeta in *. rewrite IH. unfold ScheduledJobs.count_key.
      destruct (String.eqb (key t) k) eqn:E.
      + apply String.eqb_eq in E. rewrite E, get_set_same. cbn [or_else List.length].
        replace (0 <? Z.of_nat (S (List.length
                   (filter (fun t => String.eqb (key t) k) rows)))) with true
          by (symmetry; apply Z.ltb_lt; lia).
        destruct (0 <? Z.of_nat _) eqn:L; f_equal; [lia|].
        apply Z.ltb_ge in L. lia.
      + apply String.eqb_neq in E.
        rewrite get_set_other by congruence. reflexivity. }
  cbv zeta in *. rewrite G. cbn [ScheduledJobs.get or_else].
  destruct (0 <? _); reflexivity.
Qed.

Lemma status_text_eqb s s' :
  String.eqb (ScheduledJobs.status_text s) (ScheduledJobs.status_text s')
    = status_eqb s s'.
Proof. destruct s, s'; reflexivity. Qed.

Lemma priority_text_eqb p p' :
  String.eqb (priority_text p) (priority_text p') = priority_eqb p p'.
Proof. destruct p, p'; reflexivity. Qed.

(** X22.  The statistics job counts every row of [tasks], of every user: the
    filter on status ['deleted'] excludes none.  In each breakdown a status,
    or a priority, that some task has is a key holding the number of such
    tasks, and one that no task has is not a key at all. *)
Theorem updateTaskStatistics_counts d :
  let s := ScheduledJobs.updateTaskStatistics d in
  ScheduledJobs.st_total_tasks s = Z.of_nat (List.length (tasks d)) /\
  (forall st,
     let n := Analytics.count (Analytics.has_status st) (tasks d) in
     ScheduledJobs.get (ScheduledJobs.status_text st)
                       (ScheduledJobs.st_status_breakdown s)
       = if 0 <? n then Some n else None) /\
  (forall p,
     let n := Analytics.count (fun t => priority_eqb (task_priority t) p) (tasks d) in
     ScheduledJobs.get (priority_text p) (ScheduledJobs.st_priority_breakdown s)
       = if 0 <? n then Some n else None).
Proof.
  cbv zeta. unfold ScheduledJobs.updateTaskStatistics.
  assert (F : filter (fun t => negb (String.eqb (ScheduledJobs.status_text
                                                   (task_status t)) "deleted"))
                     (tasks d) = tasks d).
  { apply forallb_filter_id. apply forallb_forall. intros t _.
    destruct (task_status t); reflexivity. }
  rewrite F. cbn [ScheduledJobs.st_total_tasks ScheduledJobs.st_status_breakdown
                  ScheduledJobs.st_priority_breakdown].
  split; [reflexivity|]. split.
  - intros st. rewrite breakdown_by_get. cbv zeta. unfold Analytics.count.
    rewrite (filter_ext _ (Analytics.has_status st)); [reflexivity|].
    intros t. apply status_text_eqb.
  - intros p. rewrite breakdown_by_get. cbv zeta. unfold Analytics.count.
    rewrite (filter_ext _ (fun t => priority_eqb (task_priority t) p));
      [reflexivity|].
    intros t. apply priority_text_eqb.
Qed.

(** ** The daily digest *)



(** * The profile route ([src/routes/auth.js]) *)

Module Auth.

(** A row of [profiles] (migration 001), without its timestamps. *)
Record profile := mkProfile {
  pr_id : uuid;
  pr_email : string;
  pr_full_name : string;
  pr_avatar_url : option string;
  pr_role : string
}.

(** [req.user], as the [authenticate] middleware leaves it: the id, the
    email and [user_metadata.full_name], the last two possibly missing. *)
Record auth_user := mkUser {
  au_id : uuid;
  au_email : option string;
  au_full_name : option string
}.

(** [INSERT INTO profiles (id, email, full_name)]: [id] is the primary key
    and refers to [auth.users], [email] is UNIQUE NOT NULL, [role] defaults
    to ['user']. *)
Definition profile_insert (users : list uuid) (i : uuid) (email : option string)
  (full_name : string) (ps : list profile) : pg_error + (list profile * profile) :=
  match email with
  | None => inl PG23502
  | Some e =>
      if existsb (fun p => N.eqb (pr_id p) i || String.eqb (pr_email p) e) ps
      then inl PG23505
      else if negb (existsb (N.eqb i) users) then inl PG23503
      else let p := mkProfile i e full_name None "user" in inr (ps ++ [p], p)
  end.

(** [router.get('/profile')]: the profile of the caller, created when the
    lookup finds none:
<<
  if (error && error.code === 'PGRST116') { ... insert({ id, email,
      full_name: req.user.user_metadata.full_name || 'User' }) ... }
>> *)
Definition get_profile (users : list uuid) (u : auth_user) (ps : list profile)
  : list profile * response profile :=
  match single (filter (fun p => N.eqb (pr_id p) (au_id u)) ps) with
  | inr profile => (ps, Success 200 profile None)
  | inl _ =>
      match profile_insert users (au_id u) (au_email u)
              (ErrorHandler.string_or (au_full_name u) "User") ps with
      | inl _ => (ps, Failure 500 "Failed to create profile")
      | inr (ps', newProfile) => (ps', Success 200 newProfile None)
      end
  end.

End Auth.

(** The two keys of [profiles]. *)
Definition profiles_ok (ps : list Auth.profile) : Prop :=
  NoDup (map Auth.pr_id ps) /\ NoDup (map Auth.pr_email ps).

(** X25.  [GET /auth/profile] gets or creates: when it answers 200, the
    profile is the caller's, the table holds the profiles it held before and
    at most this one more, asking again gives the same profile and changes
    nothing, and ids and emails stay unique; when it answers an error, the
    table is unchanged. *)
Theorem get_profile_gets_or_creates users u ps :
  let ps' := fst (Auth.get_profile users u ps) in
  (forall p m, snd (Auth.get_profile users u ps) = Success 200 p m ->
     Auth.pr_id p = Auth.au_id u /\ In p ps' /\
     (ps' = ps \/ ps' = ps ++ [p]) /\
     Auth.get_profile users u ps' = (ps', Success 200 p None)) /\
  (succeeded (snd (Auth.get_profile users u ps)) = false -> ps' = ps) /\
  (profiles_ok ps -> profiles_ok ps').
Proof.
  cbv zeta. unfold Auth.get_profile.
  destruct (single (filter (fun p => N.eqb (Auth.pr_id p) (Auth.au_id u)) ps))
    as [e|p0] eqn:S.
  - unfold Auth.profile_insert.
    destruct (Auth.au_email u) as [em|];
      [|cbn [fst snd succeeded];
        split; [intros p m H; discriminate H|split; [reflexivity|auto]]].
    destruct (existsb _ ps) eqn:E;
      [cbn [fst snd succeeded];
       split; [intros p m H; discriminate H|split; [reflexivity|auto]]|].
    destruct (negb _);
      [cbn [fst snd succeeded];
       split; [intros p m H; discriminate H|split; [reflexivity|auto]]|].
    set (p := Auth.mkProfile (Auth.au_id u) em
                (ErrorHandler.string_or (Auth.au_full_name u) "User") None "user").
    assert (X : forall q, In q ps ->
                  Auth.pr_id q <> Auth.au_id u /\ Auth.pr_email q <> em).
    { intros q I.
      destruct (N.eqb (Auth.pr_id q) (Auth.au_id u) || String.eqb (Auth.pr_email q) em)
        eqn:Q.
      - assert (existsb (fun p => N.eqb (Auth.pr_id p) (Auth.au_id u)
                                  || String.eqb (Auth.pr_email p) em) ps = true) as Y
          by (apply existsb_exists; now exists q).
        congruence.
      - apply orb_false_iff in Q. destruct Q as [Q1 Q2].
        split; [now apply N.eqb_neq|now apply String.eqb_neq]. }
    cbn [fst snd succeeded]. split; [|split; [discriminate|]].
    + intros q m H. inversion H; subst q m; clear H.
      split; [reflexivity|]. split; [apply in_or_app; right; now left|].
      split; [now right|].
      rewrite filter_app.
      rewrite (filter_nil_forall (fun p => N.eqb (Auth.pr_id p) (Auth.au_id u)) ps).
      * cbn [filter app p Auth.pr_id]. rewrite N.eqb_refl. reflexivity.
      * intros q I. apply N.eqb_neq. now apply X.
    + intros [PK UN]. unfold profiles_ok. rewrite !map_app. cbn [map].
      split; (apply NoDup_app; [assumption|repeat constructor; intros []|]);
        intros x I [<-|[]]; apply in_map_iff in I; destruct I as (q & Eq & Iq);
        destruct (X q Iq) as [X1 X2]; [now apply X1|now apply X2].
  - cbn [fst snd succeeded]. split; [|split; [discriminate|auto]].
    intros p m H. inversion H; subst p m; clear H.
    apply single_inr in S. destruct (filter_singleton_In _ _ S) as [I F].
    apply N.eqb_eq in F. split; [exact F|]. split; [exact I|]. split; [now left|].
    now rewrite S.
Qed.

Lemma get_profile_gets_or_creates_witness :
  let u := Auth.mkUser Sample.alice (Some "alice@example.com"%string) None in
  exists ps p,
    Auth.get_profile [Sample.alice] u [] = (ps, Success 200 p None) /\
    Auth.pr_full_name p = "User"%string /\
    Auth.get_profile [Sample.alice] u ps = (ps, Success 200 p None).
Proof.
  intros u. eexists. eexists. split; [reflexivity|]. split; [reflexivity|].
  exact (proj2 (proj2 (proj2
    (proj1 (@get_profile_gets_or_creates [Sample.alice] u []) _ None eq_refl)))).
Defined.

(** * Reassignment through the general update *)

Lemma update_fields_of_body body f :
  taskSchemas.update body = Some f ->
  f_title f = b_title body /\ f_category_id f = b_category_id body /\
  f_assigned_to f = b_assigned_to body.
Proof.
  unfold taskSchemas.update. intros V.
  destruct (taskSchemas.optional_valid parse_status _); [|discriminate].
  destruct (taskSchemas.optional_valid parse_priority _); [|discriminate].
  destruct (_ && _); [|discriminate]. inversion V. cbn. auto.
Qed.

(** X26.  [PUT /tasks/:id] accepts [assigned_to] from whoever may update the
    task.  An assignee who is not the creator can so hand the task to
    another existing user: the answer is 200, the new assignee can read the
    task, and the former assignee's [GET /tasks/:id] is answered 404 from
    then on. *)
Theorem assignee_hands_over_through_put now caller u body f d t :
  primary_key d -> In t (tasks d) ->
  assigned_to t = Some caller -> created_by t <> caller ->
  taskSchemas.update body = Some f ->
  b_assigned_to body = Some u -> b_category_id body = None ->
  user_exists d u = true -> u <> caller ->
  exists d' v,
    Tasks.put_task now caller (id t) body d = (d', Success 200 v None) /\
    assigned_to (row v) = Some u /\ created_by (row v) = created_by t /\
    Tasks.get_task u (id t) d' = Success 200 v None /\
    Tasks.get_task caller (id t) d' = Failure 404 msg_not_found.
Proof.
  intros PK I A C V Ba Bc U Ne.
  destruct (@update_fields_of_body body f V) as (_ & Fc & Fa). rewrite Bc in Fc.
  rewrite Ba in Fa.
  unfold Tasks.put_task. rewrite V, Fc. cbn [taskSchemas.optional negb].
  set (p := Tasks.patch_of_fields f).
  set (flt := fun x => eq_id (id t) x && or_created_assigned caller x).
  assert (Vis : visible_to caller t) by (now right).
  rewrite (@update_single_one now p flt d t (visible_filter PK I Vis)).
  assert (FK : fk_patch_ok d p = true).
  { unfold fk_patch_ok, p, Tasks.patch_of_fields.
    cbn [p_category_id p_assigned_to]. now rewrite Fc, Fa. }
  rewrite FK.
  destruct (update_row_fields now p t) as (Ei & Ec & _ & _ & _ & _ & Ea).
  cbv zeta in *.
  assert (Ea' : assigned_to (update_row now p t) = Some u).
  { rewrite Ea. unfold p, Tasks.patch_of_fields. cbn [p_assigned_to].
    now rewrite Fa. }
  assert (PK' : primary_key (updated_tasks now p flt d)).
  { unfold primary_key, updated_tasks. cbn [tasks with_tasks].
    rewrite map_update_keeps; [exact PK|].
    intros x. apply (update_row_fields now p x). }
  assert (I' : In (update_row now p t) (tasks (updated_tasks now p flt d))).
  { unfold updated_tasks. cbn [tasks with_tasks]. apply in_map_iff.
    exists t. split; [|exact I].
    replace (flt t) with true; [reflexivity|]. symmetry. unfold flt.
    apply andb_true_iff. split; [now apply eq_id_true|].
    now apply or_created_assigned_true. }
  eexists. eexists. split; [reflexivity|]. cbn [row join_category].
  split; [exact Ea'|]. split; [exact Ec|]. split.
  - unfold Tasks.get_task. rewrite <- Ei.
    rewrite (@visible_filter _ u _ PK' I' (or_intror Ea')). reflexivity.
  - unfold Tasks.get_task. rewrite filter_nil_forall; [reflexivity|].
    intros x Ix. apply andb_false_iff.
    destruct (eq_id (id t) x) eqn:Q; [right|now left].
    apply eq_id_true in Q.
    rewrite (@primary_key_unique _ x (update_row now p t) PK' Ix I')
      by congruence.
    destruct (or_created_assigned caller (update_row now p t)) eqn:O;
      [|reflexivity].
    apply or_created_assigned_true in O. rewrite Ec, Ea' in O.
    destruct O as [O|O]; [contradiction|]. inversion O. congruence.
Qed.

Definition hand_to (u : uuid) : task_body :=
  mkBody None None None None None None (Some u) [].

Lemma assignee_hands_over_through_put_witness :
  exists d' v,
    Tasks.put_task 2000 Sample.bob 10%N (hand_to Sample.carol) Sample.store
      = (d', Success 200 v None) /\
    Tasks.get_task Sample.carol 10%N d' = Success 200 v None /\
    Tasks.get_task Sample.bob 10%N d' = Failure 404 msg_not_found.
Proof.
  destruct (@assignee_hands_over_through_put 2000 Sample.bob Sample.carol
              (hand_to Sample.carol) _ Sample.store Sample.report
              sample_primary_key (or_introl eq_refl) eq_refl
              ltac:(discriminate) eq_refl eq_refl eq_refl eq_refl
              ltac:(discriminate))
    as (d' & v & P & _ & _ & G1 & G2).
  exists d', v. split; [exact P|]. split; [exact G1|exact G2].
Defined.

(** * What the assignee of a task may write *)

Lemma update_row_columns now p OLD :
  let NEW := update_row now p OLD in
  id NEW = id OLD /\ created_by NEW = created_by OLD /\
  title NEW = or_else (p_title p) (title OLD) /\
  description NEW = or_keep (p_description p) (description OLD) /\
  task_status NEW = or_else (p_status p) (task_status OLD) /\
  task_priority NEW = or_else (p_priority p) (task_priority OLD) /\
  due_date NEW = or_keep (p_due_date p) (due_date OLD) /\
  category_id NEW = or_keep (p_category_id p) (category_id OLD) /\
  assigned_to NEW = or_else (p_assigned_to p) (assigned_to OLD).
Proof.
  unfold update_row, Migrations.before_update, Migrations.set_completed_at.
  destruct (_ && _); [cbn; tauto|]. destruct (negb _); cbn; tauto.
Qed.

Lemma update_keeps_text body f :
  taskSchemas.update body = Some f ->
  f_title f = b_title body /\ f_description f = b_description body /\
  f_category_id f = b_category_id body /\ f_assigned_to f = b_assigned_to body.
Proof.
  unfold taskSchemas.update. intros V.
  destruct (taskSchemas.optional_valid parse_status _); [|discriminate].
  destruct (taskSchemas.optional_valid parse_priority _); [|discriminate].
  destruct (_ && _); [|discriminate]. inversion V. cbn. auto.
Qed.

Lemma own_category_exists d caller c :
  Tasks.own_category d caller c = true -> category_exists d c = true.
Proof.
  intros H. apply own_category_true in H. destruct H as (k & I & E & _).
  unfold category_exists. apply existsb_exists. exists k. split; [exact I|].
  now apply N.eqb_eq.
Qed.

(** No row with the id of [t] was created by [caller]. *)
Lemma not_the_creator d caller t :
  primary_key d -> In t (tasks d) -> created_by t <> caller ->
  filter (fun x => eq_id (id t) x && eq_created_by caller x) (tasks d) = [].
Proof.
  intros PK I C. apply filter_nil_forall. intros x Ix.
  apply andb_false_iff. destruct (eq_id (id t) x) eqn:Q; [right|now left].
  apply eq_id_true in Q. rewrite (@primary_key_unique d x t PK Ix I Q).
  destruct (eq_created_by caller t) eqn:O; [|reflexivity].
  apply eq_created_by_true in O. contradiction.
Qed.

(** The body of a PUT names at least one of the columns of the schema. *)
Definition names_a_column (f : task_fields) : Prop :=
  f <> mkFields None None None None None None None.

(** C2 (amended).  DELETE and assign succeed only when the caller created the
    task; the general update succeeds only when the caller created it or is
    its assignee.  For the assignee [caller] of a task [t] that somebody
    else created: DELETE and assign are answered 404 and write nothing; a
    PUT whose body passes validation, names at least one column, names as
    category (if any) a category of the caller and as [assigned_to] (if any)
    an existing user, is answered 200, and the row it returns, which is the
    row stored, has every column the body names set to the body's value,
    [title], [description], [category_id] and [assigned_to] among them, and
    the other columns of the body as they were. *)
Theorem delete_assign_creator_only_put_creator_or_assignee now caller i d :
  (forall body, succeeded (snd (Tasks.put_task now caller i body d)) = true ->
     exists t, In t (tasks d) /\ id t = i /\
               (created_by t = caller \/ assigned_to t = Some caller)) /\
  (succeeded (snd (Tasks.delete_task caller i d)) = true ->
     exists t, In t (tasks d) /\ id t = i /\ created_by t = caller) /\
  (forall a, succeeded (snd (Tasks.patch_assign now caller i a d)) = true ->
     exists t, In t (tasks d) /\ id t = i /\ created_by t = caller) /\
  (forall t,
     primary_key d -> In t (tasks d) -> id t = i ->
     assigned_to t = Some caller -> created_by t <> caller ->
     Tasks.delete_task caller i d = (d, Failure 404 msg_no_permission) /\
     (forall a,
        Tasks.patch_assign now caller i a d = (d, Failure 404 msg_no_permission)) /\
     (forall body f,
        taskSchemas.update body = Some f ->
        names_a_column f ->
        taskSchemas.optional (Tasks.own_category d caller) (f_category_id f) = true ->
        taskSchemas.optional (user_exists d) (f_assigned_to f) = true ->
        exists d' v,
          Tasks.put_task now caller i body d = (d', Success 200 v None) /\
          In (row v) (tasks d') /\
          id (row v) = i /\ created_by (row v) = created_by t /\
          title (row v) = or_else (b_title body) (title t) /\
          description (row v) = or_keep (b_description body) (description t) /\
          category_id (row v) = or_keep (b_category_id body) (category_id t) /\
          assigned_to (row v) = or_keep (b_assigned_to body) (assigned_to t) /\
          task_status (row v) = or_else (f_status f) (task_status t) /\
          task_priority (row v) = or_else (f_priority f) (task_priority t) /\
          due_date (row v) = or_keep (f_due_date f) (due_date t))).
Proof.
  split; [|split; [|split]].
  - intros body. unfold Tasks.put_task.
    destruct (taskSchemas.update body) as [f|]; [|discriminate].
    destruct (negb _); [discriminate|].
    destruct (update_single _ _ _ _) as [d' [e|t']] eqn:U.
    + destruct (pg_error_eqb e PGRST116); discriminate.
    + intros _. apply update_single_ok_inv in U. destruct U as (t & F & _).
      apply filter_singleton_In in F. destruct F as [I F].
      apply andb_true_iff in F. destruct F as [F1 F2].
      exists t. repeat split; [assumption|now apply eq_id_true|].
      now apply or_created_assigned_true.
  - unfold Tasks.delete_task.
    destruct (single _) as [e|t] eqn:S; [discriminate|]. intros _.
    apply single_inr, filter_singleton_In in S. destruct S as [I F].
    apply andb_true_iff in F. destruct F as [F1 F2].
    exists t. repeat split; [assumption|now apply eq_id_true|].
    now apply eq_created_by_true.
  - intros a. unfold Tasks.patch_assign.
    destruct a as [|u|s]; cbv beta zeta; [| |discriminate];
      (destruct (update_single _ _ _ _) as [d' [e|t']] eqn:U; [discriminate|]);
      intros _; apply update_single_ok_inv in U; destruct U as (t & F & _);
    apply filter_singleton_In in F; destruct F as [I F];
    apply andb_true_iff in F; destruct F as [F1 F2];
    exists t; (repeat split; [assumption|now apply eq_id_true|]);
    now apply eq_created_by_true.
  - intros t PK I <- A C.
    pose proof (@not_the_creator d caller t PK I C) as O.
    split; [|split].
    + unfold Tasks.delete_task. now rewrite O.
    + intros a. unfold Tasks.patch_assign. cbv beta zeta.
      destruct a as [|u|s]; [| |reflexivity];
        now rewrite (update_single_none _ _ _ _ O).
    + intros body f V _ Cat Usr.
      destruct (@update_keeps_text body f V) as (Ft & Fd & Fc & Fa).
      unfold Tasks.put_task. rewrite V, Cat. cbn [negb].
      set (p := Tasks.patch_of_fields f).
      set (flt := fun x => eq_id (id t) x && or_created_assigned caller x).
      assert (Vis : visible_to caller t) by (now right).
      rewrite (@update_single_one now p flt d t (visible_filter PK I Vis)).
      assert (FK : fk_patch_ok d p = true).
      { unfold fk_patch_ok, p, Tasks.patch_of_fields.
        cbn [p_category_id p_assigned_to]. apply andb_true_iff. split.
        - destruct (f_category_id f) as [c|]; [|reflexivity].
          now apply own_category_exists with caller.
        - destruct (f_assigned_to f) as [u|]; [exact Usr|reflexivity]. }
      rewrite FK.
      destruct (update_row_columns now p t)
        as (Ei & Ec & Et & Ed & Es & Ep & Edd & Ecat & Ea).
      cbv zeta in *.
      eexists. eexists. split; [reflexivity|]. cbn [row join_category].
      split.
      { unfold updated_tasks. cbn [tasks with_tasks]. apply in_map_iff.
        exists t. split; [|exact I].
        replace (flt t) with true; [reflexivity|]. symmetry. unfold flt.
        apply andb_true_iff. split; [now apply eq_id_true|].
        now apply or_created_assigned_true. }
      rewrite <- Ft, <- Fd, <- Fc, <- Fa.
      repeat split; try assumption.
      rewrite Ea. unfold p, Tasks.patch_of_fields. cbn [p_assigned_to].
      now destruct (f_assigned_to f).
Qed.

Lemma assignee_put_witness :
  Tasks.delete_task Sample.bob 10%N Sample.store
    = (Sample.store, Failure 404 msg_no_permission) /\
  Tasks.patch_assign 2000 Sample.bob 10%N (Tasks.AssignUuid Sample.bob) Sample.store
    = (Sample.store, Failure 404 msg_no_permission) /\
  exists d' v,
    Tasks.put_task 2000 Sample.bob 10%N (Sample.retitle "Edited") Sample.store
      = (d', Success 200 v None) /\
    In (row v) (tasks d') /\ title (row v) = "Edited"%string /\
    description (row v) = description Sample.report /\
    assigned_to (row v) = Some Sample.bob.
Proof.
  destruct (delete_assign_creator_only_put_creator_or_assignee
              2000 Sample.bob 10%N Sample.store) as (_ & _ & _ & H).
  destruct (H Sample.report sample_primary_key (or_introl eq_refl) eq_refl eq_refl
              ltac:(discriminate)) as (D & A & P).
  split; [exact D|]. split; [exact (A (Tasks.AssignUuid Sample.bob))|].
  destruct (P (Sample.retitle "Edited") _ eq_refl ltac:(discriminate)
              eq_refl eq_refl)
    as (d' & v & E & I & _ & _ & T & Ds & _ & As & _).
  exists d', v. split; [exact E|]. split; [exact I|].
  split; [exact T|]. split; [exact Ds|exact As].
Defined.
